(** * InstaReels: the engagement engine, its quota store and the session loop

    A shallow embedding of [database.py], [engager.py], [analyzer.py] and the
    control loop of [main.py], with the properties of the specification
    stated and settled over it.

    Modelling conventions.
    - Python [str] is [string] (bytes); [lower]/[upper] act on ASCII letters.
    - Scores and thresholds are rationals [Q]; only comparisons are used.
    - Counts are [nat], configured caps are [Z] (any JSON integer).
    - A calendar date is its ISO text, as [date.today().isoformat()] and
      SQLite's [DATE(...)] produce it.
    - SQLite tables: [engagement_log] is an append-only list, [reels_analyzed]
      (unique [reel_id]) and [friend_shares] (unique [(friend_username, date)])
      are finite maps.
    - The platform, the clock, the downloader and the analyzer's collaborators
      are oracles; every external effect is recorded in a trace.
    - Store writes are taken to succeed (no [sqlite3.Error]). *)

From Stdlib Require Import QArith Ascii String.
From stdpp Require Import gmap strings list fin_maps.

Local Open Scope string_scope.
Local Open Scope nat_scope.
Local Open Scope list_scope.

(** ** Python string helpers *)

Module PyStr.

Definition ascii_lower (c : ascii) : ascii :=
  let n := nat_of_ascii c in
  if (65 <=? n)%nat && (n <=? 90)%nat then ascii_of_nat (n + 32) else c.

Definition ascii_upper (c : ascii) : ascii :=
  let n := nat_of_ascii c in
  if (97 <=? n)%nat && (n <=? 122)%nat then ascii_of_nat (n - 32) else c.

(** [str.lower()] on ASCII text: the 26 letters are folded and every other
    character is kept as it is.  (Python also folds the letters outside
    ASCII, which this model does not know.) *)
Fixpoint lower (s : string) : string :=
  match s with
  | EmptyString => EmptyString
  | String c r => String (ascii_lower c) (lower r)
  end.

(** [str.upper()] on ASCII text, in the same way. *)
Fixpoint upper (s : string) : string :=
  match s with
  | EmptyString => EmptyString
  | String c r => String (ascii_upper c) (upper r)
  end.

(** [needle in hay] *)
Fixpoint contains (needle hay : string) : bool :=
  String.prefix needle hay ||
  match hay with
  | EmptyString => false
  | String _ r => contains needle r
  end.

(** truth value of a string: [bool(s)] *)
Definition nonempty (s : string) : bool :=
  match s with EmptyString => false | String _ _ => true end.

Definition is_space (c : ascii) : bool :=
  let n := nat_of_ascii c in
  ((9 <=? n)%nat && (n <=? 13)%nat) || ((28 <=? n)%nat && (n <=? 32)%nat).

Fixpoint lstrip (s : string) : string :=
  match s with
  | EmptyString => EmptyString
  | String c r => if is_space c then lstrip r else s
  end.

(** [rstrip] keeps a character when it is not a space or something
    non-blank follows it. *)
Fixpoint rstrip (s : string) : string :=
  match s with
  | EmptyString => EmptyString
  | String c r =>
      match rstrip r with
      | EmptyString => if is_space c then EmptyString else String c EmptyString
      | r' => String c r'
      end
  end.

(** [str.strip()] *)
Definition strip (s : string) : string := rstrip (lstrip s).

(** Equality of two strings up to the case of their ASCII letters, compared
    character by character. *)
Fixpoint caseless_eq (s t : string) : bool :=
  match s, t with
  | EmptyString, EmptyString => true
  | String a s', String b t' =>
      Ascii.eqb (ascii_lower a) (ascii_lower b) && caseless_eq s' t'
  | _, _ => false
  end.

End PyStr.

Example lower_ex : PyStr.lower "Dark_Humor" = "dark_humor".
Proof. reflexivity. Qed.

Example contains_ex : PyStr.contains "dark" "dark_humor" = true.
Proof. reflexivity. Qed.

Example strip_ex : PyStr.strip "  a b  " = "a b".
Proof. reflexivity. Qed.

(** ** database.py *)

(** The two sources of "the date" in the program.  [sql_date] is the date part
    of SQLite's [CURRENT_TIMESTAMP], with which [engagement_log] rows are
    stamped ([timestamp DATETIME DEFAULT CURRENT_TIMESTAMP], read back as
    [DATE(timestamp)]); SQLite evaluates it in UTC.  [today] is Python's
    [date.today().isoformat()], the local date of the host. *)
Record Clock := mkClock {
  sql_date : string;
  today : string
}.

(** A clock on which both sources name the same calendar date. *)
Definition aligned (clk : Clock) : Prop := sql_date clk = today clk.

Inductive ActionType := like | comment | share.

Definition ActionType_eqb (a b : ActionType) : bool :=
  match a, b with
  | like, like | comment, comment | share, share => true
  | _, _ => false
  end.

(** A row of [engagement_log]. *)
Record EngagementRow := mkEngagement {
  e_reel_id : string;
  e_action_type : ActionType;
  e_date : string;                     (* DATE(timestamp) *)
  e_friend_username : option string;
  e_comment_text : option string;
  e_success : bool;
  e_error_message : option string
}.

(** A row of [reels_analyzed], keyed by [reel_id]. *)
Record ReelRow := mkReel {
  r_reel_code : string;
  r_username : string;
  r_caption : string;
  r_humor_score : Q;
  r_humor_category : string;
  r_humor_explanation : string;
  r_transcript : string;
  r_action_taken : string;
  r_thumbnail_url : option string
}.

Record DailyCounts := mkCounts {
  likes : nat;
  comments : nat;
  shares : nat
}.

Module Database.

Record t := mk {
  reels_analyzed : gmap string ReelRow;
  engagement_log : list EngagementRow;
  friend_shares : gmap (string * string) nat
}.

Definition empty : t := mk ∅ [] ∅.

Definition reel_already_analyzed (db : t) (reel_id : string) : bool :=
  match reels_analyzed db !! reel_id with
  | Some _ => true
  | None => false
  end.

(** [INSERT OR REPLACE INTO reels_analyzed] *)
Definition save_reel_analysis (db : t) (reel_id : string) (row : ReelRow) : t :=
  mk (<[reel_id := row]> (reels_analyzed db)) (engagement_log db) (friend_shares db).

(** [INSERT INTO engagement_log]; the row gets the store's timestamp. *)
Definition log_engagement (clk : Clock) (db : t) (reel_id : string)
    (action_type : ActionType) (friend_username comment_text : option string)
    (success : bool) (error_message : option string) : t :=
  mk (reels_analyzed db)
     (engagement_log db ++
        [mkEngagement reel_id action_type (sql_date clk) friend_username
                      comment_text success error_message])
     (friend_shares db).

(** [WHERE action_type = ? AND DATE(timestamp) = ? AND success = 1] *)
Definition counted (a : ActionType) (d : string) (r : EngagementRow) : bool :=
  ActionType_eqb (e_action_type r) a && String.eqb (e_date r) d && e_success r.

Definition count_successes (a : ActionType) (d : string)
    (log : list EngagementRow) : nat :=
  length (List.filter (counted a d) log).

Definition get_daily_engagement_counts (clk : Clock) (db : t) : DailyCounts :=
  mkCounts (count_successes like (today clk) (engagement_log db))
           (count_successes comment (today clk) (engagement_log db))
           (count_successes share (today clk) (engagement_log db)).

Definition get_friend_share_count_today (clk : Clock) (db : t)
    (friend_username : string) : nat :=
  match friend_shares db !! (friend_username, today clk) with
  | Some n => n
  | None => 0
  end.

(** [INSERT ... VALUES (?, ?, 1) ON CONFLICT DO UPDATE SET share_count = share_count + 1] *)
Definition increment_friend_share_count (clk : Clock) (db : t)
    (friend_username : string) : t :=
  mk (reels_analyzed db) (engagement_log db)
     (<[(friend_username, today clk) :=
          match friend_shares db !! (friend_username, today clk) with
          | Some n => S n
          | None => 1
          end]> (friend_shares db)).

(** [DELETE FROM friend_shares WHERE friend_username NOT IN (...)] *)
Definition delete_friend_shares_not_in (db : t) (usernames : list string) : t :=
  mk (reels_analyzed db) (engagement_log db)
     (filter (fun kv : (string * string) * nat => kv.1.1 ∈ usernames)
             (friend_shares db)).

End Database.

(** ** instagram_client.py: the platform as an oracle *)

(** The three action calls of [InstagramClient]. *)
Inductive PlatformCall :=
  | like_media (media_id : string)
  | comment_media (media_id comment_text : string)
  | share_media_to_user (media_id username reel_code : string).

(** A call returns a boolean or raises (e.g. [RateLimitError]) with a text. *)
Inductive CallResult :=
  | Returned (ok : bool)
  | Raised (msg : string).

(** Every external effect of a session, in the order it happens. *)
Inductive Event :=
  | EvPlatform (c : PlatformCall)
  | EvDownload (reel_id : string)
  | EvAnalyze (reel_id : string)
  | EvSave (reel_id : string)
  | EvCooldown (seconds : Z)
  | EvWait.

Definition is_platform (e : Event) : bool :=
  match e with EvPlatform _ => true | _ => false end.

(** The state threaded through the program: the store and the trace. *)
Record World := mkWorld {
  db : Database.t;
  trace : list Event
}.

(** The platform answers a call depending on how much happened before it. *)
Definition Platform := nat -> PlatformCall -> CallResult.

Definition always_ok : Platform := fun _ _ => Returned true.

(** ** engager.py *)

Record Config := mkConfig {
  humor_threshold : Q;
  comment_threshold : Q;
  max_likes_per_day : Z;
  max_comments_per_day : Z;
  max_shares_per_day : Z;
  max_reels_per_session : Z;
  cooldown_after_actions : Z;
  cooldown_duration_seconds : Z
}.

Record FriendProfile := mkFriend {
  username : string;
  interests : list string;
  f_max_shares_per_day : Z
}.

(** [FriendProfile.__init__]: interests are stored lower-cased. *)
Definition FriendProfile_init (u : string) (ints : list string) (m : Z)
  : FriendProfile :=
  mkFriend u (List.map PyStr.lower ints) m.

Definition matches_category (f : FriendProfile) (category : string) : bool :=
  let category_lower := PyStr.lower category in
  existsb (fun interest =>
             PyStr.contains interest category_lower
             || PyStr.contains category_lower interest)
          (interests f).

Module Engager.

Record t := mk {
  instagram : Platform;
  config : Config;
  friends : list FriendProfile;
  dry_run : bool
}.

(** [_sync_friends_to_db], run by the constructor. *)
Definition _sync_friends_to_db (self : t) (d : Database.t) : Database.t :=
  let current_usernames := List.map username (friends self) in
  match current_usernames with
  | [] => d
  | _ :: _ => Database.delete_friend_shares_not_in d current_usernames
  end.

Definition _can_like (self : t) (clk : Clock) (d : Database.t) : bool :=
  (Z.of_nat (likes (Database.get_daily_engagement_counts clk d))
     <? max_likes_per_day (config self))%Z.

Definition _can_comment (self : t) (clk : Clock) (d : Database.t) : bool :=
  (Z.of_nat (comments (Database.get_daily_engagement_counts clk d))
     <? max_comments_per_day (config self))%Z.

Definition _can_share (self : t) (clk : Clock) (d : Database.t) : bool :=
  (Z.of_nat (shares (Database.get_daily_engagement_counts clk d))
     <? max_shares_per_day (config self))%Z.

Definition _can_share_to_friend (clk : Clock) (d : Database.t)
    (friend : FriendProfile) : bool :=
  (Z.of_nat (Database.get_friend_share_count_today clk d (username friend))
     <? f_max_shares_per_day friend)%Z.

Definition _find_matching_friends (self : t) (humor_category : string)
  : list FriendProfile :=
  List.filter (fun f => matches_category f humor_category) (friends self).

(** Calling the platform: the call is recorded, the oracle answers. *)
Definition call (self : t) (c : PlatformCall) (w : World) : CallResult * World :=
  (instagram self (length (trace w)) c,
   mkWorld (db w) (trace w ++ [EvPlatform c])).

Definition log (clk : Clock) (reel_id : string) (a : ActionType)
    (friend_username comment_text : option string) (success : bool)
    (error_message : option string) (w : World) : World :=
  mkWorld (Database.log_engagement clk (db w) reel_id a friend_username
             comment_text success error_message)
          (trace w).

Definition _do_like (self : t) (clk : Clock) (reel_id : string) (w : World)
  : bool * World :=
  if dry_run self then
    (true, log clk reel_id like None None true None w)
  else
    match call self (like_media reel_id) w with
    | (Returned success, w1) =>
        (success, log clk reel_id like None None success None w1)
    | (Raised e, w1) =>
        (false, log clk reel_id like None None false (Some e) w1)
    end.

Definition _do_comment (self : t) (clk : Clock) (reel_id comment_text : string)
    (w : World) : bool * World :=
  if dry_run self then
    (true, log clk reel_id comment None (Some comment_text) true None w)
  else
    match call self (comment_media reel_id comment_text) w with
    | (Returned success, w1) =>
        (success, log clk reel_id comment None (Some comment_text) success None w1)
    | (Raised e, w1) =>
        (false, log clk reel_id comment None (Some comment_text) false (Some e) w1)
    end.

Definition bump (clk : Clock) (friend_username : string) (w : World) : World :=
  mkWorld (Database.increment_friend_share_count clk (db w) friend_username)
          (trace w).

Definition _do_share (self : t) (clk : Clock) (reel_id : string)
    (friend : FriendProfile) (reel_code : string) (w : World) : bool * World :=
  if dry_run self then
    (true,
     bump clk (username friend)
       (log clk reel_id share (Some (username friend)) None true None w))
  else
    match call self (share_media_to_user reel_id (username friend) reel_code) w with
    | (Returned success, w1) =>
        let w2 := log clk reel_id share (Some (username friend)) None success None w1 in
        (success, if success then bump clk (username friend) w2 else w2)
    | (Raised e, w1) =>
        (false, log clk reel_id share (Some (username friend)) None false (Some e) w1)
    end.

(** The like branch of [process_engagement]. *)
Definition like_step (self : t) (clk : Clock) (reel_id : string)
    (humor_score : Q) (w : World) : list string * World :=
  if Qle_bool (humor_threshold (config self)) humor_score then
    if _can_like self clk (db w) then
      let '(success, w1) := _do_like self clk reel_id w in
      (if success then ["like"] else [], w1)
    else ([], w)
  else ([], w).

(** The comment branch. *)
Definition comment_step (self : t) (clk : Clock) (reel_id : string)
    (humor_score : Q) (suggested_comment : string) (w : World)
  : list string * World :=
  if Qle_bool (comment_threshold (config self)) humor_score
     && PyStr.nonempty suggested_comment then
    if _can_comment self clk (db w) then
      let '(success, w1) := _do_comment self clk reel_id suggested_comment w in
      (if success then ["comment"] else [], w1)
    else ([], w)
  else ([], w).

(** The [for friend in matching_friends] loop with its [break]. *)
Fixpoint share_loop (self : t) (clk : Clock) (reel_id reel_code : string)
    (matching_friends : list FriendProfile) (w : World) : list string * World :=
  match matching_friends with
  | [] => ([], w)
  | friend :: rest =>
      if _can_share_to_friend clk (db w) friend then
        let '(success, w1) := _do_share self clk reel_id friend reel_code w in
        if success then (["share:" +:+ username friend], w1)
        else share_loop self clk reel_id reel_code rest w1
      else share_loop self clk reel_id reel_code rest w
  end.

(** The share branch. *)
Definition share_step (self : t) (clk : Clock) (reel_id reel_code : string)
    (humor_category : string) (w : World) : list string * World :=
  if _can_share self clk (db w) then
    share_loop self clk reel_id reel_code
      (_find_matching_friends self humor_category) w
  else ([], w).

Definition process_engagement (self : t) (clk : Clock) (reel_id : string)
    (humor_score : Q) (humor_category suggested_comment reel_code : string)
    (w : World) : list string * World :=
  let '(a1, w1) := like_step self clk reel_id humor_score w in
  let '(a2, w2) := comment_step self clk reel_id humor_score suggested_comment w1 in
  let '(a3, w3) := share_step self clk reel_id reel_code humor_category w2 in
  (a1 ++ a2 ++ a3, w3).

End Engager.

(** ** analyzer.py *)

(** Values that [json.loads] can put into the response object.  The pattern
    the response is searched with admits no nested object. *)
#[local] Set Warnings "-register-all".
Inductive PyVal :=
  | PNone
  | PBool (b : bool)
  | PNum (q : Q)
  | PStr (s : string)
  | PList (items : list PyVal).

(** The library functions [analyze_reel] relies on: [json.loads] on a text
    that starts with an opening brace ([None]: [JSONDecodeError]) and
    [float] on a string ([None]: [ValueError]). *)
Record PyLib := mkLib {
  json_loads : string -> option (gmap string PyVal);
  float_of_str : string -> option Q
}.

(** What the analyzer's collaborators hand back for one reel:
    [extract_frames], [transcribe_audio] (both catch their own errors) and the
    chat completion ([None]: the call raised, or there was no content). *)
Record AnalyzerIO := mkIO {
  io_frames : list string;
  io_transcript : string;
  io_response : option string
}.

(** The analysis as the session uses it, with the types of its declared
    result shape. *)
Record Analysis := mkAnalysis {
  a_humor_score : Q;
  a_humor_category : string;
  a_explanation : string;
  a_suggested_comment : string;
  a_transcript : string
}.

Module Analyzer.

(** The [result] dictionary. *)
Record result := mkResult {
  humor_score : Q;
  humor_category : PyVal;
  explanation : PyVal;
  suggested_comment : PyVal;
  transcript : string
}.

(** How far [analyze_reel] got before it returned. *)
Inductive Outcome :=
  | Analyzed            (* all fields assigned from the response *)
  | NoFrames            (* early return, before transcription *)
  | ApiError            (* the completion call raised *)
  | NoJsonObject        (* the pattern found nothing in the response *)
  | JsonDecodeError     (* json.loads raised *)
  | ScoreError          (* float(...) raised; nothing assigned yet *)
  | CommentError.       (* .upper() on a non-string, after all assignments *)

Definition failed (o : Outcome) : bool :=
  match o with Analyzed => false | _ => true end.

Definition initial_result : result :=
  mkResult 0 (PStr "unknown") (PStr EmptyString) (PStr EmptyString) EmptyString.

Definition with_transcript (r : result) (t : string) : result :=
  mkResult (humor_score r) (humor_category r) (explanation r)
           (suggested_comment r) t.

Definition with_suggested_comment (r : result) (c : PyVal) : result :=
  mkResult (humor_score r) (humor_category r) (explanation r) c (transcript r).

(** The longest prefix free of a closing brace, and what follows it. *)
Fixpoint span_body (s : string) : string * string :=
  match s with
  | EmptyString => (EmptyString, EmptyString)
  | String c r =>
      if Ascii.eqb c "}" then (EmptyString, s)
      else let '(b, tl) := span_body r in (String c b, tl)
  end.

(** [re.search(r'\{[^}]+\}', text, re.DOTALL)]: the leftmost opening brace
    followed by at least one character other than a closing brace and then a
    closing brace; the matched text. *)
Fixpoint re_search (s : string) : option string :=
  match s with
  | EmptyString => None
  | String c r =>
      if Ascii.eqb c "{" then
        match span_body r with
        | (String b0 b, String _ _) => Some (String c (String b0 b +:+ "}"))
        | _ => re_search r
        end
      else re_search r
  end.

(** [dict.get(key, default)] *)
Definition get (d : gmap string PyVal) (key : string) (default : PyVal) : PyVal :=
  match d !! key with
  | Some v => v
  | None => default
  end.

(** [float(v)] for a value of the response object. *)
Definition py_float (lib : PyLib) (v : PyVal) : option Q :=
  match v with
  | PNum q => Some q
  | PBool b => Some (if b then 1%Q else 0%Q)
  | PStr s => float_of_str lib s
  | PNone | PList _ => None
  end.

(** [analyze_reel], with the point it stopped at. *)
Definition analyze_reel_run (lib : PyLib) (io : AnalyzerIO) : result * Outcome :=
  let result := initial_result in
  match io_frames io with
  | [] => (result, NoFrames)
  | _ :: _ =>
      let result := with_transcript result (io_transcript io) in
      match io_response io with
      | None => (result, ApiError)
      | Some content =>
          let response_text := PyStr.strip content in
          match re_search response_text with
          | None => (result, NoJsonObject)
          | Some json_match =>
              match json_loads lib json_match with
              | None => (result, JsonDecodeError)
              | Some parsed =>
                  match py_float lib (get parsed "humor_score" (PNum 0)) with
                  | None => (result, ScoreError)
                  | Some score =>
                      let result :=
                        mkResult score
                          (get parsed "humor_category" (PStr "unknown"))
                          (get parsed "explanation" (PStr EmptyString))
                          (get parsed "suggested_comment" (PStr EmptyString))
                          (transcript result) in
                      match suggested_comment result with
                      | PStr s =>
                          if String.eqb (PyStr.upper s) "SKIP"
                          then (with_suggested_comment result (PStr EmptyString), Analyzed)
                          else (result, Analyzed)
                      | _ => (result, CommentError)
                      end
                  end
              end
          end
      end
  end.

Definition analyze_reel (lib : PyLib) (io : AnalyzerIO) : result :=
  fst (analyze_reel_run lib io).

Definition outcome (lib : PyLib) (io : AnalyzerIO) : Outcome :=
  snd (analyze_reel_run lib io).

(** The result read with its declared field types, when it has them. *)
Definition typed (r : result) : option Analysis :=
  match humor_category r, explanation r, suggested_comment r with
  | PStr c, PStr e, PStr s => Some (mkAnalysis (humor_score r) c e s (transcript r))
  | _, _, _ => None
  end.

End Analyzer.

Example re_search_ex :
  Analyzer.re_search "{} ```json {a: 1} ``` {b}" = Some "{a: 1}".
Proof. reflexivity. Qed.

(** ** main.py: the session loop *)

(** An item of [get_reels_feed], with [str(reel_data["pk"])] as [reel_id]. *)
Record ReelData := mkReelData {
  reel_id : string;
  code : string;
  caption_text : string;
  user_username : string;
  thumbnail_url : option string
}.

(** What the outside world decides during a session, per loop iteration:
    whether a stop was requested (shutdown flag, STOP file or deadline), the
    clock, whether the download succeeds, and the analyzer's result.  The
    result is taken well typed here (a number for the score, text for the
    category and the comment: [Analyzer.typed]), so that nothing raises out
    of the decision pass or the save.  On a result that is not, the source
    has one more way out of the loop, which sessions of this model do not
    take: the exception ends the session after the records written so far
    and before the item is saved. *)
Record Env := mkEnv {
  login_ok : bool;
  stop_requested : nat -> bool;
  clock : nat -> Clock;
  download_ok : nat -> bool;
  analysis : nat -> Analysis
}.

Module Session.

Record state := mkState {
  world : World;
  reels_processed : nat;
  actions_since_cooldown : nat
}.

Definition emit (e : Event) (w : World) : World :=
  mkWorld (db w) (trace w ++ [e]).

Definition save (reel : ReelData) (a : Analysis) (action_taken : string)
    (w : World) : World :=
  emit (EvSave (reel_id reel))
    (mkWorld
       (Database.save_reel_analysis (db w) (reel_id reel)
          (mkReel (code reel) (user_username reel) (caption_text reel)
                  (a_humor_score a) (a_humor_category a) (a_explanation a)
                  (a_transcript a) action_taken (thumbnail_url reel)))
       (trace w)).

(** [",".join(actions) if actions else "none"] *)
Definition action_str (actions : list string) : string :=
  match actions with
  | [] => "none"
  | _ :: _ => String.concat "," actions
  end.

Inductive flow := Break | Next.

(** One iteration of the [for reel_data in ...] loop, on a well-typed
    analysis result (see [Env]). *)
Definition iteration (engager : Engager.t) (env : Env) (analyze_only : bool)
    (i : nat) (reel : ReelData) (s : state) : flow * state :=
  let cfg := Engager.config engager in
  if stop_requested env i then (Break, s)
  else if (max_reels_per_session cfg <=? Z.of_nat (reels_processed s))%Z
  then (Break, s)
  else if Database.reel_already_analyzed (db (world s)) (reel_id reel)
  then (Next, s)
  else
    let w := emit (EvDownload (reel_id reel)) (world s) in
    if negb (download_ok env i)
    then (Next, mkState w (reels_processed s) (actions_since_cooldown s))
    else
      let w := emit (EvAnalyze (reel_id reel)) w in
      let a := analysis env i in
      let '(actions, w) :=
        if analyze_only then ([], w)
        else Engager.process_engagement engager (clock env i) (reel_id reel)
               (a_humor_score a) (a_humor_category a) (a_suggested_comment a)
               (code reel) w in
      let since := actions_since_cooldown s + length actions in
      let w := save reel a (action_str actions) w in
      let processed := S (reels_processed s) in
      let '(w, since) :=
        if (cooldown_after_actions cfg <=? Z.of_nat since)%Z
        then (emit (EvCooldown (cooldown_duration_seconds cfg)) w, 0)
        else (w, since) in
      (Next, mkState (emit EvWait w) processed since).

Fixpoint loop (engager : Engager.t) (env : Env) (analyze_only : bool)
    (i : nat) (feed : list ReelData) (s : state) : state :=
  match feed with
  | [] => s
  | reel :: rest =>
      match iteration engager env analyze_only i reel s with
      | (Break, s') => s'
      | (Next, s') => loop engager env analyze_only (S i) rest s'
      end
  end.

(** [run_session]: build the engager (which syncs the recipient counters),
    log in, then loop over the feed. *)
Definition run_session (platform : Platform) (cfg : Config)
    (friends : list FriendProfile) (env : Env) (dry_run analyze_only : bool)
    (feed : list ReelData) (d : Database.t) : state :=
  let engager := Engager.mk platform cfg friends (dry_run || analyze_only) in
  let s := mkState (mkWorld (Engager._sync_friends_to_db engager d) []) 0 0 in
  if login_ok env then loop engager env analyze_only 0 feed s else s.

End Session.

(** ** Stated properties and concrete inputs *)

(** The rows a store gained since an earlier state of it. *)
Definition appended (d d' : Database.t) : list EngagementRow :=
  drop (length (Database.engagement_log d)) (Database.engagement_log d').

Definition is_share_of (reel_id : string) (r : EngagementRow) : bool :=
  ActionType_eqb (e_action_type r) share && String.eqb (e_reel_id r) reel_id.

(** The share records (success or failure) referencing an item among the
    rows written between two states of the store. *)
Definition share_records (reel_id : string) (d d' : Database.t)
  : list EngagementRow :=
  List.filter (is_share_of reel_id) (appended d d').

(** A session setting used for the concrete runs below. *)
Definition demo_config : Config := mkConfig 7 8 100 20 10 50 10 60.

Definition demo_friends : list FriendProfile :=
  [FriendProfile_init "bob" ["Animals"] 3; FriendProfile_init "amy" ["cute"] 3].

Definition demo_clock : Clock := mkClock "2024-03-01" "2024-03-01".

(** A platform on which every action call returns [False]. *)
Definition never_ok : Platform := fun _ _ => Returned false.

Definition daily_cap (cfg : Config) (a : ActionType) : Z :=
  match a with
  | like => max_likes_per_day cfg
  | comment => max_comments_per_day cfg
  | share => max_shares_per_day cfg
  end.

(** Successful records of each kind stamped with date [dt] stay within the
    configured caps. *)
Definition quota_ceiling (cfg : Config) (dt : string) (d : Database.t) : Prop :=
  forall a,
    (Z.of_nat (Database.count_successes a dt (Database.engagement_log d))
       <= daily_cap cfg a)%Z.

Definition is_analyze (id : string) (e : Event) : bool :=
  match e with EvAnalyze x => String.eqb x id | _ => false end.

Definition is_save (id : string) (e : Event) : bool :=
  match e with EvSave x => String.eqb x id | _ => false end.

(** How often the analyzer was invoked for [id], and how often the analysis
    of [id] was upserted. *)
Definition analyses (id : string) (tr : list Event) : nat :=
  length (List.filter (is_analyze id) tr).

Definition saves (id : string) (tr : list Event) : nat :=
  length (List.filter (is_save id) tr).

Definition not_platform (e : Event) : bool := negb (is_platform e).

(** The platform calls a trace contains. *)
Definition platform_calls (tr : list Event) : list Event :=
  List.filter is_platform tr.

(** A feed and an environment for the concrete runs: two items, then the
    first one again; nothing stops the session, every download works and
    every analysis is a 9 for cute animals with a suggested comment. *)
Definition demo_feed : list ReelData :=
  [mkReelData "r1" "c1" "caption" "creator" None;
   mkReelData "r2" "c2" "caption" "creator" None;
   mkReelData "r1" "c1" "caption" "creator" None].

Definition demo_env : Env :=
  mkEnv true (fun _ => false) (fun _ => demo_clock) (fun _ => true)
        (fun _ => mkAnalysis 9 "cute_animals" "funny" "lol" "hello").

(** Every counter row of a configured recipient is within that recipient's
    cap, on every date. *)
Definition recipient_ceiling (friends : list FriendProfile) (d : Database.t)
  : Prop :=
  forall f dt n,
    In f friends ->
    Database.friend_shares d !! (username f, dt) = Some n ->
    (Z.of_nat n <= f_max_shares_per_day f)%Z.

(** The directory gives one cap per recipient identity. *)
Definition caps_consistent (friends : list FriendProfile) : Prop :=
  forall f g, In f friends -> In g friends -> username f = username g ->
              f_max_shares_per_day f = f_max_shares_per_day g.

(** A directory that lists bob twice, with the caps 1 and 3, and a feed of
    three new items. *)
Definition twice_listed : list FriendProfile :=
  [FriendProfile_init "bob" ["animals"] 1; FriendProfile_init "bob" ["animals"] 3].

Definition three_items : list ReelData :=
  [mkReelData "r1" "c1" "caption" "creator" None;
   mkReelData "r2" "c2" "caption" "creator" None;
   mkReelData "r3" "c3" "caption" "creator" None].

(** What the platform answers when [_do_share] makes its call in the world
    [w]. *)
Definition share_answer (self : Engager.t) (reel_id : string)
    (friend : FriendProfile) (reel_code : string) (w : World) : CallResult :=
  Engager.instagram self (length (trace w))
    (share_media_to_user reel_id (username friend) reel_code).

(** A host west of Greenwich in the evening: the local date is still the
    first of March while SQLite's UTC date is already the second. *)
Definition evening_clock : Clock := mkClock "2024-03-02" "2024-03-01".

(** At most one like per day. *)
Definition one_like_config : Config := mkConfig 7 8 1 20 10 50 10 60.

Definition evening_env : Env :=
  mkEnv true (fun _ => false) (fun _ => evening_clock) (fun _ => true)
        (fun _ => mkAnalysis (15 # 2) "gaming" "funny" EmptyString EmptyString).

(** A store with a counter row of a recipient who is configured no more. *)
Definition stale_store : Database.t :=
  Database.mk ∅ [] {[ ("carol", "2024-02-29") := 2 ]}.

Definition is_cooldown (e : Event) : bool :=
  match e with EvCooldown _ => true | _ => false end.

(** The number of cooldown pauses in a trace. *)
Definition cooldowns (tr : list Event) : nat :=
  length (List.filter is_cooldown tr).

(** The number of successful engagement records in a log. *)
Definition successes (log : list EngagementRow) : nat :=
  length (List.filter e_success log).

(** Every pause in the trace lasts [secs] seconds. *)
Definition pauses_last (secs : Z) (tr : list Event) : Prop :=
  Forall (fun e => match e with EvCooldown x => x = secs | _ => True end) tr.

(** A configuration that pauses after two actions. *)
Definition burst_config : Config := mkConfig 7 8 100 20 10 50 2 60.

(** A double quote, and a text between double quotes. *)
Definition dq : string := String (ascii_of_nat 34) EmptyString.

Definition quoted (s : string) : string := dq +:+ s +:+ dq.

(** A response whose object has [null] as suggested comment. *)
Definition null_comment_response : string :=
  "Sure! {" +:+ quoted "humor_score" +:+ ": 9, "
  +:+ quoted "humor_category" +:+ ": " +:+ quoted "gaming" +:+ ", "
  +:+ quoted "suggested_comment" +:+ ": null}".

(** [json.loads] and [float] as far as the runs below need them: the object
    of [null_comment_response] is decoded, every other text is refused. *)
Definition demo_lib : PyLib :=
  mkLib
    (fun text =>
       if String.eqb text
            ("{" +:+ quoted "humor_score" +:+ ": 9, "
             +:+ quoted "humor_category" +:+ ": " +:+ quoted "gaming" +:+ ", "
             +:+ quoted "suggested_comment" +:+ ": null}")
       then Some (<["humor_score" := PNum 9]>
                    (<["humor_category" := PStr "gaming"]>
                       (<["suggested_comment" := PNone]> ∅)))
       else None)
    (fun _ => None).

(** A response whose object asks to skip the comment, in mixed case, and the
    library functions as far as that response needs them. *)
Definition skip_object : string :=
  "{" +:+ quoted "suggested_comment" +:+ ": " +:+ quoted "Skip" +:+ "}".

Definition skip_lib : PyLib :=
  mkLib
    (fun text =>
       if String.eqb text skip_object
       then Some (<["suggested_comment" := PStr "Skip"]> ∅)
       else None)
    (fun _ => None).

(** ** Counting events of a trace *)

Definition is_wait (e : Event) : bool :=
  match e with EvWait => true | _ => false end.

Definition is_any_analyze (e : Event) : bool :=
  match e with EvAnalyze _ => true | _ => false end.

Definition is_any_save (e : Event) : bool :=
  match e with EvSave _ => true | _ => false end.

Definition is_any_download (e : Event) : bool :=
  match e with EvDownload _ => true | _ => false end.

(** How many events of a trace satisfy [p]. *)
Definition count_events (p : Event -> bool) (tr : list Event) : nat :=
  length (List.filter p tr).

(** ** analyzer.py: the frame positions of [extract_frames] *)

(** No closing brace occurs in the text. *)
Fixpoint brace_free (s : string) : bool :=
  match s with
  | EmptyString => true
  | String c r => negb (Ascii.eqb c "}") && brace_free r
  end.

(** [range(n)] *)
Definition py_range (n : Z) : list Z := List.map Z.of_nat (seq 0 (Z.to_nat n)).

(** Python's [a / b] on integers is the exact quotient rounded to the nearest
    double, ties to even.  For positive [a] and [b] the double is
    [m * 2^e] with [2^52 <= m <= 2^53]: [scaled_quotient a b e] is the
    integer part of [(a / b) / 2^e], [double_exponent] picks the [e] at which
    it has 53 bits, and [double_mantissa] rounds at that [e].  (Below the
    normal range a double has fewer bits; its integer part is 0 either
    way.) *)
Definition scaled_quotient (a b e : Z) : Z :=
  ((a * 2 ^ Z.max 0 (- e)) / (b * 2 ^ Z.max 0 e))%Z.

Definition double_exponent (a b : Z) : Z :=
  let e0 := (Z.log2 a - Z.log2 b - 53)%Z in
  if (scaled_quotient a b e0 <? 2 ^ 53)%Z then e0 else (e0 + 1)%Z.

Definition double_mantissa (a b e : Z) : Z :=
  let n := (a * 2 ^ Z.max 0 (- e))%Z in
  let d := (b * 2 ^ Z.max 0 e)%Z in
  let q := (n / d)%Z in
  let r := (n mod d)%Z in
  if (d <? 2 * r)%Z || ((d =? 2 * r)%Z && Z.odd q) then (q + 1)%Z else q.

(** [int(a / b)] on integers: true division, then truncation towards zero.
    [None] is an exception: [ZeroDivisionError], or [OverflowError] when the
    quotient is too large for a double. *)
Definition int_true_div (a b : Z) : option Z :=
  if (b =? 0)%Z then None
  else if (a =? 0)%Z then Some 0%Z
  else
    let e := double_exponent (Z.abs a) (Z.abs b) in
    let m := double_mantissa (Z.abs a) (Z.abs b) e in
    if (2 ^ 1024 <=? m * 2 ^ Z.max 0 e)%Z then None
    else Some (Z.sgn a * Z.sgn b
               * (m * 2 ^ Z.max 0 e / 2 ^ Z.max 0 (- e)))%Z.

(** The positions [extract_frames] reads frames at: every frame when the
    video has no more than [num_frames], otherwise [num_frames] positions
    spread from the first frame to the last.  [None]: the computation raises,
    which [extract_frames] catches, returning no frames. *)
Definition frame_positions (total_frames num_frames : Z) : option (list Z) :=
  if (num_frames >=? total_frames)%Z then Some (py_range total_frames)
  else mapM (fun i => int_true_div (i * (total_frames - 1)) (num_frames - 1))
            (py_range num_frames).

(** ** engager.py: loading the recipient directory *)

(** One entry of the ["friends"] list of [friends_config.json]; [None] is a
    missing key.  An interest is any JSON value: [.lower()] raises on one
    that is not a string. *)
Record FriendData := mkFriendData {
  fd_username : option string;
  fd_interests : option (list PyVal);
  fd_max_shares_per_day : option Z
}.

(** The file as [_load_friends] finds it: absent; present but unreadable
    (it does not open, does not parse, or is no object); or parsed, with or
    without the ["friends"] key. *)
Inductive FriendsFile :=
  | FileMissing
  | FileUnreadable
  | FileData (friends_key : option (list FriendData)).

Definition as_str (v : PyVal) : option string :=
  match v with PStr s => Some s | _ => None end.

(** The body of the loop for one entry; [None] when it raises ([KeyError] on
    a missing username, [AttributeError] on an interest that is no string). *)
Definition make_friend (e : FriendData) : option FriendProfile :=
  match fd_username e with
  | None => None
  | Some u =>
      match mapM as_str (default [] (fd_interests e)) with
      | None => None
      | Some ints =>
          Some (FriendProfile_init u ints (default 3%Z (fd_max_shares_per_day e)))
      end
  end.

(** The loop appends to [friends] until an entry raises; the [except] clause
    then keeps what was appended. *)
Fixpoint load_entries (entries : list FriendData) : list FriendProfile :=
  match entries with
  | [] => []
  | e :: rest =>
      match make_friend e with
      | Some f => f :: load_entries rest
      | None => []
      end
  end.

Definition _load_friends (file : FriendsFile) : list FriendProfile :=
  match file with
  | FileMissing => []
  | FileUnreadable => []
  | FileData None => []
  | FileData (Some entries) => load_entries entries
  end.

(** ** main.py: start-up *)

(** [bool(v)] *)
Definition truthy (v : PyVal) : bool :=
  match v with
  | PNone => false
  | PBool b => b
  | PNum q => negb (Qeq_bool q 0)
  | PStr s => PyStr.nonempty s
  | PList items => match items with [] => false | _ :: _ => true end
  end.

(** [bool(config.get(k))] *)
Definition config_has (config : gmap string PyVal) (k : string) : bool :=
  match config !! k with
  | Some v => truthy v
  | None => false
  end.

Definition required_keys : list string :=
  ["instagram_username"; "instagram_password"; "openai_api_key"].

Definition validate_config (config : gmap string PyVal) : bool :=
  match List.filter (fun k => negb (config_has config k)) required_keys with
  | [] => true
  | _ :: _ => false
  end.

(** The configuration file as [load_config] finds it: absent, malformed
    ([json.load] raises, or the document is no object), or parsed. *)
Inductive ConfigFile :=
  | ConfigMissing
  | ConfigMalformed
  | ConfigParsed (config : gmap string PyVal).

(** How [main] ends before the session: [sys.exit(1)], an uncaught
    exception of [json.load], or [run_session] with a configuration. *)
Inductive Startup :=
  | Exit1
  | Crash
  | RunSession (config : gmap string PyVal).

(** [main], up to the call of [run_session]; [environ_key] is the value of
    [OPENAI_API_KEY] in the environment, if set. *)
Definition main (file : ConfigFile) (environ_key : option string) : Startup :=
  match file with
  | ConfigMissing => Exit1
  | ConfigMalformed => Crash
  | ConfigParsed config =>
      if negb (validate_config config) then Exit1
      else
        let config :=
          if negb (config_has config "openai_api_key")
          then <["openai_api_key" := PStr (default EmptyString environ_key)]> config
          else config in
        if negb (config_has config "openai_api_key") then Exit1
        else RunSession config
  end.

(** ** instagram_client.py: the feed generator *)

(** An item of a page: its media's [pk] if it has one, or an item whose
    handling raises (it is no object, say). *)
Inductive FeedItem :=
  | ItemMedia (pk : option Z)
  | ItemBad.

(** The answer to one [clips/discover] request: an exception, or a page of
    items with or without a cursor ([max_id]) for the next page. *)
Inductive PageResult :=
  | PageError
  | Page (items : list FeedItem) (has_next : bool).

(** The [for item in items] loop: the pks yielded, the new [count] and
    [seen_pks], and whether an item raised. *)
Fixpoint scan_items (max_reels : Z) (items : list FeedItem) (count : Z)
    (seen_pks : list Z) : list Z * (Z * list Z) * bool :=
  match items with
  | [] => ([], (count, seen_pks), false)
  | item :: rest =>
      if (count >=? max_reels)%Z then ([], (count, seen_pks), false)
      else
        match item with
        | ItemBad => ([], (count, seen_pks), true)
        | ItemMedia (Some pk) =>
            if negb (pk =? 0)%Z && negb (bool_decide (pk ∈ seen_pks)) then
              let '(ys, st, raised) :=
                scan_items max_reels rest (count + 1)%Z (pk :: seen_pks) in
              (pk :: ys, st, raised)
            else scan_items max_reels rest count seen_pks
        | ItemMedia None => scan_items max_reels rest count seen_pks
        end
  end.

(** The [while count < max_reels] loop, for at most [fuel] requests; the
    [n]-th request is answered by [pages n]. *)
Fixpoint feed_loop (max_reels : Z) (pages : nat -> PageResult) (fuel n : nat)
    (count : Z) (seen_pks : list Z) : list Z :=
  match fuel with
  | 0 => []
  | S fuel' =>
      if (count <? max_reels)%Z then
        match pages n with
        | PageError => []
        | Page [] _ => []
        | Page items has_next =>
            let '(ys, (count', seen'), raised) :=
              scan_items max_reels items count seen_pks in
            ys ++ (if raised then []
                   else if has_next
                        then feed_loop max_reels pages fuel' (S n) count' seen'
                        else [])
        end
      else []
  end.

(** The pks of the items [get_reels_feed] yields within [fuel] requests. *)
Definition get_reels_feed (max_reels : Z) (pages : nat -> PageResult)
    (fuel : nat) : list Z :=
  feed_loop max_reels pages fuel 0 0 [].

(** ** dashboard.py: the table formatter *)

(** A row of a table: a dict from column names to values, in insertion
    order, each value already as its [str()]. *)
Definition TableRow := list (string * string).

(** [str(row.get(h, ""))]. *)
Definition row_get (row : TableRow) (h : string) : string :=
  match List.find (fun kv => String.eqb (fst kv) h) row with
  | Some kv => snd kv
  | None => EmptyString
  end.

(** [c * n]. *)
Fixpoint str_repeat (c : ascii) (n : nat) : string :=
  match n with
  | 0 => EmptyString
  | S n' => String c (str_repeat c n')
  end.

(** [s.ljust(w)]. *)
Definition ljust (s : string) (w : nat) : string :=
  s +:+ str_repeat " " (w - String.length s).

(** [sep.join(parts)]. *)
Fixpoint str_join (sep : string) (parts : list string) : string :=
  match parts with
  | [] => EmptyString
  | [p] => p
  | p :: rest => p +:+ sep +:+ str_join sep rest
  end.

(** [widths[h]] once the loop over the rows is done. *)
Definition column_width (data : list TableRow) (h : string) : nat :=
  fold_left (fun w row => Nat.max w (String.length (row_get row h)))
            data (String.length h).

Definition table_line (data : list TableRow) (headers : list string)
    (cell : string -> string) : string :=
  str_join " | " (List.map (fun h => ljust (cell h) (column_width data h)) headers).

(** The [lines] of the fallback formatting. *)
Definition table_lines (data : list TableRow) (headers : list string)
    : list string :=
  let header_line := table_line data headers (fun h => h) in
  header_line :: str_repeat "-" (String.length header_line)
    :: List.map (fun row => table_line data headers (row_get row)) data.

Definition newline : string := String (ascii_of_nat 10) EmptyString.

(** [format_table]; [tabulate] is the library's formatter when it could be
    imported. *)
Definition format_table
    (tabulate : option (list TableRow -> option (list string) -> string))
    (data : list TableRow) (headers : option (list string)) : string :=
  match data with
  | [] => "No data available."
  | first :: _ =>
      match tabulate with
      | Some tab =>
          match headers with
          | Some (h :: hs) => tab data (Some (h :: hs))
          | _ => tab data None
          end
      | None =>
          let headers' :=
            match headers with
            | Some (h :: hs) => h :: hs
            | _ => List.map fst first
            end in
          str_join newline (table_lines data headers')
      end
  end.

(** [str.isascii()]: every character is below 128.  On such text
    [PyStr.lower] and [PyStr.upper] are [str.lower()] and [str.upper()]. *)
Definition isascii (s : string) : bool :=
  forallb (fun c => nat_of_ascii c <? 128) (list_ascii_of_string s).

(** * Properties *)

(** ** Counting rows *)

Section Counting.

Import Database.

Lemma count_successes_app a d l1 l2 :
  count_successes a d (l1 ++ l2) = count_successes a d l1 + count_successes a d l2.
Proof.
  unfold count_successes. now rewrite List.filter_app, length_app.
Qed.

Lemma count_successes_nil a d : count_successes a d [] = 0.
Proof. reflexivity. Qed.

Lemma count_successes_one a d r :
  count_successes a d [r] = if counted a d r then 1 else 0.
Proof. unfold count_successes. simpl. now destruct (counted a d r). Qed.

Lemma count_successes_one_le a d r : count_successes a d [r] <= 1.
Proof. rewrite count_successes_one. destruct (counted a d r); lia. Qed.

Lemma counted_true a d r :
  counted a d r = true <->
  e_action_type r = a /\ e_date r = d /\ e_success r = true.
Proof.
  unfold counted. rewrite !andb_true_iff, String.eqb_eq.
  destruct (e_action_type r), a; simpl; intuition congruence.
Qed.

Lemma counted_other_kind a b d r :
  e_action_type r = b -> a <> b -> counted a d r = false.
Proof.
  intros Hb Hab. destruct (counted a d r) eqn:E; [|reflexivity].
  apply counted_true in E. destruct E as [E _]. congruence.
Qed.

Lemma counted_other_date a d r :
  e_date r <> d -> counted a d r = false.
Proof.
  intros Hd. destruct (counted a d r) eqn:E; [|reflexivity].
  apply counted_true in E. tauto.
Qed.

Lemma counted_failure a d r : e_success r = false -> counted a d r = false.
Proof.
  intros Hs. destruct (counted a d r) eqn:E; [|reflexivity].
  apply counted_true in E. destruct E as (_ & _ & E). congruence.
Qed.

End Counting.

(** ** The effect of one action on the store *)

Section Actions.

Import Database Engager.

Variables (self : Engager.t) (clk : Clock).

(** The row an attempt writes. *)
Definition attempt_row (reel_id : string) (a : ActionType)
    (friend_username comment_text : option string) (success : bool)
    (error_message : option string) : EngagementRow :=
  mkEngagement reel_id a (sql_date clk) friend_username comment_text success
               error_message.

Lemma _do_like_db reel_id w :
  exists err,
    (dry_run self = true -> fst (_do_like self clk reel_id w) = true) /\
    db (snd (_do_like self clk reel_id w)) =
    Database.mk (reels_analyzed (db w))
      (engagement_log (db w) ++
         [attempt_row reel_id like None None (fst (_do_like self clk reel_id w)) err])
      (friend_shares (db w)).
Proof.
  unfold _do_like. destruct (dry_run self).
  - exists None. split; reflexivity.
  - unfold call. destruct (instagram self _ _) as [ok|msg].
    + exists None. split; [discriminate | reflexivity].
    + exists (Some msg). split; [discriminate | reflexivity].
Qed.

Lemma _do_comment_db reel_id text w :
  exists err,
    (dry_run self = true -> fst (_do_comment self clk reel_id text w) = true) /\
    db (snd (_do_comment self clk reel_id text w)) =
    Database.mk (reels_analyzed (db w))
      (engagement_log (db w) ++
         [attempt_row reel_id comment None (Some text)
            (fst (_do_comment self clk reel_id text w)) err])
      (friend_shares (db w)).
Proof.
  unfold _do_comment. destruct (dry_run self).
  - exists None. split; reflexivity.
  - unfold call. destruct (instagram self _ _) as [ok|msg].
    + exists None. split; [discriminate | reflexivity].
    + exists (Some msg). split; [discriminate | reflexivity].
Qed.

(** A share writes one row, and moves the recipient's counter exactly when
    it succeeded. *)
Lemma _do_share_db reel_id friend reel_code w :
  let ok := fst (_do_share self clk reel_id friend reel_code w) in
  exists err,
    (dry_run self = true -> ok = true) /\
    db (snd (_do_share self clk reel_id friend reel_code w)) =
    Database.mk (reels_analyzed (db w))
      (engagement_log (db w) ++
         [attempt_row reel_id share (Some (username friend)) None ok err])
      (if ok
       then friend_shares
              (increment_friend_share_count clk (db w) (username friend))
       else friend_shares (db w)).
Proof.
  unfold _do_share. destruct (dry_run self).
  - exists None. split; reflexivity.
  - unfold call. destruct (instagram self _ _) as [ok|msg].
    + exists None. split; [discriminate | destruct ok; reflexivity].
    + exists (Some msg). split; [discriminate | reflexivity].
Qed.

End Actions.

(** ** The three branches of the decision engine *)

Section Branches.

Import Database Engager.

Variables (self : Engager.t) (clk : Clock).

(** The conditions under which each branch makes an attempt, on a store. *)
Definition like_attempted (humor_score : Q) (d : Database.t) : bool :=
  Qle_bool (humor_threshold (config self)) humor_score && _can_like self clk d.

Definition comment_attempted (humor_score : Q) (suggested_comment : string)
    (d : Database.t) : bool :=
  Qle_bool (comment_threshold (config self)) humor_score
  && PyStr.nonempty suggested_comment
  && _can_comment self clk d.

(** The recipients the share branch is willing to try, in declaration order. *)
Definition share_candidates (humor_category : string) (d : Database.t)
  : list FriendProfile :=
  List.filter (fun f => _can_share_to_friend clk d f)
              (_find_matching_friends self humor_category).

(** Appending rows leaves the other tables alone. *)
Definition add_rows (d : Database.t) (rows : list EngagementRow) : Database.t :=
  Database.mk (reels_analyzed d) (engagement_log d ++ rows) (friend_shares d).

Lemma add_rows_nil d : add_rows d [] = d.
Proof. destruct d. unfold add_rows. simpl. now rewrite app_nil_r. Qed.

Lemma add_rows_app d r1 r2 : add_rows (add_rows d r1) r2 = add_rows d (r1 ++ r2).
Proof. unfold add_rows. simpl. now rewrite <- app_assoc. Qed.

Lemma like_step_spec reel_id humor_score w :
  let res := like_step self clk reel_id humor_score w in
  if like_attempted humor_score (db w) then
    exists (ok : bool) err,
      (dry_run self = true -> ok = true) /\
      fst res = (if ok then ["like"] else [] : list string) /\
      db (snd res) = add_rows (db w) [attempt_row clk reel_id like None None ok err]
  else res = ([], w).
Proof.
  unfold like_attempted, like_step. simpl.
  destruct (Qle_bool _ _); simpl; [|reflexivity].
  destruct (_can_like self clk (db w)); [|reflexivity].
  destruct (_do_like_db self clk reel_id w) as (err & Hdry & Hdb).
  destruct (_do_like self clk reel_id w) as [ok w1]. simpl in *.
  exists ok, err. repeat split; assumption.
Qed.

Lemma comment_step_spec reel_id humor_score text w :
  let res := comment_step self clk reel_id humor_score text w in
  if comment_attempted humor_score text (db w) then
    exists (ok : bool) err,
      (dry_run self = true -> ok = true) /\
      fst res = (if ok then ["comment"] else [] : list string) /\
      db (snd res) =
        add_rows (db w) [attempt_row clk reel_id comment None (Some text) ok err]
  else res = ([], w).
Proof.
  unfold comment_attempted, comment_step. simpl.
  destruct (Qle_bool _ _ && PyStr.nonempty text); simpl; [|reflexivity].
  destruct (_can_comment self clk (db w)); [|reflexivity].
  destruct (_do_comment_db self clk reel_id text w) as (err & Hdry & Hdb).
  destruct (_do_comment self clk reel_id text w) as [ok w1]. simpl in *.
  exists ok, err. repeat split; assumption.
Qed.

(** A failed share attempt towards [f]; only a live run has them. *)
Definition failed_share (reel_id : string) (f : FriendProfile)
    (r : EngagementRow) : Prop :=
  dry_run self = false /\
  exists err, r = attempt_row clk reel_id share (Some (username f)) None false err.

(** What the scan over the candidates can end in: either every candidate was
    tried and failed, or the candidates before some [f] failed and the share
    to [f] succeeded, which ended the scan. *)
Inductive scan_result (reel_id : string) (d : Database.t)
    (cands : list FriendProfile) : list string -> Database.t -> Prop :=
  | scan_exhausted rows :
      Forall2 (failed_share reel_id) cands rows ->
      scan_result reel_id d cands [] (add_rows d rows)
  | scan_shared tried f rest rows err :
      cands = tried ++ f :: rest ->
      Forall2 (failed_share reel_id) tried rows ->
      scan_result reel_id d cands ["share:" +:+ username f]
        (increment_friend_share_count clk
           (add_rows d (rows ++
              [attempt_row clk reel_id share (Some (username f)) None true err]))
           (username f)).

Lemma _can_share_to_friend_ext d d' f :
  friend_shares d = friend_shares d' ->
  _can_share_to_friend clk d f = _can_share_to_friend clk d' f.
Proof.
  intros H. unfold _can_share_to_friend, get_friend_share_count_today.
  now rewrite H.
Qed.

Lemma share_loop_spec reel_id reel_code ms : forall w,
  let res := share_loop self clk reel_id reel_code ms w in
  scan_result reel_id (db w)
    (List.filter (fun f => _can_share_to_friend clk (db w) f) ms)
    (fst res) (db (snd res)).
Proof.
  induction ms as [|f ms IH]; intros w; simpl.
  - rewrite <- (add_rows_nil (db w)) at 2. constructor. constructor.
  - destruct (_can_share_to_friend clk (db w) f) eqn:Hcan; [|apply IH].
    destruct (_do_share_db self clk reel_id f reel_code w) as (err & Hdry & Hdb).
    destruct (_do_share self clk reel_id f reel_code w) as [ok w1].
    simpl in Hdry, Hdb. destruct ok; simpl.
    + rewrite Hdb.
      replace (Database.mk _ _ _) with
        (increment_friend_share_count clk
           (add_rows (db w)
              ([] ++ [attempt_row clk reel_id share (Some (username f)) None true err]))
           (username f)) by reflexivity.
      eapply (scan_shared _ _ _ [] f); [reflexivity | constructor].
    + specialize (IH w1).
      assert (Hlive : dry_run self = false)
        by (destruct (dry_run self); [discriminate (Hdry eq_refl) | reflexivity]).
      assert (Hw1 : db w1 =
        add_rows (db w)
          [attempt_row clk reel_id share (Some (username f)) None false err])
        by (rewrite Hdb; reflexivity).
      assert (Hfs : friend_shares (db w1) = friend_shares (db w))
        by (rewrite Hw1; reflexivity).
      rewrite (List.filter_ext
                 (fun g => _can_share_to_friend clk (db w1) g)
                 (fun g => _can_share_to_friend clk (db w) g)) in IH
        by (intros g; now apply _can_share_to_friend_ext).
      rewrite Hw1 in IH.
      inversion IH as [rows Hrows Hacts Hd | tried g rest rows err' Hc Hrows Hacts Hd].
      * rewrite add_rows_app. constructor. constructor; [|exact Hrows].
        split; [exact Hlive | exists err; reflexivity].
      * rewrite add_rows_app, app_assoc.
        eapply (scan_shared _ _ _ (f :: tried) g rest).
        -- simpl. now rewrite Hc.
        -- constructor; [|exact Hrows].
           split; [exact Hlive | exists err; reflexivity].
Qed.

End Branches.

(** ** One decision pass *)

Section Pass.

Import Database Engager.

Variables (self : Engager.t) (clk : Clock).

Definition like_outcome (reel_id : string) (humor_score : Q) (d : Database.t)
    (acts : list string) (rows : list EngagementRow) : Prop :=
  if like_attempted self clk humor_score d then
    exists (ok : bool) err,
      (dry_run self = true -> ok = true) /\
      acts = (if ok then ["like"] else []) /\
      rows = [attempt_row clk reel_id like None None ok err]
  else acts = [] /\ rows = [].

Definition comment_outcome (reel_id : string) (humor_score : Q) (text : string)
    (d : Database.t) (acts : list string) (rows : list EngagementRow) : Prop :=
  if comment_attempted self clk humor_score text d then
    exists (ok : bool) err,
      (dry_run self = true -> ok = true) /\
      acts = (if ok then ["comment"] else []) /\
      rows = [attempt_row clk reel_id comment None (Some text) ok err]
  else acts = [] /\ rows = [].

Definition share_outcome (reel_id humor_category : string) (d d2 : Database.t)
    (acts : list string) (d3 : Database.t) : Prop :=
  if _can_share self clk d then
    scan_result self clk reel_id d2 (share_candidates self clk humor_category d) acts d3
  else acts = [] /\ d3 = d2.

Lemma _can_comment_add_like d reel_id f c ok err :
  _can_comment self clk (add_rows d [attempt_row clk reel_id like f c ok err])
  = _can_comment self clk d.
Proof.
  unfold _can_comment, get_daily_engagement_counts, add_rows. simpl.
  rewrite count_successes_app, count_successes_one.
  rewrite (counted_other_kind comment like); [|reflexivity|discriminate].
  now rewrite Nat.add_0_r.
Qed.

Lemma _can_share_add_other d rows :
  Forall (fun r => e_action_type r <> share) rows ->
  _can_share self clk (add_rows d rows) = _can_share self clk d.
Proof.
  intros H. unfold _can_share, get_daily_engagement_counts, add_rows. simpl.
  rewrite count_successes_app.
  replace (count_successes share (today clk) rows) with 0;
    [now rewrite Nat.add_0_r|].
  induction H as [|r rows Hr _ IH]; [reflexivity|].
  change (r :: rows) with ([r] ++ rows).
  rewrite count_successes_app, count_successes_one, <- IH.
  now rewrite (counted_other_kind share (e_action_type r)).
Qed.

(** The pass is the three branches in a row; each quota check can be read off
    the store as it was when the pass began. *)
Lemma process_engagement_spec reel_id humor_score humor_category text reel_code w :
  let res := process_engagement self clk reel_id humor_score humor_category
               text reel_code w in
  exists a1 lr a2 cr a3,
    like_outcome reel_id humor_score (db w) a1 lr /\
    comment_outcome reel_id humor_score text (db w) a2 cr /\
    share_outcome reel_id humor_category (db w)
      (add_rows (db w) (lr ++ cr)) a3 (db (snd res)) /\
    fst res = a1 ++ a2 ++ a3.
Proof.
  unfold process_engagement.
  pose proof (like_step_spec self clk reel_id humor_score w) as HL.
  destruct (like_step self clk reel_id humor_score w) as [a1 w1].
  pose proof (comment_step_spec self clk reel_id humor_score text w1) as HC.
  destruct (comment_step self clk reel_id humor_score text w1) as [a2 w2].
  simpl in HL, HC.
  (* the like branch *)
  assert (exists lr, like_outcome reel_id humor_score (db w) a1 lr /\
                     db w1 = add_rows (db w) lr /\
                     Forall (fun r => e_action_type r = like) lr) as (lr & HLo & Hw1 & Hlk).
  { unfold like_outcome. destruct (like_attempted self clk humor_score (db w)).
    - destruct HL as (ok & err & Hdry & Ha & Hd). eexists. split; [eauto|].
      split; [exact Hd|]. repeat constructor.
    - inversion HL; subst. exists []. rewrite add_rows_nil. auto. }
  (* the comment branch *)
  assert (exists cr, comment_outcome reel_id humor_score text (db w) a2 cr /\
                     db w2 = add_rows (db w) (lr ++ cr) /\
                     Forall (fun r => e_action_type r = comment) cr) as (cr & HCo & Hw2 & Hcm).
  { unfold comment_outcome.
    assert (Hsame : comment_attempted self clk humor_score text (db w1)
                    = comment_attempted self clk humor_score text (db w)).
    { unfold comment_attempted. f_equal. rewrite Hw1.
      unfold like_outcome in HLo.
      destruct (like_attempted self clk humor_score (db w)).
      - destruct HLo as (ok & err & _ & _ & ->). apply _can_comment_add_like.
      - destruct HLo as [_ ->]. now rewrite add_rows_nil. }
    rewrite Hsame in HC.
    destruct (comment_attempted self clk humor_score text (db w)).
    - destruct HC as (ok & err & Hdry & Ha & Hd). eexists. split; [eauto|].
      split; [|repeat constructor].
      rewrite Hd, Hw1. apply add_rows_app.
    - inversion HC; subst. exists []. rewrite app_nil_r. auto. }
  (* the share branch *)
  assert (Hcs : _can_share self clk (db w2) = _can_share self clk (db w)).
  { rewrite Hw2. apply _can_share_add_other. apply Forall_app. split.
    - eapply Forall_impl; [exact Hlk|]. simpl. intros r ->. discriminate.
    - eapply Forall_impl; [exact Hcm|]. simpl. intros r ->. discriminate. }
  unfold share_step, share_outcome. rewrite Hcs.
  destruct (_can_share self clk (db w)).
  - pose proof (share_loop_spec self clk reel_id reel_code
                  (_find_matching_friends self humor_category) w2) as HS.
    destruct (share_loop self clk reel_id reel_code _ w2) as [a3 w3].
    simpl in HS |- *.
    exists a1, lr, a2, cr, a3. repeat split; try assumption.
    unfold share_candidates. rewrite <- Hw2.
    rewrite (List.filter_ext
               (fun f => _can_share_to_friend clk (db w) f)
               (fun f => _can_share_to_friend clk (db w2) f))
      by (intros f; apply _can_share_to_friend_ext; now rewrite Hw2).
    exact HS.
  - simpl. exists a1, lr, a2, cr, []. repeat split; assumption.
Qed.

End Pass.

(** ** Rows written by the share scan *)

Section Scan.

Import Database Engager.

Variables (self : Engager.t) (clk : Clock).

(** A share row of this pass for the item. *)
Definition share_row_of (reel_id : string) (r : EngagementRow) : Prop :=
  e_reel_id r = reel_id /\ e_action_type r = share /\ e_date r = sql_date clk.

Lemma failed_share_rows reel_id fs rows :
  Forall2 (failed_share self clk reel_id) fs rows ->
  Forall (fun r => share_row_of reel_id r /\ e_success r = false) rows /\
  List.map e_friend_username rows = List.map (fun f => Some (username f)) fs /\
  (dry_run self = true -> fs = [] /\ rows = []).
Proof.
  induction 1 as [|f r fs rows [Hlive [err ->]] _ (IH1 & IH2 & _)].
  - repeat split; constructor.
  - repeat split; try congruence.
    + constructor; [|exact IH1]. repeat split.
    + simpl. now rewrite IH2.
Qed.

Lemma failures_not_counted a d rows :
  Forall (fun r => e_success r = false) rows -> count_successes a d rows = 0.
Proof.
  induction 1 as [|r rows Hr _ IH]; [reflexivity|].
  change (r :: rows) with ([r] ++ rows).
  now rewrite count_successes_app, count_successes_one, counted_failure, IH.
Qed.

(** The rows a scan leaves behind: failures, then at most one success, which
    is the last row.  [tried] are the recipients attempted, in order; the
    recipient's counter moves exactly when the scan ended in a success. *)
Definition scan_summary (reel_id : string) (d : Database.t)
    (cands : list FriendProfile) (acts : list string)
    (sr : list EngagementRow) (shares' : gmap (string * string) nat) : Prop :=
  exists tried rest,
    cands = tried ++ rest /\
    Forall (share_row_of reel_id) sr /\
    List.map e_friend_username sr = List.map (fun f => Some (username f)) tried /\
    (forall i r, sr !! i = Some r -> e_success r = true -> length sr = S i) /\
    (dry_run self = true ->
       length sr <= 1 /\ Forall (fun r => e_success r = true) sr) /\
    ((acts = [] /\ rest = [] /\ Forall (fun r => e_success r = false) sr /\
      shares' = friend_shares d)
     \/
     (exists f, last tried = Some f /\ acts = ["share:" +:+ username f] /\
        (exists r, last sr = Some r /\ e_success r = true) /\
        shares' =
          friend_shares (increment_friend_share_count clk d (username f)))).

Lemma scan_result_rows reel_id d cands acts d' :
  scan_result self clk reel_id d cands acts d' ->
  exists sr,
    engagement_log d' = engagement_log d ++ sr /\
    reels_analyzed d' = reels_analyzed d /\
    scan_summary reel_id d cands acts sr (friend_shares d').
Proof.
  intros [rows Hrows | tried f rest rows err Hc Hrows].
  - destruct (failed_share_rows _ _ _ Hrows) as (Hall & Hnames & Hdry).
    assert (Hfail : Forall (fun r => e_success r = false) rows)
      by (eapply Forall_impl; [exact Hall|]; simpl; tauto).
    exists rows. split; [reflexivity|]. split; [reflexivity|].
    exists cands, []. rewrite app_nil_r.
    split; [reflexivity|].
    split; [eapply Forall_impl; [exact Hall|]; simpl; tauto|].
    split; [exact Hnames|].
    split; [|split].
    + intros i r Hi Hs. rewrite Forall_lookup in Hfail.
      specialize (Hfail i r Hi). simpl in Hfail. congruence.
    + intros Hd. destruct (Hdry Hd) as [_ ->]. simpl. split; [lia | constructor].
    + left. repeat split; assumption.
  - destruct (failed_share_rows _ _ _ Hrows) as (Hall & Hnames & Hdry).
    exists (rows ++ [attempt_row clk reel_id share (Some (username f)) None true err]).
    split; [reflexivity|]. split; [reflexivity|].
    exists (tried ++ [f]), rest.
    split; [now rewrite <- app_assoc|].
    split; [|split; [|split; [|split]]].
    + apply Forall_app. split.
      * eapply Forall_impl; [exact Hall|]. simpl. tauto.
      * repeat constructor.
    + rewrite !List.map_app, Hnames. reflexivity.
    + intros i r Hi Hs. rewrite length_app. simpl.
      destruct (decide (i < length rows)) as [Hlt|Hge].
      * rewrite lookup_app_l in Hi by exact Hlt.
        rewrite Forall_lookup in Hall. destruct (Hall i r Hi) as [_ Hf].
        congruence.
      * apply lookup_lt_Some in Hi. rewrite length_app in Hi. simpl in Hi. lia.
    + intros Hd. destruct (Hdry Hd) as [_ ->]. simpl.
      split; [lia | repeat constructor].
    + right. exists f. repeat split.
      * apply last_snoc.
      * eexists. split; [apply last_snoc | reflexivity].
Qed.

End Scan.

(** ** The rows of a whole pass *)

Section PassRows.

Import Database Engager.

Variables (self : Engager.t) (clk : Clock).

(** The share part of a pass: nothing when the global cap is reached,
    otherwise a scan over the candidates. *)
Definition share_summary (reel_id humor_category : string) (d : Database.t)
    (acts : list string) (sr : list EngagementRow)
    (shares' : gmap (string * string) nat) : Prop :=
  if _can_share self clk d then
    scan_summary self clk reel_id d (share_candidates self clk humor_category d)
      acts sr shares'
  else acts = [] /\ sr = [] /\ shares' = friend_shares d.

(** Everything a pass does to the store. *)
Lemma pass_rows reel_id humor_score humor_category text reel_code w :
  let res := process_engagement self clk reel_id humor_score humor_category
               text reel_code w in
  exists a1 lr a2 cr a3 sr,
    like_outcome self clk reel_id humor_score (db w) a1 lr /\
    comment_outcome self clk reel_id humor_score text (db w) a2 cr /\
    share_summary reel_id humor_category (db w) a3 sr
      (friend_shares (db (snd res))) /\
    fst res = a1 ++ a2 ++ a3 /\
    engagement_log (db (snd res)) = engagement_log (db w) ++ lr ++ cr ++ sr /\
    reels_analyzed (db (snd res)) = reels_analyzed (db w).
Proof.
  intros res.
  destruct (process_engagement_spec self clk reel_id humor_score humor_category
              text reel_code w) as (a1 & lr & a2 & cr & a3 & HL & HC & HS & Hacts).
  fold res in HS, Hacts. unfold share_outcome in HS. unfold share_summary.
  destruct (_can_share self clk (db w)).
  - destruct (scan_result_rows self clk _ _ _ _ _ HS) as (sr & Hlog & Hreels & Hsum).
    exists a1, lr, a2, cr, a3, sr. repeat split; try assumption.
    rewrite Hlog. simpl. now rewrite <- !app_assoc.
  - destruct HS as [-> ->].
    exists a1, lr, a2, cr, [], []. simpl. rewrite !app_nil_r in *.
    repeat split; assumption.
Qed.

End PassRows.

(** ** The decision engine: gates and order of the attempts *)

Section Decision.

Import Database Engager.

Variables (self : Engager.t) (clk : Clock).

(** The like gate, in the words of the specification: the score reaches the
    like threshold and today's count of likes is below the daily cap. *)
Definition like_condition (humor_score : Q) (d : Database.t) : Prop :=
  (humor_threshold (config self) <= humor_score)%Q /\
  (Z.of_nat (likes (get_daily_engagement_counts clk d))
     < max_likes_per_day (config self))%Z.

(** The comment gate: score, a non-empty suggested text, and the daily cap. *)
Definition comment_condition (humor_score : Q) (text : string)
    (d : Database.t) : Prop :=
  (comment_threshold (config self) <= humor_score)%Q /\
  text <> EmptyString /\
  (Z.of_nat (comments (get_daily_engagement_counts clk d))
     < max_comments_per_day (config self))%Z.

Lemma nonempty_true s : PyStr.nonempty s = true <-> s <> EmptyString.
Proof. destruct s; simpl; split; congruence. Qed.

Lemma like_attempted_iff humor_score d :
  like_attempted self clk humor_score d = true <-> like_condition humor_score d.
Proof.
  unfold like_attempted, like_condition, _can_like.
  now rewrite andb_true_iff, Qle_bool_iff, Z.ltb_lt.
Qed.

Lemma comment_attempted_iff humor_score text d :
  comment_attempted self clk humor_score text d = true
  <-> comment_condition humor_score text d.
Proof.
  unfold comment_attempted, comment_condition, _can_comment.
  rewrite !andb_true_iff, Qle_bool_iff, Z.ltb_lt, nonempty_true. tauto.
Qed.

Lemma like_outcome_rows reel_id humor_score d acts lr :
  like_outcome self clk reel_id humor_score d acts lr ->
  Forall (fun r => e_action_type r = like) lr /\ length acts <= length lr /\
  (like_condition humor_score d ->
     exists ok err, lr = [attempt_row clk reel_id like None None ok err]) /\
  (~ like_condition humor_score d -> lr = []).
Proof.
  unfold like_outcome. rewrite <- like_attempted_iff.
  destruct (like_attempted self clk humor_score d).
  - intros (ok & err & _ & -> & ->). repeat split.
    + repeat constructor.
    + destruct ok; simpl; lia.
    + eauto.
    + intros H. now destruct H.
  - intros [-> ->]. repeat split; try constructor; congruence.
Qed.

Lemma comment_outcome_rows reel_id humor_score text d acts cr :
  comment_outcome self clk reel_id humor_score text d acts cr ->
  Forall (fun r => e_action_type r = comment) cr /\ length acts <= length cr /\
  (comment_condition humor_score text d ->
     exists ok err, cr = [attempt_row clk reel_id comment None (Some text) ok err]) /\
  (~ comment_condition humor_score text d -> cr = []).
Proof.
  unfold comment_outcome. rewrite <- comment_attempted_iff.
  destruct (comment_attempted self clk humor_score text d).
  - intros (ok & err & _ & -> & ->). repeat split.
    + repeat constructor.
    + destruct ok; simpl; lia.
    + eauto.
    + intros H. now destruct H.
  - intros [-> ->]. repeat split; try constructor; congruence.
Qed.

Lemma share_summary_rows reel_id humor_category d acts sr shares' :
  share_summary self clk reel_id humor_category d acts sr shares' ->
  Forall (share_row_of clk reel_id) sr.
Proof.
  unfold share_summary. destruct (_can_share self clk d).
  - intros (tried & rest & _ & H & _). exact H.
  - intros (_ & -> & _). constructor.
Qed.

(** C5.  The rows a pass appends are the like attempt, then the comment
    attempt, then the share attempts.  The like row is there exactly when the
    score reaches the like threshold and the like cap allows; the comment
    row, carrying the suggested text, exactly when the score reaches the
    comment threshold, the text is non-empty and the comment cap allows.
    This holds whatever the platform answers, and the comment gate does not
    mention the like gate. *)
Theorem decision_gates_and_order
    reel_id humor_score humor_category text reel_code w :
  let w' := snd (process_engagement self clk reel_id humor_score
                   humor_category text reel_code w) in
  exists lr cr sr,
    engagement_log (db w') = engagement_log (db w) ++ lr ++ cr ++ sr /\
    (like_condition humor_score (db w) ->
       exists ok err, lr = [attempt_row clk reel_id like None None ok err]) /\
    (~ like_condition humor_score (db w) -> lr = []) /\
    (comment_condition humor_score text (db w) ->
       exists ok err,
         cr = [attempt_row clk reel_id comment None (Some text) ok err]) /\
    (~ comment_condition humor_score text (db w) -> cr = []) /\
    Forall (fun r => e_action_type r = share) sr.
Proof.
  intros w'.
  destruct (pass_rows self clk reel_id humor_score humor_category text
              reel_code w) as (a1 & lr & a2 & cr & a3 & sr & HL & HC & HS & _ & Hlog & _).
  apply like_outcome_rows in HL. destruct HL as (_ & _ & HL1 & HL2).
  apply comment_outcome_rows in HC. destruct HC as (_ & _ & HC1 & HC2).
  apply share_summary_rows in HS.
  exists lr, cr, sr. repeat split; try assumption.
  eapply Forall_impl; [exact HS|]. unfold share_row_of. simpl. tauto.
Qed.

End Decision.

(** ** Share records per item and pass *)

Section ShareRecords.

Import Database Engager.

Lemma filter_none {A} (p : A -> bool) l :
  Forall (fun x => p x = false) l -> List.filter p l = [].
Proof.
  induction 1 as [|x l Hx _ IH]; [reflexivity|]. simpl. now rewrite Hx.
Qed.

Lemma filter_all {A} (p : A -> bool) l :
  Forall (fun x => p x = true) l -> List.filter p l = l.
Proof.
  induction 1 as [|x l Hx _ IH]; [reflexivity|]. simpl. now rewrite Hx, IH.
Qed.

Lemma share_records_split reel_id d d' lr cr sr clk :
  engagement_log d' = engagement_log d ++ lr ++ cr ++ sr ->
  Forall (fun r => e_action_type r = like) lr ->
  Forall (fun r => e_action_type r = comment) cr ->
  Forall (share_row_of clk reel_id) sr ->
  share_records reel_id d d' = sr.
Proof.
  intros Hlog Hl Hc Hs. unfold share_records, appended.
  rewrite Hlog, drop_app_length, !List.filter_app.
  rewrite (filter_none _ lr), (filter_none _ cr), (filter_all _ sr); [reflexivity| | |].
  - eapply Forall_impl; [exact Hs|]. intros r (Hid & Hk & _).
    unfold is_share_of. rewrite Hk, Hid. simpl. apply String.eqb_refl.
  - eapply Forall_impl; [exact Hc|]. intros r Hk.
    unfold is_share_of. now rewrite Hk.
  - eapply Forall_impl; [exact Hl|]. intros r Hk.
    unfold is_share_of. now rewrite Hk.
Qed.

Lemma success_last_at_most_one (rows : list EngagementRow) :
  (forall i r, rows !! i = Some r -> e_success r = true -> length rows = S i) ->
  length (List.filter e_success rows) <= 1.
Proof.
  induction rows as [|r rows IH]; intros H; simpl; [lia|].
  destruct (e_success r) eqn:Hr.
  - specialize (H 0 r eq_refl Hr). simpl in H.
    destruct rows; [simpl; lia | discriminate].
  - apply IH. intros i r' Hi Hs. specialize (H (S i) r' Hi Hs). simpl in H. lia.
Qed.

(** The property as the specification words it, tested on a live run in
    which the platform refuses every share: both matching recipients are
    tried, so the pass writes two share records for the item. *)
Lemma two_share_records_in_one_pass :
  ~ length
      (share_records "r1" Database.empty
         (db (snd (process_engagement
                     (Engager.mk never_ok demo_config demo_friends false)
                     demo_clock "r1" 9 "cute_animals" "lol" "c1"
                     (mkWorld Database.empty [])))))
    <= 1.
Proof. vm_compute. lia. Qed.

(** C1, amended.  Among the share records a pass writes for an item at most
    one is a success, and a success is the last of them.  The recipients of
    the records are, in declaration order, an initial stretch of those whose
    interests match the category and whose personal cap allows; when the
    global cap allows and no attempt succeeded, every such recipient was
    tried.  Nothing is written when the global share cap is reached, and a
    dry run writes at most one share record. *)
Theorem one_successful_share_per_pass
    self clk reel_id humor_score humor_category text reel_code w :
  let w' := snd (process_engagement self clk reel_id humor_score
                   humor_category text reel_code w) in
  let rows := share_records reel_id (db w) (db w') in
  length (List.filter e_success rows) <= 1 /\
  (forall i r, rows !! i = Some r -> e_success r = true -> length rows = S i) /\
  (exists tried rest,
     share_candidates self clk humor_category (db w) = tried ++ rest /\
     List.map e_friend_username rows
       = List.map (fun f => Some (username f)) tried /\
     (_can_share self clk (db w) = true ->
      Forall (fun r => e_success r = false) rows -> rest = [])) /\
  (_can_share self clk (db w) = false -> rows = []) /\
  (dry_run self = true -> length rows <= 1).
Proof.
  intros w' rows.
  destruct (pass_rows self clk reel_id humor_score humor_category text
              reel_code w) as (a1 & lr & a2 & cr & a3 & sr & HL & HC & HS & _ & Hlog & _).
  apply like_outcome_rows in HL. destruct HL as (HLk & _).
  apply comment_outcome_rows in HC. destruct HC as (HCk & _).
  assert (Hrows : rows = sr).
  { unfold rows. eapply share_records_split; eauto.
    eapply share_summary_rows; eauto. }
  rewrite Hrows. clear Hrows rows.
  unfold share_summary in HS.
  destruct (_can_share self clk (db w)).
  - destruct HS as (tried & rest & Hc & Hall & Hnames & Hlast & Hdry & Hend).
    split; [now apply success_last_at_most_one|].
    split; [exact Hlast|].
    split; [|split; [discriminate | intros Hd; now apply Hdry]].
    exists tried, rest. repeat split; try assumption.
    intros _ Hfail.
    destruct Hend as [(_ & -> & _) | (f & _ & _ & (r & Hr & Hs) & _)];
      [reflexivity|].
    apply last_Some in Hr. destruct Hr as [pre ->].
    apply Forall_app in Hfail. destruct Hfail as [_ Hfail].
    inversion Hfail; subst. congruence.
  - destruct HS as (_ & -> & _). simpl.
    split; [lia|]. split; [intros i r Hi; discriminate|].
    split; [|split; [reflexivity | lia]].
    exists [], (share_candidates self clk humor_category (db w)).
    repeat split. discriminate.
Qed.

End ShareRecords.

(** ** The daily quota *)

Section Quota.

Import Database Engager.

Variables (self : Engager.t) (clk : Clock).

(** The quota check of a kind, as the engine evaluates it. *)
Definition can_perform (a : ActionType) (d : Database.t) : bool :=
  match a with
  | like => _can_like self clk d
  | comment => _can_comment self clk d
  | share => _can_share self clk d
  end.

Lemma can_perform_lt a d :
  can_perform a d = true ->
  (Z.of_nat (count_successes a (today clk) (engagement_log d))
     < daily_cap (config self) a)%Z.
Proof.
  destruct a; simpl; unfold _can_like, _can_comment, _can_share; simpl;
    now rewrite Z.ltb_lt.
Qed.

Lemma count_le_successes a dt rows :
  count_successes a dt rows <= length (List.filter e_success rows).
Proof.
  unfold count_successes. induction rows as [|r rows IH]; simpl; [lia|].
  destruct (counted a dt r) eqn:Hc.
  - apply counted_true in Hc. destruct Hc as (_ & _ & ->). simpl. lia.
  - destruct (e_success r); simpl; lia.
Qed.

Lemma count_other_date a dt rows :
  Forall (fun r => e_date r = sql_date clk) rows -> dt <> sql_date clk ->
  count_successes a dt rows = 0.
Proof.
  intros H Hd. induction H as [|r rows Hr _ IH]; [reflexivity|].
  change (r :: rows) with ([r] ++ rows).
  rewrite count_successes_app, count_successes_one, IH.
  rewrite counted_other_date; [reflexivity | congruence].
Qed.

Lemma count_other_kind a b dt rows :
  Forall (fun r => e_action_type r = b) rows -> a <> b ->
  count_successes a dt rows = 0.
Proof.
  intros H Hd. induction H as [|r rows Hr _ IH]; [reflexivity|].
  change (r :: rows) with ([r] ++ rows).
  rewrite count_successes_app, count_successes_one, IH.
  now rewrite (counted_other_kind a b).
Qed.

(** Rows of this pass with at most one success among them move a count by
    at most one, and only the count of the date they are stamped with. *)
Lemma count_stamped a dt rows :
  Forall (fun r => e_date r = sql_date clk) rows ->
  length (List.filter e_success rows) <= 1 ->
  count_successes a dt rows = 0 \/
  (count_successes a dt rows = 1 /\ dt = sql_date clk).
Proof.
  intros Hd H1. destruct (decide (dt = sql_date clk)) as [->|Hne].
  - pose proof (count_le_successes a (sql_date clk) rows) as Hle.
    destruct (count_successes a (sql_date clk) rows) as [|[|k]];
      [now left | now right | lia].
  - left. now apply count_other_date.
Qed.

(** What a pass does to the count of one kind on one date: it leaves it, or
    raises it by one; the latter only on the date the store stamps rows with
    and only after the engine's check for that kind passed. *)
Lemma pass_count_step a dt reel_id humor_score humor_category text reel_code w :
  let w' := snd (process_engagement self clk reel_id humor_score
                   humor_category text reel_code w) in
  let n := count_successes a dt (engagement_log (db w)) in
  let n' := count_successes a dt (engagement_log (db w')) in
  n' = n \/ (n' = S n /\ dt = sql_date clk /\ can_perform a (db w) = true).
Proof.
  intros w' n n'.
  destruct (pass_rows self clk reel_id humor_score humor_category text
              reel_code w) as (a1 & lr & a2 & cr & a3 & sr & HL & HC & HS & _ & Hlog & _).
  unfold n', w'. rewrite Hlog, !count_successes_app. fold n.
  pose proof (like_outcome_rows self clk _ _ _ _ _ HL) as (HLk & _).
  pose proof (comment_outcome_rows self clk _ _ _ _ _ _ HC) as (HCk & _).
  pose proof (share_summary_rows self clk _ _ _ _ _ _ HS) as HSk.
  assert (HSk' : Forall (fun r => e_action_type r = share) sr).
  { eapply Forall_impl; [exact HSk|]. unfold share_row_of. simpl. tauto. }
  destruct a.
  - rewrite (count_other_kind like comment dt cr), (count_other_kind like share dt sr)
      by (assumption || discriminate).
    unfold like_outcome, like_attempted in HL. simpl.
    destruct (_can_like self clk (db w)).
    + destruct (Qle_bool _ _); simpl in HL.
      * destruct HL as (ok & err & _ & _ & ->).
        destruct (count_stamped like dt
                    [attempt_row clk reel_id like None None ok err]) as [->| [-> ->]].
        -- repeat constructor.
        -- simpl. destruct ok; simpl; lia.
        -- left. lia.
        -- right. repeat split. lia.
      * destruct HL as [_ ->]. left. rewrite count_successes_nil. lia.
    + rewrite andb_false_r in HL. destruct HL as [_ ->].
      left. rewrite count_successes_nil. lia.
  - rewrite (count_other_kind comment like dt lr), (count_other_kind comment share dt sr)
      by (assumption || discriminate).
    unfold comment_outcome, comment_attempted in HC. simpl.
    destruct (_can_comment self clk (db w)).
    + destruct (Qle_bool _ _ && PyStr.nonempty text); simpl in HC.
      * destruct HC as (ok & err & _ & _ & ->).
        destruct (count_stamped comment dt
                    [attempt_row clk reel_id comment None (Some text) ok err])
          as [->| [-> ->]].
        -- repeat constructor.
        -- simpl. destruct ok; simpl; lia.
        -- left. lia.
        -- right. repeat split. lia.
      * destruct HC as [_ ->]. left. rewrite count_successes_nil. lia.
    + rewrite andb_false_r in HC. destruct HC as [_ ->].
      left. rewrite count_successes_nil. lia.
  - rewrite (count_other_kind share like dt lr), (count_other_kind share comment dt cr)
      by (assumption || discriminate).
    unfold share_summary in HS. simpl.
    destruct (_can_share self clk (db w)).
    + destruct HS as (tried & rest & _ & _ & _ & Hlast & _).
      destruct (count_stamped share dt sr) as [->| [-> ->]].
      * eapply Forall_impl; [exact HSk|]. unfold share_row_of. simpl. tauto.
      * now apply success_last_at_most_one.
      * left. lia.
      * right. repeat split. lia.
    + destruct HS as (_ & -> & _). left. rewrite count_successes_nil. lia.
Qed.

(** On a clock whose two dates agree the ceiling survives every pass. *)
Lemma quota_ceiling_pass reel_id humor_score humor_category text reel_code w :
  aligned clk ->
  quota_ceiling (config self) (today clk) (db w) ->
  quota_ceiling (config self) (today clk)
    (db (snd (process_engagement self clk reel_id humor_score humor_category
                text reel_code w))).
Proof.
  intros Hal Hq a. specialize (Hq a).
  destruct (pass_count_step a (today clk) reel_id humor_score humor_category
              text reel_code w) as [-> | (-> & _ & Hcan)]; [exact Hq|].
  apply can_perform_lt in Hcan. lia.
Qed.

(** Counts of every other date are left alone. *)
Lemma quota_other_dates a dt reel_id humor_score humor_category text reel_code w :
  dt <> sql_date clk ->
  count_successes a dt
    (engagement_log (db (snd (process_engagement self clk reel_id humor_score
                                humor_category text reel_code w))))
  = count_successes a dt (engagement_log (db w)).
Proof.
  intros Hne.
  destruct (pass_count_step a dt reel_id humor_score humor_category
              text reel_code w) as [-> | (_ & -> & _)]; [reflexivity|].
  now destruct Hne.
Qed.

End Quota.

(** ** Platform calls of a pass *)

Section PassTrace.

Import Database Engager.

Variables (self : Engager.t) (clk : Clock).

(** [evs] are platform calls only, and none at all in a dry run. *)
Definition calls_only (evs : list Event) : Prop :=
  Forall (fun e => is_platform e = true) evs /\
  (dry_run self = true -> evs = []).

Lemma calls_only_nil : calls_only [].
Proof. split; [constructor | reflexivity]. Qed.

Lemma calls_only_app e1 e2 : calls_only e1 -> calls_only e2 -> calls_only (e1 ++ e2).
Proof.
  intros [H1 D1] [H2 D2]. split.
  - apply Forall_app. now split.
  - intros Hd. now rewrite D1, D2.
Qed.

Definition extends (w w' : World) : Prop :=
  exists evs, trace w' = trace w ++ evs /\ calls_only evs.

Lemma extends_refl w : extends w w.
Proof. exists []. split; [now rewrite app_nil_r | apply calls_only_nil]. Qed.

Lemma extends_same w w' : trace w' = trace w -> extends w w'.
Proof.
  intros H. exists []. split; [now rewrite app_nil_r | apply calls_only_nil].
Qed.

Lemma extends_trans w1 w2 w3 : extends w1 w2 -> extends w2 w3 -> extends w1 w3.
Proof.
  intros (e1 & H1 & C1) (e2 & H2 & C2). exists (e1 ++ e2). split.
  - now rewrite H2, H1, app_assoc.
  - now apply calls_only_app.
Qed.

Lemma call_extends c w :
  dry_run self = false -> extends w (snd (call self c w)).
Proof.
  intros Hlive. exists [EvPlatform c]. split; [reflexivity|]. split.
  - repeat constructor.
  - congruence.
Qed.

Lemma _do_like_extends reel_id w : extends w (snd (_do_like self clk reel_id w)).
Proof.
  unfold _do_like. destruct (dry_run self) eqn:Hd; [now apply extends_same|].
  pose proof (call_extends (like_media reel_id) w Hd) as H.
  destruct (call self (like_media reel_id) w) as [[ok|msg] w1]; exact H.
Qed.

Lemma _do_comment_extends reel_id text w :
  extends w (snd (_do_comment self clk reel_id text w)).
Proof.
  unfold _do_comment. destruct (dry_run self) eqn:Hd; [now apply extends_same|].
  pose proof (call_extends (comment_media reel_id text) w Hd) as H.
  destruct (call self (comment_media reel_id text) w) as [[ok|msg] w1]; exact H.
Qed.

Lemma _do_share_extends reel_id friend reel_code w :
  extends w (snd (_do_share self clk reel_id friend reel_code w)).
Proof.
  unfold _do_share. destruct (dry_run self) eqn:Hd; [now apply extends_same|].
  pose proof (call_extends
                (share_media_to_user reel_id (username friend) reel_code) w Hd) as H.
  destruct (call self _ w) as [[[|]|msg] w1]; exact H.
Qed.

Lemma share_loop_extends reel_id reel_code ms : forall w,
  extends w (snd (share_loop self clk reel_id reel_code ms w)).
Proof.
  induction ms as [|f ms IH]; intros w; simpl; [apply extends_refl|].
  destruct (_can_share_to_friend clk (db w) f); [|apply IH].
  pose proof (_do_share_extends reel_id f reel_code w) as H.
  destruct (_do_share self clk reel_id f reel_code w) as [[|] w1]; simpl in *.
  - exact H.
  - eapply extends_trans; [exact H | apply IH].
Qed.

(** A pass adds platform calls to the trace and nothing else. *)
Lemma pass_extends reel_id humor_score humor_category text reel_code w :
  extends w (snd (process_engagement self clk reel_id humor_score
                    humor_category text reel_code w)).
Proof.
  unfold process_engagement.
  assert (H1 : extends w (snd (like_step self clk reel_id humor_score w))).
  { unfold like_step. destruct (Qle_bool _ _); [|apply extends_refl].
    destruct (_can_like self clk (db w)); [|apply extends_refl].
    pose proof (_do_like_extends reel_id w) as H.
    now destruct (_do_like self clk reel_id w). }
  destruct (like_step self clk reel_id humor_score w) as [a1 w1].
  assert (H2 : extends w1 (snd (comment_step self clk reel_id humor_score text w1))).
  { unfold comment_step. destruct (_ && _); [|apply extends_refl].
    destruct (_can_comment self clk (db w1)); [|apply extends_refl].
    pose proof (_do_comment_extends reel_id text w1) as H.
    now destruct (_do_comment self clk reel_id text w1). }
  destruct (comment_step self clk reel_id humor_score text w1) as [a2 w2].
  assert (H3 : extends w2 (snd (share_step self clk reel_id reel_code
                                  humor_category w2))).
  { unfold share_step. destruct (_can_share self clk (db w2)); [|apply extends_refl].
    apply share_loop_extends. }
  destruct (share_step self clk reel_id reel_code humor_category w2) as [a3 w3].
  simpl in *. eauto using extends_trans.
Qed.

End PassTrace.

(** ** The session loop, case by case *)

Section Iteration.

Import Database Engager Session.

Variables (engager : Engager.t) (env : Env) (analyze_only : bool).

(** The state after an item went through analysis, decision and save. *)
Definition processed_state (i : nat) (reel : ReelData) (s : state)
    (actions : list string) (w1 : World) : state :=
  let cfg := config engager in
  let since := actions_since_cooldown s + length actions in
  let w2 := save reel (analysis env i) (action_str actions) w1 in
  if (cooldown_after_actions cfg <=? Z.of_nat since)%Z
  then mkState (emit EvWait (emit (EvCooldown (cooldown_duration_seconds cfg)) w2))
               (S (reels_processed s)) 0
  else mkState (emit EvWait w2) (S (reels_processed s)) since.

(** The world in which the decision pass of item [i] starts. *)
Definition analyzed_world (reel : ReelData) (s : state) : World :=
  emit (EvAnalyze (reel_id reel)) (emit (EvDownload (reel_id reel)) (world s)).

(** The decision stage of item [i]: skipped in analyze-only mode. *)
Definition engaged (i : nat) (reel : ReelData) (s : state) : list string * World :=
  if analyze_only then ([], analyzed_world reel s)
  else process_engagement engager (clock env i) (reel_id reel)
         (a_humor_score (analysis env i)) (a_humor_category (analysis env i))
         (a_suggested_comment (analysis env i)) (code reel)
         (analyzed_world reel s).

Inductive iteration_case (i : nat) (reel : ReelData) (s : state)
  : flow * state -> Prop :=
  | case_stop :
      stop_requested env i = true \/
      (max_reels_per_session (config engager) <= Z.of_nat (reels_processed s))%Z ->
      iteration_case i reel s (Break, s)
  | case_skip :
      stop_requested env i = false ->
      reel_already_analyzed (db (world s)) (reel_id reel) = true ->
      iteration_case i reel s (Next, s)
  | case_download_failed :
      stop_requested env i = false ->
      reel_already_analyzed (db (world s)) (reel_id reel) = false ->
      download_ok env i = false ->
      iteration_case i reel s
        (Next, mkState (emit (EvDownload (reel_id reel)) (world s))
                       (reels_processed s) (actions_since_cooldown s))
  | case_processed :
      stop_requested env i = false ->
      reel_already_analyzed (db (world s)) (reel_id reel) = false ->
      download_ok env i = true ->
      iteration_case i reel s
        (Next, processed_state i reel s (fst (engaged i reel s))
                 (snd (engaged i reel s))).

Lemma iteration_cases i reel s :
  iteration_case i reel s (iteration engager env analyze_only i reel s).
Proof.
  unfold iteration.
  destruct (stop_requested env i) eqn:Hstop; [constructor; now left|].
  destruct (_ <=? _)%Z eqn:Hmax; [constructor; right; lia|].
  destruct (reel_already_analyzed _ _) eqn:Hseen; [now constructor|].
  destruct (download_ok env i) eqn:Hdl; simpl; [|now constructor].
  pose proof (case_processed i reel s Hstop Hseen Hdl) as H.
  unfold processed_state, engaged, analyzed_world in H.
  destruct analyze_only.
  - simpl in H |- *.
    destruct (cooldown_after_actions _ <=? _)%Z; exact H.
  - destruct (process_engagement _ _ _ _ _ _ _ _) as [actions w1].
    simpl in H |- *.
    destruct (cooldown_after_actions _ <=? _)%Z; exact H.
Qed.

(** A property kept by every iteration is kept by the loop. *)
Lemma loop_invariant (P : state -> Prop) :
  (forall i reel s, P s -> P (snd (iteration engager env analyze_only i reel s))) ->
  forall feed i s, P s -> P (loop engager env analyze_only i feed s).
Proof.
  intros Hstep. induction feed as [|reel feed IH]; intros i s Hs; simpl; [exact Hs|].
  specialize (Hstep i reel s Hs).
  destruct (iteration engager env analyze_only i reel s) as [[|] s']; simpl in Hstep.
  - exact Hstep.
  - now apply IH.
Qed.

End Iteration.

(** ** No double analysis *)

Section NoDoubleAnalysis.

Import Database Engager Session.

Variables (engager : Engager.t) (env : Env) (analyze_only : bool).
Variable d0 : Database.t.

(** The session invariant: the store only grows, an identifier seen in the
    trace is in the store and was not there when the session began, and it
    was analyzed and saved at most once. *)
Definition analyzed_once (s : state) : Prop :=
  forall id,
    (reel_already_analyzed d0 id = true ->
     reel_already_analyzed (db (world s)) id = true) /\
    analyses id (trace (world s)) <= 1 /\
    saves id (trace (world s)) <= 1 /\
    (reel_already_analyzed (db (world s)) id = false \/
     reel_already_analyzed d0 id = true ->
     analyses id (trace (world s)) = 0 /\ saves id (trace (world s)) = 0).

Lemma analyses_app id t1 t2 : analyses id (t1 ++ t2) = analyses id t1 + analyses id t2.
Proof. unfold analyses. now rewrite List.filter_app, length_app. Qed.

Lemma saves_app id t1 t2 : saves id (t1 ++ t2) = saves id t1 + saves id t2.
Proof. unfold saves. now rewrite List.filter_app, length_app. Qed.

Lemma platform_not_counted id evs :
  Forall (fun e => is_platform e = true) evs ->
  analyses id evs = 0 /\ saves id evs = 0.
Proof.
  unfold analyses, saves.
  induction 1 as [|e evs He _ [IH1 IH2]]; [split; reflexivity|].
  destruct e; try discriminate. simpl. now split.
Qed.

(** The decision stage adds platform calls only and keeps [reels_analyzed]. *)
Lemma engaged_frame i reel s :
  let r := engaged engager env analyze_only i reel s in
  (exists evs, trace (snd r) = trace (analyzed_world reel s) ++ evs /\
               Forall (fun e => is_platform e = true) evs) /\
  reels_analyzed (db (snd r)) = reels_analyzed (db (world s)).
Proof.
  unfold engaged. destruct analyze_only; simpl.
  - split; [|reflexivity]. exists []. split; [now rewrite app_nil_r | constructor].
  - split.
    + destruct (pass_extends engager (clock env i) (reel_id reel)
                  (a_humor_score (analysis env i))
                  (a_humor_category (analysis env i))
                  (a_suggested_comment (analysis env i)) (code reel)
                  (analyzed_world reel s)) as (evs & Ht & Hc & _).
      exists evs. now split.
    + destruct (pass_rows engager (clock env i) (reel_id reel)
                  (a_humor_score (analysis env i))
                  (a_humor_category (analysis env i))
                  (a_suggested_comment (analysis env i)) (code reel)
                  (analyzed_world reel s))
        as (a1 & lr & a2 & cr & a3 & sr & _ & _ & _ & _ & _ & Hreels).
      exact Hreels.
Qed.

Lemma analyses_one id e : analyses id [e] = if is_analyze id e then 1 else 0.
Proof. unfold analyses. simpl. now destruct (is_analyze id e). Qed.

Lemma saves_one id e : saves id [e] = if is_save id e then 1 else 0.
Proof. unfold saves. simpl. now destruct (is_save id e). Qed.

Lemma eqb_count (x id : string) :
  (if String.eqb x id then 1 else 0) = (if decide (x = id) then 1 else 0).
Proof.
  destruct (String.eqb_spec x id), (decide (x = id)); congruence.
Qed.

(** The trace and the store after an item was processed. *)
Lemma processed_state_frame i reel s :
  let s' := processed_state engager env i reel s
              (fst (engaged engager env analyze_only i reel s))
              (snd (engaged engager env analyze_only i reel s)) in
  (forall id,
     analyses id (trace (world s')) =
       analyses id (trace (world s)) + (if decide (reel_id reel = id) then 1 else 0) /\
     saves id (trace (world s')) =
       saves id (trace (world s)) + (if decide (reel_id reel = id) then 1 else 0)) /\
  (forall id,
     reel_already_analyzed (db (world s')) id =
       if decide (reel_id reel = id) then true
       else reel_already_analyzed (db (world s)) id).
Proof.
  intros s'.
  destruct (engaged_frame i reel s) as [(evs & Ht & Hevs) Hreels].
  set (r := engaged engager env analyze_only i reel s) in *.
  assert (Htr : exists tl,
             trace (world s') =
               trace (world s) ++ [EvDownload (reel_id reel)]
                 ++ [EvAnalyze (reel_id reel)] ++ evs
                 ++ [EvSave (reel_id reel)] ++ tl /\
             forall id, analyses id tl = 0 /\ saves id tl = 0).
  { unfold s', processed_state.
    destruct (_ <=? _)%Z; simpl; rewrite Ht; unfold analyzed_world; simpl.
    - exists [EvCooldown (cooldown_duration_seconds (config engager)); EvWait].
      split; [now rewrite <- !app_assoc | now split].
    - exists [EvWait]. split; [now rewrite <- !app_assoc | now split]. }
  destruct Htr as (tl & Htr & Htl).
  split.
  - intros id. rewrite Htr, !analyses_app, !saves_app.
    destruct (platform_not_counted id evs Hevs) as [-> ->].
    destruct (Htl id) as [-> ->].
    rewrite !analyses_one, !saves_one. simpl. rewrite !eqb_count.
    destruct (decide (reel_id reel = id)); simpl; lia.
  - intros id.
    assert (Hdb : reels_analyzed (db (world s')) =
                  <[reel_id reel := mkReel (code reel) (user_username reel)
                      (caption_text reel) (a_humor_score (analysis env i))
                      (a_humor_category (analysis env i))
                      (a_explanation (analysis env i))
                      (a_transcript (analysis env i))
                      (action_str (fst r)) (thumbnail_url reel)]>
                    (reels_analyzed (db (world s)))).
    { unfold s', processed_state. destruct (_ <=? _)%Z; simpl; now rewrite Hreels. }
    unfold reel_already_analyzed. rewrite Hdb.
    destruct (decide (reel_id reel = id)) as [->|Hne].
    + now rewrite lookup_insert_eq.
    + now rewrite lookup_insert_ne.
Qed.

Lemma analyzed_once_step i reel s :
  analyzed_once s ->
  analyzed_once (snd (iteration engager env analyze_only i reel s)).
Proof.
  intros Hinv.
  destruct (iteration_cases engager env analyze_only i reel s)
    as [Hstop | Hstop Hseen | Hstop Hseen Hdl | Hstop Hseen Hdl]; simpl;
    try exact Hinv.
  - intros id. destruct (Hinv id) as (Hmono & Ha & Hs & Hzero).
    unfold emit. simpl. rewrite analyses_app, saves_app.
    rewrite analyses_one, saves_one. simpl. rewrite !Nat.add_0_r. auto.
  - destruct (processed_state_frame i reel s) as [Hcount Hstore].
    intros id. destruct (Hinv id) as (Hmono & Ha & Hs & Hzero).
    destruct (Hcount id) as [-> ->]. rewrite Hstore.
    destruct (decide (reel_id reel = id)) as [<-|Hne].
    + destruct (Hzero (or_introl Hseen)) as [-> ->].
      split; [reflexivity|]. split; [simpl; lia|]. split; [simpl; lia|].
      intros [Hf | Hin]; [discriminate|].
      apply Hmono in Hin. congruence.
    + rewrite !Nat.add_0_r. auto.
Qed.

End NoDoubleAnalysis.

(** C4.  In a session the analyzer is invoked at most once for an identifier
    and its analysis is upserted at most once; for an identifier that is in
    the store when the session begins neither happens at all, however often
    the feed presents it. *)
Theorem no_double_analysis
    platform cfg friends env dry_run analyze_only feed d id :
  let s := Session.run_session platform cfg friends env dry_run analyze_only
             feed d in
  analyses id (trace (Session.world s)) <= 1 /\
  saves id (trace (Session.world s)) <= 1 /\
  (Database.reel_already_analyzed d id = true ->
   analyses id (trace (Session.world s)) = 0 /\
   saves id (trace (Session.world s)) = 0).
Proof.
  intros s.
  assert (H : analyzed_once d s).
  { unfold s, Session.run_session.
    set (engager := Engager.mk platform cfg friends (dry_run || analyze_only)).
    set (s0 := Session.mkState _ 0 0).
    assert (H0 : analyzed_once d s0).
    { intros id'. unfold s0. simpl. repeat split; try (unfold analyses, saves; simpl; lia).
      unfold Engager._sync_friends_to_db. simpl.
      destruct (List.map username friends); auto. }
    destruct (login_ok env); [|exact H0].
    apply loop_invariant; [|exact H0].
    intros i reel st. apply analyzed_once_step. }
  destruct (H id) as (_ & Ha & Hs & Hzero). auto.
Qed.

(** ** Dry run against a live run that succeeds throughout *)

Section Parity.

Import Database Engager Session.

Variables (live_platform any_platform : Platform).
Variables (cfg : Config) (friends : list FriendProfile).

(** Every live action call returns [True]. *)
Hypothesis live_ok : forall n c, live_platform n c = Returned true.

Let dry := Engager.mk any_platform cfg friends true.
Let live := Engager.mk live_platform cfg friends false.

(** Two worlds that differ in the platform calls of their traces only. *)
Definition same_data (wd wl : World) : Prop :=
  db wd = db wl /\ trace wd = List.filter not_platform (trace wl).

Lemma same_data_call c wd wl :
  same_data wd wl ->
  fst (call live c wl) = Returned true /\ same_data wd (snd (call live c wl)).
Proof.
  intros [Hdb Htr]. unfold call. simpl. split; [apply live_ok|].
  split; [exact Hdb|]. simpl. rewrite List.filter_app. simpl.
  now rewrite app_nil_r.
Qed.

Lemma same_data_log clk id a f c ok err wd wl :
  same_data wd wl ->
  same_data (log clk id a f c ok err wd) (log clk id a f c ok err wl).
Proof. intros [Hdb Htr]. split; simpl; [now rewrite Hdb | exact Htr]. Qed.

Lemma same_data_bump clk u wd wl :
  same_data wd wl -> same_data (bump clk u wd) (bump clk u wl).
Proof. intros [Hdb Htr]. split; simpl; [now rewrite Hdb | exact Htr]. Qed.

Lemma _do_like_live clk id wl :
  _do_like live clk id wl =
  (true, log clk id like None None true None (snd (call live (like_media id) wl))).
Proof. unfold _do_like. simpl. now rewrite live_ok. Qed.

Lemma _do_comment_live clk id text wl :
  _do_comment live clk id text wl =
  (true, log clk id comment None (Some text) true None
           (snd (call live (comment_media id text) wl))).
Proof. unfold _do_comment. simpl. now rewrite live_ok. Qed.

Lemma _do_share_live clk id f code wl :
  _do_share live clk id f code wl =
  (true, bump clk (username f)
           (log clk id share (Some (username f)) None true None
              (snd (call live (share_media_to_user id (username f) code) wl)))).
Proof. unfold _do_share. simpl. now rewrite live_ok. Qed.

Lemma _do_like_parity clk id wd wl :
  same_data wd wl ->
  fst (_do_like dry clk id wd) = fst (_do_like live clk id wl) /\
  same_data (snd (_do_like dry clk id wd)) (snd (_do_like live clk id wl)).
Proof.
  intros H. rewrite _do_like_live. split; [reflexivity|].
  apply same_data_log. now apply same_data_call.
Qed.

Lemma _do_comment_parity clk id text wd wl :
  same_data wd wl ->
  fst (_do_comment dry clk id text wd) = fst (_do_comment live clk id text wl) /\
  same_data (snd (_do_comment dry clk id text wd))
            (snd (_do_comment live clk id text wl)).
Proof.
  intros H. rewrite _do_comment_live. split; [reflexivity|].
  apply same_data_log. now apply same_data_call.
Qed.

Lemma _do_share_parity clk id f code wd wl :
  same_data wd wl ->
  fst (_do_share dry clk id f code wd) = true /\
  fst (_do_share live clk id f code wl) = true /\
  same_data (snd (_do_share dry clk id f code wd))
            (snd (_do_share live clk id f code wl)).
Proof.
  intros H. rewrite _do_share_live.
  split; [reflexivity|]. split; [reflexivity|].
  apply same_data_bump, same_data_log. now apply same_data_call.
Qed.

Lemma share_loop_parity clk id code ms : forall wd wl,
  same_data wd wl ->
  fst (share_loop dry clk id code ms wd) = fst (share_loop live clk id code ms wl) /\
  same_data (snd (share_loop dry clk id code ms wd))
            (snd (share_loop live clk id code ms wl)).
Proof.
  induction ms as [|f ms IH]; intros wd wl H; cbn [share_loop]; [now split|].
  assert (Hdb : db wd = db wl) by apply H. rewrite Hdb.
  destruct (_can_share_to_friend clk (db wl) f); [|now apply IH].
  destruct (_do_share_parity clk id f code wd wl H) as (Hd & Hl & Hw).
  destruct (_do_share dry clk id f code wd) as [okd wd1].
  destruct (_do_share live clk id f code wl) as [okl wl1].
  simpl in Hd, Hl, Hw. subst okd okl. simpl. split; [reflexivity | exact Hw].
Qed.

Local Ltac same_cfg :=
  change (config dry) with cfg; change (config live) with cfg.

(** One pass: the same actions are reported and the same data results. *)
Lemma pass_parity clk id score category text code wd wl :
  same_data wd wl ->
  fst (process_engagement dry clk id score category text code wd)
    = fst (process_engagement live clk id score category text code wl) /\
  same_data (snd (process_engagement dry clk id score category text code wd))
            (snd (process_engagement live clk id score category text code wl)).
Proof.
  intros H. unfold process_engagement.
  assert (H1 : fst (like_step dry clk id score wd) = fst (like_step live clk id score wl)
               /\ same_data (snd (like_step dry clk id score wd))
                            (snd (like_step live clk id score wl))).
  { unfold like_step. same_cfg. destruct (Qle_bool _ _); [|now split].
    assert (Hdb : db wd = db wl) by apply H.
    unfold _can_like. same_cfg. rewrite Hdb. destruct (_ <? _)%Z; [|now split].
    destruct (_do_like_parity clk id wd wl H) as [Hf Hw].
    destruct (_do_like dry clk id wd) as [okd wd1].
    destruct (_do_like live clk id wl) as [okl wl1].
    simpl in Hf, Hw. subst okl. simpl. split; [reflexivity | exact Hw]. }
  destruct (like_step dry clk id score wd) as [a1 wd1].
  destruct (like_step live clk id score wl) as [b1 wl1].
  destruct H1 as [E1 H1]. simpl in E1, H1. subst b1.
  assert (H2 : fst (comment_step dry clk id score text wd1)
               = fst (comment_step live clk id score text wl1)
               /\ same_data (snd (comment_step dry clk id score text wd1))
                            (snd (comment_step live clk id score text wl1))).
  { unfold comment_step. same_cfg. destruct (_ && _); [|now split].
    assert (Hdb : db wd1 = db wl1) by apply H1.
    unfold _can_comment. same_cfg. rewrite Hdb. destruct (_ <? _)%Z; [|now split].
    destruct (_do_comment_parity clk id text wd1 wl1 H1) as [Hf Hw].
    destruct (_do_comment dry clk id text wd1) as [okd wd2].
    destruct (_do_comment live clk id text wl1) as [okl wl2].
    simpl in Hf, Hw. subst okl. simpl. split; [reflexivity | exact Hw]. }
  destruct (comment_step dry clk id score text wd1) as [a2 wd2].
  destruct (comment_step live clk id score text wl1) as [b2 wl2].
  destruct H2 as [E2 H2]. simpl in E2, H2. subst b2.
  assert (H3 : fst (share_step dry clk id code category wd2)
               = fst (share_step live clk id code category wl2)
               /\ same_data (snd (share_step dry clk id code category wd2))
                            (snd (share_step live clk id code category wl2))).
  { unfold share_step.
    assert (Hdb : db wd2 = db wl2) by apply H2.
    unfold _can_share, _find_matching_friends. same_cfg.
    change (Engager.friends dry) with friends.
    change (Engager.friends live) with friends.
    rewrite Hdb. destruct (_ <? _)%Z; [|now split].
    now apply share_loop_parity. }
  destruct (share_step dry clk id code category wd2) as [a3 wd3].
  destruct (share_step live clk id code category wl2) as [b3 wl3].
  destruct H3 as [E3 H3]. simpl in E3, H3. subst b3.
  simpl. now split.
Qed.

End Parity.

Section SessionParity.

Import Database Engager Session.

Variables (live_platform any_platform : Platform).
Variables (cfg : Config) (friends : list FriendProfile) (env : Env).

Hypothesis live_ok : forall n c, live_platform n c = Returned true.

Let dry := Engager.mk any_platform cfg friends true.
Let live := Engager.mk live_platform cfg friends false.

(** Two session states with the same data and the same counters. *)
Definition same_session (sd sl : state) : Prop :=
  same_data (world sd) (world sl) /\
  reels_processed sd = reels_processed sl /\
  actions_since_cooldown sd = actions_since_cooldown sl.

Lemma same_data_emit e wd wl :
  is_platform e = false -> same_data wd wl -> same_data (emit e wd) (emit e wl).
Proof.
  intros He [Hdb Htr]. split; [exact Hdb|]. simpl.
  rewrite List.filter_app, Htr. cbn [List.filter].
  replace (not_platform e) with true; [reflexivity|].
  unfold not_platform. now rewrite He.
Qed.

Lemma same_data_save reel a str wd wl :
  same_data wd wl -> same_data (save reel a str wd) (save reel a str wl).
Proof.
  intros [Hdb Htr]. unfold save. apply same_data_emit; [reflexivity|].
  split; simpl; [now rewrite Hdb | exact Htr].
Qed.

Lemma iteration_parity i reel sd sl :
  same_session sd sl ->
  fst (iteration dry env false i reel sd) = fst (iteration live env false i reel sl) /\
  same_session (snd (iteration dry env false i reel sd))
               (snd (iteration live env false i reel sl)).
Proof.
  intros H. pose proof H as (Hw & Hp & Hc). unfold iteration.
  change (config dry) with cfg. change (config live) with cfg.
  destruct (stop_requested env i); [split; [reflexivity | exact H]|].
  rewrite Hp. destruct (_ <=? _)%Z; [split; [reflexivity | exact H]|].
  assert (Hdb : db (world sd) = db (world sl)) by apply Hw. rewrite Hdb.
  destruct (reel_already_analyzed _ _); [split; [reflexivity | exact H]|].
  assert (Hw1 : same_data (emit (EvDownload (reel_id reel)) (world sd))
                          (emit (EvDownload (reel_id reel)) (world sl)))
    by now apply same_data_emit.
  destruct (download_ok env i); cbn [negb];
    [|split; [reflexivity | split; [exact Hw1 | split; [reflexivity | exact Hc]]]].
  assert (Hw2 : same_data
            (emit (EvAnalyze (reel_id reel)) (emit (EvDownload (reel_id reel)) (world sd)))
            (emit (EvAnalyze (reel_id reel)) (emit (EvDownload (reel_id reel)) (world sl))))
    by now apply same_data_emit.
  destruct (pass_parity live_platform any_platform cfg friends live_ok
              (clock env i) (reel_id reel) (a_humor_score (analysis env i))
              (a_humor_category (analysis env i))
              (a_suggested_comment (analysis env i)) (code reel) _ _ Hw2)
    as [Hacts Hw3].
  fold dry live in Hacts, Hw3.
  destruct (process_engagement dry _ _ _ _ _ _ _) as [acts wd3].
  destruct (process_engagement live _ _ _ _ _ _ _) as [acts' wl3].
  simpl in Hacts, Hw3. subst acts'. rewrite Hc.
  assert (Hw4 : same_data (save reel (analysis env i) (action_str acts) wd3)
                          (save reel (analysis env i) (action_str acts) wl3))
    by now apply same_data_save.
  destruct (_ <=? _)%Z; cbn [fst snd]; split; try reflexivity.
  - split; [|split; reflexivity]. cbn [world].
    apply (same_data_emit EvWait); [reflexivity|].
    now apply same_data_emit.
  - split; [|split; reflexivity]. cbn [world].
    now apply (same_data_emit EvWait).
Qed.

Lemma loop_parity feed : forall i sd sl,
  same_session sd sl ->
  same_session (loop dry env false i feed sd) (loop live env false i feed sl).
Proof.
  induction feed as [|reel feed IH]; intros i sd sl H; simpl; [exact H|].
  destruct (iteration_parity i reel sd sl H) as [Hf Hs].
  destruct (iteration dry env false i reel sd) as [fd sd'].
  destruct (iteration live env false i reel sl) as [fl sl'].
  simpl in Hf, Hs. subst fl. destruct fd; [exact Hs | now apply IH].
Qed.

End SessionParity.

(** ** What a dry run writes *)

Section DryRows.

Import Database Engager Session.

Lemma pass_dry_successes self clk reel_id humor_score humor_category text reel_code w :
  dry_run self = true ->
  exists rows,
    engagement_log (db (snd (process_engagement self clk reel_id humor_score
                               humor_category text reel_code w)))
      = engagement_log (db w) ++ rows /\
    Forall (fun r => e_success r = true) rows.
Proof.
  intros Hdry.
  destruct (pass_rows self clk reel_id humor_score humor_category text
              reel_code w) as (a1 & lr & a2 & cr & a3 & sr & HL & HC & HS & _ & Hlog & _).
  exists (lr ++ cr ++ sr). split; [exact Hlog|].
  rewrite !Forall_app. repeat split.
  - unfold like_outcome in HL. destruct (like_attempted _ _ _ _).
    + destruct HL as (ok & err & Hok & _ & ->). rewrite (Hok Hdry).
      repeat constructor.
    + destruct HL as [_ ->]. constructor.
  - unfold comment_outcome in HC. destruct (comment_attempted _ _ _ _ _).
    + destruct HC as (ok & err & Hok & _ & ->). rewrite (Hok Hdry).
      repeat constructor.
    + destruct HC as [_ ->]. constructor.
  - unfold share_summary in HS. destruct (_can_share _ _ _).
    + destruct HS as (tried & rest & _ & _ & _ & _ & Hd & _). now apply Hd.
    + destruct HS as (_ & -> & _). constructor.
Qed.

Lemma processed_state_log engager env i reel s acts w1 :
  engagement_log (db (world (processed_state engager env i reel s acts w1)))
  = engagement_log (db w1).
Proof. unfold processed_state. now destruct (_ <=? _)%Z. Qed.

(** Every row a dry-run session adds to the log is a success. *)
Lemma dry_session_successes platform cfg friends env analyze_only feed d :
  let s := run_session platform cfg friends env true analyze_only feed d in
  exists rows,
    engagement_log (db (world s)) = engagement_log d ++ rows /\
    Forall (fun r => e_success r = true) rows.
Proof.
  unfold run_session. cbn [orb].
  set (engager := Engager.mk platform cfg friends true).
  set (P := fun s : state => exists rows,
              engagement_log (db (world s)) = engagement_log d ++ rows /\
              Forall (fun r => e_success r = true) rows).
  assert (H0 : P (mkState (mkWorld (_sync_friends_to_db engager d) []) 0 0)).
  { exists []. split; [|constructor]. rewrite app_nil_r. simpl.
    unfold _sync_friends_to_db. now destruct (List.map username _). }
  destruct (login_ok env); [|exact H0].
  apply loop_invariant; [|exact H0].
  intros i reel s (rows & Hlog & Hall).
  destruct (iteration_cases engager env analyze_only i reel s)
    as [Hstop | Hstop Hseen | Hstop Hseen Hdl | Hstop Hseen Hdl]; simpl;
    try (exists rows; now split).
  unfold P. rewrite processed_state_log. unfold engaged.
  destruct analyze_only.
  - exists rows. now split.
  - destruct (pass_dry_successes engager (clock env i) (reel_id reel)
                (a_humor_score (analysis env i))
                (a_humor_category (analysis env i))
                (a_suggested_comment (analysis env i)) (code reel)
                (analyzed_world reel s) eq_refl) as (rows' & Hlog' & Hall').
    exists (rows ++ rows'). split.
    + rewrite Hlog'. simpl. now rewrite Hlog, app_assoc.
    + apply Forall_app. now split.
Qed.

End DryRows.

Lemma no_calls_left tr : platform_calls (List.filter not_platform tr) = [].
Proof.
  unfold platform_calls. induction tr as [|e tr IH]; [reflexivity|].
  simpl. unfold not_platform at 1. destruct (is_platform e) eqn:He; simpl.
  - exact IH.
  - now rewrite He.
Qed.

(** C6.  Take a live platform on which every action call returns [True].  A
    dry-run session on the same inputs leaves the same store as the live
    session (the same engagement records in the same order, the same
    per-recipient counters, the same analyzed items) and the same session
    counters, makes no platform action call, has the live session's trace
    without its platform calls, and writes success rows only. *)
Theorem dry_run_parity live_platform any_platform cfg friends env feed d :
  (forall n c, live_platform n c = Returned true) ->
  let dry := Session.run_session any_platform cfg friends env true false feed d in
  let live := Session.run_session live_platform cfg friends env false false feed d in
  db (Session.world dry) = db (Session.world live) /\
  Session.reels_processed dry = Session.reels_processed live /\
  Session.actions_since_cooldown dry = Session.actions_since_cooldown live /\
  platform_calls (trace (Session.world dry)) = [] /\
  trace (Session.world dry) = List.filter not_platform (trace (Session.world live)) /\
  Forall (fun r => e_success r = true) (appended d (db (Session.world dry))).
Proof.
  intros Hok dry live.
  assert (H : same_session dry live).
  { unfold dry, live, Session.run_session. cbn [orb].
    set (s0 := Session.mkState _ 0 0).
    assert (H0 : same_session s0 s0) by (repeat split).
    destruct (login_ok env); [|exact H0].
    now apply loop_parity. }
  destruct H as ((Hdb & Htr) & Hp & Hc).
  repeat split; try assumption.
  - rewrite Htr. apply no_calls_left.
  - destruct (dry_session_successes any_platform cfg friends env false feed d)
      as (rows & Hlog & Hall).
    fold dry in Hlog. unfold appended. now rewrite Hlog, drop_app_length.
Qed.

Lemma dry_run_parity_witness :
  (forall n c, always_ok n c = Returned true) /\
  let dry := Session.run_session never_ok demo_config demo_friends demo_env
               true false demo_feed Database.empty in
  let live := Session.run_session always_ok demo_config demo_friends demo_env
                false false demo_feed Database.empty in
  db (Session.world dry) = db (Session.world live) /\
  Session.reels_processed dry = Session.reels_processed live /\
  Session.actions_since_cooldown dry = Session.actions_since_cooldown live /\
  platform_calls (trace (Session.world dry)) = [] /\
  trace (Session.world dry) = List.filter not_platform (trace (Session.world live)) /\
  Forall (fun r => e_success r = true)
         (appended Database.empty (db (Session.world dry))).
Proof.
  split; [reflexivity|].
  apply (dry_run_parity always_ok never_ok demo_config demo_friends demo_env
           demo_feed Database.empty).
  reflexivity.
Defined.

(** ** The per-recipient ceiling *)

Section RecipientCeiling.

Import Database Engager Session.

Lemma recipient_ceiling_ext friends d d' :
  friend_shares d' = friend_shares d ->
  recipient_ceiling friends d -> recipient_ceiling friends d'.
Proof. intros H Hc f dt n. rewrite H. apply Hc. Qed.

Lemma recipient_ceiling_increment friends clk d d' f :
  caps_consistent friends ->
  In f friends ->
  _can_share_to_friend clk d f = true ->
  friend_shares d' = friend_shares (increment_friend_share_count clk d (username f)) ->
  recipient_ceiling friends d -> recipient_ceiling friends d'.
Proof.
  intros Hcaps Hf Hcan Hd' Hc g dt n Hg. rewrite Hd'. simpl.
  unfold _can_share_to_friend, get_friend_share_count_today in Hcan.
  apply Z.ltb_lt in Hcan.
  destruct (decide ((username f, today clk) = (username g, dt))) as [E|Hne].
  - rewrite <- E, lookup_insert_eq. intros [= <-].
    injection E as Hu _. rewrite <- (Hcaps f g Hf Hg Hu).
    destruct (friend_shares d !! (username f, today clk)); lia.
  - rewrite lookup_insert_ne by exact Hne. now apply Hc.
Qed.

Lemma candidate_can_share self clk category d f :
  In f (share_candidates self clk category d) ->
  In f (friends self) /\ _can_share_to_friend clk d f = true.
Proof.
  unfold share_candidates, _find_matching_friends.
  rewrite !List.filter_In. tauto.
Qed.

(** One pass keeps the ceiling. *)
Lemma recipient_ceiling_pass self clk reel_id humor_score humor_category text
    reel_code w :
  caps_consistent (friends self) ->
  recipient_ceiling (friends self) (db w) ->
  recipient_ceiling (friends self)
    (db (snd (process_engagement self clk reel_id humor_score humor_category
                text reel_code w))).
Proof.
  intros Hcaps Hc.
  destruct (pass_rows self clk reel_id humor_score humor_category text
              reel_code w) as (a1 & lr & a2 & cr & a3 & sr & _ & _ & HS & _).
  unfold share_summary in HS. destruct (_can_share self clk (db w)).
  - destruct HS as (tried & rest & Hcands & _ & _ & _ & _ & Hend).
    destruct Hend as [(_ & _ & _ & Hfs) | (f & Hlast & _ & _ & Hfs)].
    + eapply recipient_ceiling_ext; eauto.
    + apply last_Some in Hlast. destruct Hlast as [pre ->].
      destruct (candidate_can_share self clk humor_category (db w) f) as [Hf Hcan].
      { rewrite Hcands, !in_app_iff. simpl. tauto. }
      eapply recipient_ceiling_increment; eauto.
  - destruct HS as (_ & _ & Hfs). eapply recipient_ceiling_ext; eauto.
Qed.

(** Every share record of a pass names a configured recipient whose count
    for today was below the cap when the pass began. *)
Lemma share_attempts_below_cap self clk reel_id humor_score humor_category text
    reel_code w r :
  In r (share_records reel_id (db w)
          (db (snd (process_engagement self clk reel_id humor_score
                      humor_category text reel_code w)))) ->
  exists f,
    In f (friends self) /\ e_friend_username r = Some (username f) /\
    (Z.of_nat (get_friend_share_count_today clk (db w) (username f))
       < f_max_shares_per_day f)%Z.
Proof.
  destruct (pass_rows self clk reel_id humor_score humor_category text
              reel_code w) as (a1 & lr & a2 & cr & a3 & sr & HL & HC & HS & _ & Hlog & _).
  apply like_outcome_rows in HL. destruct HL as (HLk & _).
  apply comment_outcome_rows in HC. destruct HC as (HCk & _).
  rewrite (share_records_split reel_id (db w) _ lr cr sr clk Hlog HLk HCk
             (share_summary_rows self clk _ _ _ _ _ _ HS)).
  intros Hr. unfold share_summary in HS. destruct (_can_share self clk (db w)).
  - destruct HS as (tried & rest & Hcands & _ & Hnames & _).
    apply (in_map e_friend_username) in Hr. rewrite Hnames in Hr.
    apply in_map_iff in Hr. destruct Hr as (f & Hf & Hin).
    destruct (candidate_can_share self clk humor_category (db w) f) as [Hfr Hcan].
    { rewrite Hcands, in_app_iff. tauto. }
    exists f. repeat split; [exact Hfr | now symmetry |].
    now apply Z.ltb_lt in Hcan.
  - destruct HS as (_ & -> & _). destruct Hr.
Qed.

(** The property as the specification words it, tested on a directory that
    lists bob twice: the counter is keyed by the username alone, so after
    three items it stands at 3, above the cap 1 of the first entry. *)
Lemma counter_exceeds_cap_when_listed_twice :
  let final := db (world (run_session always_ok demo_config twice_listed
                            demo_env false false three_items Database.empty)) in
  recipient_ceiling twice_listed Database.empty /\
  friend_shares final !! ("bob", "2024-03-01") = Some 3 /\
  ~ recipient_ceiling twice_listed final.
Proof.
  cbv zeta.
  assert (H : friend_shares
                (db (world (run_session always_ok demo_config twice_listed
                              demo_env false false three_items Database.empty)))
              !! ("bob", "2024-03-01") = Some 3) by (vm_compute; reflexivity).
  split; [|split; [exact H|]].
  - intros f dt n _ Hl. simpl in Hl. now rewrite lookup_empty in Hl.
  - intros Hc.
    specialize (Hc (FriendProfile_init "bob" ["animals"] 1) "2024-03-01" 3
                   (or_introl eq_refl) H).
    simpl in Hc. lia.
Qed.

(** C3, amended.  When the directory gives one cap per recipient username, a
    store whose counter rows are within the recipients' caps stays so
    through a whole session, for every recipient and date.  A share is
    attempted only towards a recipient whose count for today is strictly
    below the cap.  And [_do_share] moves the counter, by one, only when the
    share succeeded: in a live run exactly when the platform call returned
    [True], while a returned [False] or a raised error leaves every counter
    alone and is logged as a failure; a dry run makes no call and counts the
    share as a success. *)
Theorem recipient_ceiling_kept
    platform cfg friends env dry_run analyze_only feed d :
  caps_consistent friends ->
  recipient_ceiling friends d ->
  recipient_ceiling friends
    (db (world (run_session platform cfg friends env dry_run analyze_only feed d)))
  /\
  (forall self clk reel_id humor_score humor_category text reel_code w r,
     In r (share_records reel_id (db w)
             (db (snd (process_engagement self clk reel_id humor_score
                         humor_category text reel_code w)))) ->
     exists f,
       In f (Engager.friends self) /\ e_friend_username r = Some (username f) /\
       (Z.of_nat (get_friend_share_count_today clk (db w) (username f))
          < f_max_shares_per_day f)%Z)
  /\
  (forall self clk reel_id friend reel_code w,
     let res := _do_share self clk reel_id friend reel_code w in
     let answer := share_answer self reel_id friend reel_code w in
     let moved :=
       <[(username friend, today clk) :=
           S (get_friend_share_count_today clk (db w) (username friend))]>
         (friend_shares (db w)) in
     (Engager.dry_run self = false -> answer = Returned true ->
      fst res = true /\ friend_shares (db (snd res)) = moved /\
      appended (db w) (db (snd res))
        = [attempt_row clk reel_id share (Some (username friend)) None true None]) /\
     (Engager.dry_run self = false -> answer <> Returned true ->
      fst res = false /\ friend_shares (db (snd res)) = friend_shares (db w) /\
      exists err,
        appended (db w) (db (snd res))
          = [attempt_row clk reel_id share (Some (username friend)) None false err]) /\
     (Engager.dry_run self = true ->
      fst res = true /\ friend_shares (db (snd res)) = moved /\
      trace (snd res) = trace w)).
Proof.
  intros Hcaps Hc. split; [|split].
  - unfold run_session.
    set (engager := Engager.mk platform cfg friends (dry_run || analyze_only)).
    assert (H0 : recipient_ceiling friends (_sync_friends_to_db engager d)).
    { unfold _sync_friends_to_db. destruct (List.map username _); [exact Hc|].
      intros f dt n Hf Hl. simpl in Hl.
      apply map_lookup_filter_Some in Hl. destruct Hl as [Hl _]. eauto. }
    destruct (login_ok env); [|exact H0].
    apply (loop_invariant engager env analyze_only
             (fun s => recipient_ceiling friends (db (world s)))); [|exact H0].
    intros i reel s Hs.
    destruct (iteration_cases engager env analyze_only i reel s)
      as [Hstop | Hstop Hseen | Hstop Hseen Hdl | Hstop Hseen Hdl]; simpl;
      try exact Hs.
    assert (Hfs : friend_shares
                    (db (world (processed_state engager env i reel s
                                  (fst (engaged engager env analyze_only i reel s))
                                  (snd (engaged engager env analyze_only i reel s)))))
                  = friend_shares (db (snd (engaged engager env analyze_only i reel s)))).
    { unfold processed_state. now destruct (_ <=? _)%Z. }
    eapply recipient_ceiling_ext; [exact Hfs|].
    unfold engaged. destruct analyze_only; [exact Hs|].
    apply (recipient_ceiling_pass engager); assumption.
  - intros. eapply share_attempts_below_cap; eauto.
  - intros self clk reel_id friend reel_code w res answer moved.
    assert (Hmoved : friend_shares
                       (increment_friend_share_count clk (db w) (username friend))
                     = moved).
    { unfold moved, increment_friend_share_count, get_friend_share_count_today.
      simpl. now destruct (friend_shares (db w) !! (username friend, today clk)). }
    unfold res, answer, share_answer, _do_share, call, appended.
    split; [|split].
    + intros -> ->. simpl. split; [reflexivity|]. split; [exact Hmoved|].
      now rewrite drop_app_length.
    + intros -> Hne. destruct (instagram self _ _) as [[|]|msg]; simpl.
      * now destruct Hne.
      * split; [reflexivity|]. split; [reflexivity|].
        exists None. now rewrite drop_app_length.
      * split; [reflexivity|]. split; [reflexivity|].
        exists (Some msg). now rewrite drop_app_length.
    + intros ->. simpl. split; [reflexivity|]. split; [exact Hmoved|reflexivity].
Qed.

Lemma recipient_ceiling_kept_witness :
  caps_consistent demo_friends /\
  recipient_ceiling demo_friends Database.empty /\
  recipient_ceiling demo_friends
    (db (world (run_session always_ok demo_config demo_friends demo_env
                  false false demo_feed Database.empty))).
Proof.
  assert (H1 : caps_consistent demo_friends).
  { intros f g [<-|[<-|[]]] [<-|[<-|[]]] Hu; simpl in *; congruence. }
  assert (H2 : recipient_ceiling demo_friends Database.empty).
  { intros f dt n _ Hl. simpl in Hl. now rewrite lookup_empty in Hl. }
  split; [exact H1|]. split; [exact H2|].
  apply (recipient_ceiling_kept always_ok demo_config demo_friends demo_env
           false false demo_feed Database.empty H1 H2).
Defined.

End RecipientCeiling.

(** ** The daily quota over a session, and where it breaks *)

Section QuotaSession.

Import Database Engager Session.

(** While the store's date and the host's date agree on one day [dt], a
    session keeps the successful records of [dt] within the caps. *)
Lemma quota_ceiling_session platform cfg friends env dry_run analyze_only feed d dt :
  (forall i, aligned (clock env i) /\ today (clock env i) = dt) ->
  quota_ceiling cfg dt d ->
  quota_ceiling cfg dt
    (db (world (run_session platform cfg friends env dry_run analyze_only feed d))).
Proof.
  intros Hclk Hq. unfold run_session.
  set (engager := Engager.mk platform cfg friends (dry_run || analyze_only)).
  assert (H0 : quota_ceiling cfg dt (_sync_friends_to_db engager d)).
  { unfold _sync_friends_to_db. now destruct (List.map username _). }
  destruct (login_ok env); [|exact H0].
  apply (loop_invariant engager env analyze_only
           (fun s => quota_ceiling cfg dt (db (world s)))); [|exact H0].
  intros i reel s Hs.
  destruct (iteration_cases engager env analyze_only i reel s)
    as [Hstop | Hstop Hseen | Hstop Hseen Hdl | Hstop Hseen Hdl]; simpl;
    try exact Hs.
  intros a. rewrite processed_state_log. revert a.
  change (quota_ceiling cfg dt (db (snd (engaged engager env analyze_only i reel s)))).
  unfold engaged. destruct analyze_only; [exact Hs|].
  destruct (Hclk i) as [Hal <-].
  apply (quota_ceiling_pass engager (clock env i)); assumption.
Qed.

End QuotaSession.

(** C2, at the failing input.  The daily like cap is 1.  The session runs
    live on a platform that accepts everything, on a host whose local date
    is behind the UTC date.  Each like is stamped with the UTC date, each
    check counts the rows of the local date and finds none, so both items
    are liked: two successful like records carry the date 2024-03-02. *)
Theorem quota_exceeded_when_dates_differ :
  let d := db (Session.world
                 (Session.run_session always_ok one_like_config [] evening_env
                    false false demo_feed Database.empty)) in
  daily_cap one_like_config like = 1%Z /\
  Database.count_successes like "2024-03-02" (Database.engagement_log d) = 2 /\
  Database.count_successes like "2024-03-01" (Database.engagement_log d) = 0 /\
  ~ quota_ceiling one_like_config "2024-03-02" d.
Proof.
  cbv zeta. split; [reflexivity|]. split; [reflexivity|]. split; [reflexivity|].
  intros H. specialize (H like). vm_compute in H. now apply H.
Qed.

(** ** Pruning of stale recipient counters *)

Section Sync.

Import Database Engager.

(** The property as the specification words it, tested on an empty
    directory: the stale row of carol is still there after the sync. *)
Lemma stale_row_survives_empty_directory :
  let self := Engager.mk always_ok demo_config [] false in
  ~ (forall u dt n,
       friend_shares (_sync_friends_to_db self stale_store) !! (u, dt) = Some n ->
       In u (List.map username (friends self))).
Proof.
  intros self H. apply (H "carol" "2024-02-29" 2). reflexivity.
Qed.

(** C7, amended.  When the loaded directory is not empty, the sync keeps
    exactly the counter rows of the recipients in it, whatever their date,
    and deletes every other row; when the directory is empty, the sync
    changes nothing.  The other tables are never touched. *)
Theorem stale_counters_pruned self d :
  (friends self <> [] ->
   forall u dt n,
     friend_shares (_sync_friends_to_db self d) !! (u, dt) = Some n <->
     friend_shares d !! (u, dt) = Some n /\
     In u (List.map username (friends self))) /\
  (friends self = [] -> _sync_friends_to_db self d = d) /\
  reels_analyzed (_sync_friends_to_db self d) = reels_analyzed d /\
  engagement_log (_sync_friends_to_db self d) = engagement_log d.
Proof.
  unfold _sync_friends_to_db. split; [|split; [|split]].
  - intros Hne u dt n. destruct (friends self) as [|f fs] eqn:E; [congruence|].
    cbn [List.map]. unfold delete_friend_shares_not_in. cbn [friend_shares].
    rewrite map_lookup_filter_Some. cbn [fst]. now rewrite list_elem_of_In.
  - intros ->. reflexivity.
  - now destruct (List.map username (friends self)).
  - now destruct (List.map username (friends self)).
Qed.

End Sync.

(** ** Cooldowns *)

Section Cooldown.

Import Database Engager Session.

Lemma successes_app l1 l2 : successes (l1 ++ l2) = successes l1 + successes l2.
Proof. unfold successes. now rewrite List.filter_app, length_app. Qed.

Lemma cooldowns_app t1 t2 : cooldowns (t1 ++ t2) = cooldowns t1 + cooldowns t2.
Proof. unfold cooldowns. now rewrite List.filter_app, length_app. Qed.

Lemma cooldowns_one e : cooldowns [e] = if is_cooldown e then 1 else 0.
Proof. unfold cooldowns. simpl. now destruct (is_cooldown e). Qed.

Lemma platform_no_cooldown secs evs :
  Forall (fun e => is_platform e = true) evs ->
  cooldowns evs = 0 /\ pauses_last secs evs.
Proof.
  unfold cooldowns, pauses_last.
  induction 1 as [|e evs He _ [IH1 IH2]]; [split; [reflexivity|constructor]|].
  destruct e; try discriminate. simpl. split; [exact IH1|]. now constructor.
Qed.

Lemma success_last_exactly_one (rows : list EngagementRow) r :
  (forall i x, rows !! i = Some x -> e_success x = true -> length rows = S i) ->
  last rows = Some r -> e_success r = true ->
  successes rows = 1.
Proof.
  intros Hlast Hr Hs. pose proof (success_last_at_most_one rows Hlast) as Hle.
  apply last_Some in Hr. destruct Hr as [pre ->].
  unfold successes in *. rewrite List.filter_app, length_app in *.
  simpl in *. rewrite Hs in *. simpl in *. lia.
Qed.

(** The actions a pass reports are its successful records, at most three. *)
Lemma pass_actions_count self clk reel_id humor_score humor_category text
    reel_code w :
  let res := process_engagement self clk reel_id humor_score humor_category
               text reel_code w in
  successes (engagement_log (db (snd res)))
    = successes (engagement_log (db w)) + length (fst res) /\
  length (fst res) <= 3.
Proof.
  intros res.
  destruct (pass_rows self clk reel_id humor_score humor_category text
              reel_code w) as (a1 & lr & a2 & cr & a3 & sr & HL & HC & HS & Hacts & Hlog & _).
  fold res in Hacts, Hlog, HS. rewrite Hlog, Hacts, !successes_app, !length_app.
  assert (H1 : successes lr = length a1 /\ length a1 <= 1).
  { unfold like_outcome in HL. destruct (like_attempted _ _ _ _).
    - destruct HL as (ok & err & _ & -> & ->).
      destruct ok; simpl; split; (reflexivity || lia).
    - destruct HL as [-> ->]. simpl. split; [reflexivity | lia]. }
  assert (H2 : successes cr = length a2 /\ length a2 <= 1).
  { unfold comment_outcome in HC. destruct (comment_attempted _ _ _ _ _).
    - destruct HC as (ok & err & _ & -> & ->).
      destruct ok; simpl; split; (reflexivity || lia).
    - destruct HC as [-> ->]. simpl. split; [reflexivity | lia]. }
  assert (H3 : successes sr = length a3 /\ length a3 <= 1).
  { unfold share_summary in HS. destruct (_can_share _ _ _).
    - destruct HS as (tried & rest & _ & _ & _ & Hlast & _ & Hend).
      destruct Hend as [(-> & _ & Hfail & _) | (f & _ & -> & (r & Hr & Hs) & _)].
      + simpl. split; [|lia]. unfold successes.
        rewrite filter_none; [reflexivity | exact Hfail].
      + simpl. split; [|lia]. eapply success_last_exactly_one; eauto.
    - destruct HS as (-> & -> & _). simpl. split; [reflexivity | lia]. }
  lia.
Qed.

Variables (engager : Engager.t) (env : Env) (analyze_only : bool).
Variable d0 : Database.t.

Let N := cooldown_after_actions (config engager).

(** The accounting that holds between two iterations: [m] successful actions
    so far, [c] pauses, [k] actions since the last pause. *)
Definition accounted (s : state) : Prop :=
  exists m : nat,
    successes (engagement_log (db (world s)))
      = successes (engagement_log d0) + m /\
    let c := Z.of_nat (cooldowns (trace (world s))) in
    let k := Z.of_nat (actions_since_cooldown s) in
    (N * c + k <= Z.of_nat m <= (N + 2) * c + k)%Z /\ (k < N)%Z /\
    pauses_last (cooldown_duration_seconds (config engager)) (trace (world s)).

Lemma accounted_step i reel s :
  accounted s ->
  accounted (snd (iteration engager env analyze_only i reel s)).
Proof.
  intros Hacc.
  destruct (iteration_cases engager env analyze_only i reel s)
    as [Hstop | Hstop Hseen | Hstop Hseen Hdl | Hstop Hseen Hdl]; simpl;
    try exact Hacc.
  - destruct Hacc as (m & Hm & Hb & Hk & Hp). exists m. simpl.
    rewrite cooldowns_app. simpl. rewrite Nat.add_0_r.
    repeat split; try assumption; try apply Hb.
    apply Forall_app. split; [exact Hp | now repeat constructor].
  - destruct Hacc as (m & Hm & Hb & Hk & Hp).
    destruct (engaged_frame engager env analyze_only i reel s)
      as [(evs & Ht & Hevs) _].
    destruct (platform_no_cooldown (cooldown_duration_seconds (config engager))
                evs Hevs) as [Hc0 Hp0].
    assert (Hcount :
      successes (engagement_log (db (snd (engaged engager env analyze_only i reel s))))
        = successes (engagement_log (db (world s)))
          + length (fst (engaged engager env analyze_only i reel s)) /\
      length (fst (engaged engager env analyze_only i reel s)) <= 3).
    { unfold engaged. destruct analyze_only.
      - simpl. split; lia.
      - exact (pass_actions_count engager (clock env i) (reel_id reel)
                 (a_humor_score (analysis env i))
                 (a_humor_category (analysis env i))
                 (a_suggested_comment (analysis env i)) (code reel)
                 (analyzed_world reel s)). }
    destruct Hcount as [Hsucc Hlen].
    set (r := engaged engager env analyze_only i reel s) in *.
    exists (m + length (fst r)).
    rewrite processed_state_log. split; [lia|].
    unfold processed_state. fold N.
    destruct (N <=? _)%Z eqn:Hcool; simpl; rewrite Ht; unfold analyzed_world;
      simpl; rewrite !cooldowns_app, Hc0, !cooldowns_one; cbn [is_cooldown].
    + apply Z.leb_le in Hcool. split; [|split; [lia|]].
      * nia.
      * unfold pauses_last in *. rewrite !Forall_app.
        repeat split; try assumption; now repeat constructor.
    + apply Z.leb_gt in Hcool. split; [|split; [lia|]].
      * nia.
      * unfold pauses_last in *. rewrite !Forall_app.
        repeat split; try assumption; now repeat constructor.
Qed.

End Cooldown.

(** The property as the specification words it, read as: the number of
    pauses is the number of successful actions divided by N.  Tested on a
    dry run with N = 2 in which both items get a like, a comment and a
    share: six successful actions, two pauses. *)
Lemma two_pauses_for_six_actions :
  let s := Session.run_session always_ok burst_config demo_friends demo_env
             true false demo_feed Database.empty in
  successes (Database.engagement_log (db (Session.world s))) = 6 /\
  cooldowns (trace (Session.world s)) = 2 /\
  Z.of_nat (cooldowns (trace (Session.world s))) <>
    (Z.of_nat (successes (Database.engagement_log (db (Session.world s))))
       / cooldown_after_actions burst_config)%Z.
Proof. vm_compute. repeat split; discriminate. Qed.

(** C9, amended.  For a trigger count N > 0: after each saved item the
    successful actions of that item are added to a running count; when the
    count has reached N the session pauses once, for the configured
    duration, and the count restarts at zero, dropping what exceeded N.  So
    with [c] pauses, [n] successful actions in the session and [k] actions
    since the last pause: N*c + k <= n <= (N+2)*c + k and k < N. *)
Theorem cooldown_accounting
    platform cfg friends env dry_run analyze_only feed d :
  (0 < cooldown_after_actions cfg)%Z ->
  let s := Session.run_session platform cfg friends env dry_run analyze_only
             feed d in
  let N := cooldown_after_actions cfg in
  let c := Z.of_nat (cooldowns (trace (Session.world s))) in
  let k := Z.of_nat (Session.actions_since_cooldown s) in
  let n := (Z.of_nat (successes (Database.engagement_log (db (Session.world s))))
            - Z.of_nat (successes (Database.engagement_log d)))%Z in
  (N * c + k <= n <= (N + 2) * c + k)%Z /\ (k < N)%Z /\
  pauses_last (cooldown_duration_seconds cfg) (trace (Session.world s)).
Proof.
  intros HN s N c k n.
  assert (H : accounted (Engager.mk platform cfg friends (dry_run || analyze_only)) d s).
  { unfold s, Session.run_session.
    set (engager := Engager.mk platform cfg friends (dry_run || analyze_only)).
    set (s0 := Session.mkState _ 0 0).
    assert (H0 : accounted engager d s0).
    { exists 0. unfold s0. simpl. split.
      - unfold Engager._sync_friends_to_db. destruct (List.map username _); simpl; lia.
      - change (cooldowns []) with 0.
        split; [lia|]. split; [exact HN | constructor]. }
    destruct (login_ok env); [|exact H0].
    apply loop_invariant; [|exact H0].
    intros i reel st. apply accounted_step. }
  destruct H as (m & Hm & Hb & Hk & Hp). simpl in Hb, Hk, Hp.
  unfold n, c, k, N. rewrite Hm.
  replace (Z.of_nat (successes (Database.engagement_log d) + m)
           - Z.of_nat (successes (Database.engagement_log d)))%Z
    with (Z.of_nat m) by lia.
  repeat split; try assumption; apply Hb.
Qed.

Lemma cooldown_accounting_witness :
  (0 < cooldown_after_actions burst_config)%Z /\
  let s := Session.run_session always_ok burst_config demo_friends demo_env
             true false demo_feed Database.empty in
  let N := cooldown_after_actions burst_config in
  let c := Z.of_nat (cooldowns (trace (Session.world s))) in
  let k := Z.of_nat (Session.actions_since_cooldown s) in
  let n := (Z.of_nat (successes (Database.engagement_log (db (Session.world s))))
            - Z.of_nat (successes (Database.engagement_log Database.empty)))%Z in
  (N * c + k <= n <= (N + 2) * c + k)%Z /\ (k < N)%Z /\
  pauses_last (cooldown_duration_seconds burst_config) (trace (Session.world s)).
Proof.
  split; [reflexivity|].
  apply (cooldown_accounting always_ok burst_config demo_friends demo_env
           true false demo_feed Database.empty).
  reflexivity.
Defined.

(** ** The analyzer's result on failure *)

Module AnalyzerFacts.

Import Analyzer.

(** The failures that happen before any field of the response is assigned. *)
Definition failed_early (o : Outcome) : bool :=
  match o with
  | NoFrames | ApiError | NoJsonObject | JsonDecodeError | ScoreError => true
  | Analyzed | CommentError => false
  end.

(** The transcript a failed analysis carries. *)
Definition transcript_kept (io : AnalyzerIO) (o : Outcome) : string :=
  match o with
  | NoFrames => EmptyString
  | _ => io_transcript io
  end.

Lemma early_failure_result lib io :
  failed_early (outcome lib io) = true ->
  analyze_reel lib io =
    mkResult 0 (PStr "unknown") (PStr EmptyString) (PStr EmptyString)
             (transcript_kept io (outcome lib io)).
Proof.
  unfold outcome, analyze_reel, analyze_reel_run.
  destruct (io_frames io); [reflexivity|].
  destruct (io_response io) as [content|]; [|reflexivity].
  destruct (re_search _) as [m|]; [|reflexivity].
  destruct (json_loads lib m) as [parsed|]; [|reflexivity].
  destruct (py_float lib _) as [score|]; [|reflexivity].
  cbn [suggested_comment].
  destruct (get parsed "suggested_comment" _); try discriminate.
  destruct (String.eqb _ _); discriminate.
Qed.

Lemma upper_of_lower a : PyStr.ascii_upper (PyStr.ascii_lower a) = PyStr.ascii_upper a.
Proof. destruct a as [[] [] [] [] [] [] [] []]; reflexivity. Qed.

Lemma caseless_eq_upper s : forall t,
  PyStr.caseless_eq s t = true -> PyStr.upper s = PyStr.upper t.
Proof.
  induction s as [|a s IH]; intros [|b t]; simpl; try discriminate; [reflexivity|].
  rewrite andb_true_iff. intros [Hab Hst].
  apply Ascii.eqb_eq in Hab.
  rewrite <- (upper_of_lower a), Hab, upper_of_lower. f_equal. now apply IH.
Qed.

Lemma skip_blanked lib io content m parsed s :
  io_frames io <> [] ->
  io_response io = Some content ->
  re_search (PyStr.strip content) = Some m ->
  json_loads lib m = Some parsed ->
  parsed !! "suggested_comment" = Some (PStr s) ->
  PyStr.caseless_eq s "SKIP" = true ->
  suggested_comment (analyze_reel lib io) = PStr EmptyString.
Proof.
  intros Hf Hr Hm Hj Hp Hs.
  unfold analyze_reel, analyze_reel_run.
  destruct (io_frames io); [congruence|].
  rewrite Hr, Hm, Hj.
  destruct (py_float lib _) as [score|]; [|reflexivity].
  assert (Hget : get parsed "suggested_comment" (PStr EmptyString) = PStr s)
    by (unfold get; now rewrite Hp).
  cbn [suggested_comment]. rewrite !Hget.
  apply caseless_eq_upper in Hs. rewrite Hs. reflexivity.
Qed.

End AnalyzerFacts.

(** ** Persisting an analysis, and skipping what is persisted *)

Section Persist.

Import Database Engager Session.

Variables (engager : Engager.t) (env : Env) (analyze_only : bool).

(** An item that gets through download is saved with the fields of its
    analysis, whatever the decision stage did. *)
Lemma iteration_persists i reel s :
  stop_requested env i = false ->
  (Z.of_nat (reels_processed s) < max_reels_per_session (config engager))%Z ->
  reel_already_analyzed (db (world s)) (reel_id reel) = false ->
  download_ok env i = true ->
  let s' := snd (iteration engager env analyze_only i reel s) in
  exists action_taken,
    reels_analyzed (db (world s')) !! reel_id reel =
      Some (mkReel (code reel) (user_username reel) (caption_text reel)
              (a_humor_score (analysis env i))
              (a_humor_category (analysis env i))
              (a_explanation (analysis env i))
              (a_transcript (analysis env i))
              action_taken (thumbnail_url reel)).
Proof.
  intros Hstop Hmax Hseen Hdl s'. unfold s'.
  destruct (iteration_cases engager env analyze_only i reel s)
    as [[H|H] | _ H | _ _ H | _ _ _]; try congruence; try lia.
  destruct (engaged_frame engager env analyze_only i reel s) as [_ Hreels].
  exists (action_str (fst (engaged engager env analyze_only i reel s))).
  cbn [snd]. unfold processed_state.
  destruct (_ <=? _)%Z; simpl; rewrite Hreels; apply lookup_insert_eq.
Qed.

(** An item whose identifier is in the store changes nothing. *)
Lemma iteration_skips j reel s :
  reel_already_analyzed (db (world s)) (reel_id reel) = true ->
  snd (iteration engager env analyze_only j reel s) = s.
Proof.
  intros Hseen.
  destruct (iteration_cases engager env analyze_only j reel s)
    as [_ | _ _ | _ H _ | _ H _]; try reflexivity; congruence.
Qed.

End Persist.

Section FailedAnalysis.

Import Database Engager Session Analyzer AnalyzerFacts.

(** The property as the specification words it, tested twice.  When the
    completion call raises after transcription, the result keeps the
    transcript.  When the response object has [null] as suggested comment,
    [.upper()] raises after the other fields were assigned, and the result
    keeps the parsed score. *)
Lemma failed_analysis_not_neutral :
  let io1 := mkIO ["frame"] "hello" None in
  let io2 := mkIO ["frame"] EmptyString (Some null_comment_response) in
  (failed (outcome demo_lib io1) = true /\
   transcript (analyze_reel demo_lib io1) = "hello" /\
   analyze_reel demo_lib io1 <> initial_result) /\
  (failed (outcome demo_lib io2) = true /\
   humor_score (analyze_reel demo_lib io2) = 9%Q /\
   humor_category (analyze_reel demo_lib io2) = PStr "gaming" /\
   analyze_reel demo_lib io2 <> initial_result).
Proof.
  cbv zeta. split.
  - split; [reflexivity|]. split; [reflexivity|].
    intros H. apply (f_equal transcript) in H. vm_compute in H. discriminate.
  - split; [reflexivity|]. split; [reflexivity|]. split; [reflexivity|].
    intros H. apply (f_equal humor_category) in H. vm_compute in H. discriminate.
Qed.

(** C8, amended.  When the analysis fails before any field of the response
    is assigned (no frames, the completion call raises, no object is found
    in the response, the object does not decode, or its score is not a
    number) the result has score 0, category "unknown", an empty explanation
    and an empty suggested comment; its transcript is what transcription
    returned, and empty when no frames were extracted.  An item analyzed
    with that result is saved with exactly these fields, and an item whose
    identifier is saved changes nothing when it is presented again. *)
Theorem early_failure_neutral_and_persisted lib io :
  failed_early (outcome lib io) = true ->
  let kept := transcript_kept io (outcome lib io) in
  let a := mkAnalysis 0 "unknown" EmptyString EmptyString kept in
  analyze_reel lib io =
    mkResult 0 (PStr "unknown") (PStr EmptyString) (PStr EmptyString) kept /\
  typed (analyze_reel lib io) = Some a /\
  (forall engager env analyze_only i reel s,
     analysis env i = a ->
     stop_requested env i = false ->
     (Z.of_nat (reels_processed s) < max_reels_per_session (config engager))%Z ->
     reel_already_analyzed (db (world s)) (reel_id reel) = false ->
     download_ok env i = true ->
     let s' := snd (iteration engager env analyze_only i reel s) in
     (exists action_taken,
        reels_analyzed (db (world s')) !! reel_id reel =
          Some (mkReel (code reel) (user_username reel) (caption_text reel)
                  0 "unknown" EmptyString kept action_taken
                  (thumbnail_url reel))) /\
     reel_already_analyzed (db (world s')) (reel_id reel) = true /\
     (forall j reel',
        reel_id reel' = reel_id reel ->
        snd (iteration engager env analyze_only j reel' s') = s')).
Proof.
  intros Hfail kept a.
  pose proof (early_failure_result lib io Hfail) as Hres. fold kept in Hres.
  split; [exact Hres|]. split; [rewrite Hres; reflexivity|].
  intros engager env analyze_only i reel s Ha Hstop Hmax Hseen Hdl s'.
  destruct (iteration_persists engager env analyze_only i reel s
              Hstop Hmax Hseen Hdl) as (act & Hrow).
  fold s' in Hrow. rewrite Ha in Hrow. simpl in Hrow.
  assert (Hin : reel_already_analyzed (db (world s')) (reel_id reel) = true)
    by (unfold reel_already_analyzed; now rewrite Hrow).
  split; [now exists act|]. split; [exact Hin|].
  intros j reel' Hid. apply iteration_skips. now rewrite Hid.
Qed.

Lemma early_failure_neutral_and_persisted_witness :
  let io := mkIO ["frame"] "hello" None in
  failed_early (outcome demo_lib io) = true /\
  analyze_reel demo_lib io =
    mkResult 0 (PStr "unknown") (PStr EmptyString) (PStr EmptyString) "hello" /\
  typed (analyze_reel demo_lib io) =
    Some (mkAnalysis 0 "unknown" EmptyString EmptyString "hello").
Proof.
  cbv zeta. split; [reflexivity|].
  destruct (early_failure_neutral_and_persisted demo_lib
              (mkIO ["frame"] "hello" None) eq_refl) as (H1 & H2 & _).
  split; [exact H1 | exact H2].
Defined.

(** C10.  When the response object is found and decoded and its suggested
    comment is a text equal to "SKIP" up to case, the result carries the
    empty suggested comment; and with an empty suggested comment the comment
    branch of the engine does nothing at all (no call, no record, no
    action), so a pass appends no comment record. *)
Theorem skip_never_comments lib io content m parsed s :
  io_frames io <> [] ->
  io_response io = Some content ->
  re_search (PyStr.strip content) = Some m ->
  json_loads lib m = Some parsed ->
  parsed !! "suggested_comment" = Some (PStr s) ->
  PyStr.caseless_eq s "SKIP" = true ->
  suggested_comment (analyze_reel lib io) = PStr EmptyString /\
  (forall a, typed (analyze_reel lib io) = Some a ->
     a_suggested_comment a = EmptyString /\
     forall self clk reel_id category reel_code w,
       comment_step self clk reel_id (a_humor_score a) (a_suggested_comment a) w
         = ([], w) /\
       Forall (fun r => e_action_type r <> comment)
         (appended (db w)
            (db (snd (process_engagement self clk reel_id (a_humor_score a)
                        category (a_suggested_comment a) reel_code w))))).
Proof.
  intros Hf Hr Hm Hj Hp Hs.
  pose proof (skip_blanked lib io content m parsed s Hf Hr Hm Hj Hp Hs) as Hblank.
  split; [exact Hblank|].
  intros a Ha. unfold typed in Ha. rewrite Hblank in Ha.
  destruct (humor_category _); try discriminate.
  destruct (explanation _); try discriminate.
  injection Ha as <-. cbn [a_suggested_comment a_humor_score].
  split; [reflexivity|].
  intros self clk reel_id category reel_code w. split.
  - unfold comment_step. cbn [PyStr.nonempty]. now rewrite andb_false_r.
  - destruct (pass_rows self clk reel_id (humor_score (analyze_reel lib io))
                category EmptyString reel_code w)
      as (a1 & lr & a2 & cr & a3 & sr & HL & HC & HS & _ & Hlog & _).
    unfold appended. rewrite Hlog, drop_app_length.
    apply like_outcome_rows in HL. destruct HL as (HLk & _).
    apply share_summary_rows in HS.
    unfold comment_outcome, comment_attempted in HC.
    cbn [PyStr.nonempty] in HC. rewrite andb_false_r in HC.
    destruct HC as [_ ->]. rewrite !Forall_app. repeat split.
    + eapply Forall_impl; [exact HLk|]. simpl. congruence.
    + constructor.
    + eapply Forall_impl; [exact HS|]. intros r (_ & Hk & _). congruence.
Qed.

End FailedAnalysis.

Lemma skip_never_comments_witness :
  let io := mkIO ["frame"] EmptyString (Some ("Here you go: " +:+ skip_object)) in
  io_frames io <> [] /\
  Analyzer.re_search (PyStr.strip ("Here you go: " +:+ skip_object))
    = Some skip_object /\
  PyStr.caseless_eq "Skip" "SKIP" = true /\
  Analyzer.suggested_comment (Analyzer.analyze_reel skip_lib io) = PStr EmptyString.
Proof.
  cbv zeta. split; [discriminate|]. split; [reflexivity|]. split; [reflexivity|].
  refine (proj1 (skip_never_comments skip_lib
              (mkIO ["frame"] EmptyString (Some ("Here you go: " +:+ skip_object)))
              ("Here you go: " +:+ skip_object) skip_object
              (<["suggested_comment" := PStr "Skip"]> ∅) "Skip"
              _ _ _ _ _ _)); try reflexivity.
  discriminate.
Defined.

(** * Further properties of the engine and the store *)

Section Matching.

Lemma caseless_eq_lower s : forall t,
  PyStr.caseless_eq s t = true -> PyStr.lower s = PyStr.lower t.
Proof.
  induction s as [|a s IH]; intros [|b t]; simpl; try discriminate; [reflexivity|].
  rewrite andb_true_iff. intros [Hab Hst].
  apply Ascii.eqb_eq in Hab. rewrite Hab. f_equal. now apply IH.
Qed.

Lemma caseless_map_lower ints ints' :
  Forall2 (fun a b => PyStr.caseless_eq a b = true) ints ints' ->
  List.map PyStr.lower ints = List.map PyStr.lower ints'.
Proof.
  induction 1 as [|a b l l' Hab _ IH]; [reflexivity|].
  simpl. now rewrite (caseless_eq_lower a b Hab), IH.
Qed.

(** X1.  On ASCII text matching ignores the case of letters on both sides:
    two profiles whose interests agree up to case match the same
    categories, and categories that agree up to case are matched alike.
    (Text outside ASCII is left out: there [str.lower()] folds letters that
    [PyStr.lower] keeps.) *)
Theorem matches_category_ignores_case u u' m m' ints ints' category category' :
  Forall (fun a => isascii a = true) (category :: category' :: ints ++ ints') ->
  Forall2 (fun a b => PyStr.caseless_eq a b = true) ints ints' ->
  PyStr.caseless_eq category category' = true ->
  matches_category (FriendProfile_init u ints m) category
  = matches_category (FriendProfile_init u' ints' m') category'.
Proof.
  intros _ Hi Hc. unfold matches_category, FriendProfile_init. simpl.
  now rewrite (caseless_map_lower _ _ Hi), (caseless_eq_lower _ _ Hc).
Qed.

Lemma matches_category_ignores_case_witness :
  Forall (fun a => isascii a = true) ["DARK"; "dark"; "Dark_Humor"; "dark_humor"] /\
  Forall2 (fun a b => PyStr.caseless_eq a b = true) ["Dark_Humor"] ["dark_humor"] /\
  PyStr.caseless_eq "DARK" "dark" = true /\
  matches_category (FriendProfile_init "bob" ["Dark_Humor"] 3) "DARK"
  = matches_category (FriendProfile_init "amy" ["dark_humor"] 1) "dark".
Proof.
  assert (H0 : Forall (fun a => isascii a = true)
                 ("DARK" :: "dark" :: ["Dark_Humor"] ++ ["dark_humor"]))
    by (repeat constructor).
  assert (H1 : Forall2 (fun a b => PyStr.caseless_eq a b = true)
                 ["Dark_Humor"] ["dark_humor"]) by (repeat constructor).
  split; [exact H0|]. split; [exact H1|]. split; [reflexivity|].
  apply (matches_category_ignores_case "bob" "amy" 3 1 ["Dark_Humor"]
           ["dark_humor"] "DARK" "dark" H0 H1).
  reflexivity.
Defined.

Lemma contains_empty s : PyStr.contains EmptyString s = true.
Proof. destruct s; reflexivity. Qed.

(** X2.  The edges of matching: a profile without interests matches no
    category; an empty interest matches every category; and the empty
    category is matched by every profile that has an interest at all. *)
Theorem matches_category_edges f category :
  (interests f = [] -> matches_category f category = false) /\
  (In EmptyString (interests f) -> matches_category f category = true) /\
  (interests f <> [] -> matches_category f EmptyString = true).
Proof.
  unfold matches_category. repeat split.
  - intros ->. reflexivity.
  - intros Hin. apply existsb_exists. exists EmptyString.
    split; [exact Hin|]. now rewrite contains_empty.
  - intros Hne. destruct (interests f) as [|i l]; [congruence|].
    simpl. now rewrite contains_empty, orb_true_r.
Qed.

End Matching.

Section ShareEdges.

Import Database Engager.

(** X3.  The share branch does not look at the score.  In a dry run, when
    the global share cap allows and some recipient matches the category
    with budget left, the pass writes exactly one share record, a success
    for the first such recipient in declaration order, and moves that
    recipient's counter for today up by one, whatever the score and the
    suggested comment are. *)
Theorem dry_run_shares_to_first_candidate
    self clk reel_id humor_score humor_category text reel_code w f rest :
  dry_run self = true ->
  _can_share self clk (db w) = true ->
  share_candidates self clk humor_category (db w) = f :: rest ->
  let w' := snd (process_engagement self clk reel_id humor_score
                   humor_category text reel_code w) in
  (exists r,
     share_records reel_id (db w) (db w') = [r] /\
     e_friend_username r = Some (username f) /\ e_success r = true) /\
  get_friend_share_count_today clk (db w') (username f)
  = S (get_friend_share_count_today clk (db w) (username f)).
Proof.
  intros Hdry Hcan Hcands w'.
  destruct (pass_rows self clk reel_id humor_score humor_category text
              reel_code w) as (a1 & lr & a2 & cr & a3 & sr & HL & HC & HS & _ & Hlog & _).
  fold w' in HS, Hlog.
  pose proof (share_summary_rows self clk _ _ _ _ _ _ HS) as HSk.
  apply like_outcome_rows in HL. destruct HL as (HLk & _).
  apply comment_outcome_rows in HC. destruct HC as (HCk & _).
  rewrite (share_records_split reel_id (db w) (db w') lr cr sr clk Hlog HLk HCk HSk).
  unfold share_summary in HS. rewrite Hcan in HS.
  destruct HS as (tried & rest' & Hc & _ & Hnames & _ & Hd & Hend).
  destruct (Hd Hdry) as [Hlen Hsucc].
  assert (Hlt : length sr = length tried).
  { apply (f_equal (@length _)) in Hnames. now rewrite !length_map in Hnames. }
  destruct Hend as [(_ & -> & Hfail & _) | (f0 & Hlast & _ & (r & Hr & Hs) & Hfs)].
  - rewrite app_nil_r in Hc. rewrite Hcands in Hc. subst tried.
    destruct sr as [|r sr]; [discriminate|].
    inversion Hfail; subst. inversion Hsucc; subst. congruence.
  - apply last_Some in Hr. destruct Hr as [pre ->].
    rewrite length_app in Hlen. simpl in Hlen.
    destruct pre; [|simpl in Hlen; lia]. simpl in *.
    destruct tried as [|t [|t' tried]]; try discriminate.
    simpl in Hlast. injection Hlast as ->.
    rewrite Hcands in Hc. injection Hc as -> _.
    split.
    + exists r. repeat split; [|exact Hs]. now injection Hnames.
    + unfold get_friend_share_count_today. rewrite Hfs. simpl.
      rewrite lookup_insert_eq.
      now destruct (friend_shares (db w) !! (username f0, today clk)).
Qed.

Lemma dry_run_shares_to_first_candidate_witness :
  let self := Engager.mk never_ok demo_config demo_friends true in
  let w := mkWorld Database.empty [] in
  dry_run self = true /\
  _can_share self demo_clock (db w) = true /\
  (exists f rest,
     share_candidates self demo_clock "cute_animals" (db w) = f :: rest /\
     get_friend_share_count_today demo_clock
       (db (snd (process_engagement self demo_clock "r1" 0 "cute_animals"
                   EmptyString "c1" w))) (username f) = 1).
Proof.
  cbv zeta. split; [reflexivity|]. split; [reflexivity|].
  eexists. eexists. split; [reflexivity|].
  refine (proj2 (dry_run_shares_to_first_candidate
            (Engager.mk never_ok demo_config demo_friends true) demo_clock
            "r1" 0 "cute_animals" EmptyString "c1" (mkWorld Database.empty [])
            _ _ eq_refl eq_refl eq_refl)).
Defined.

(** X4.  Without recipients there are no shares: when the directory is
    empty (also the result of a missing or unreadable file) a pass writes no
    share record and leaves every recipient counter alone. *)
Theorem no_recipients_no_shares
    self clk reel_id humor_score humor_category text reel_code w :
  friends self = [] ->
  let w' := snd (process_engagement self clk reel_id humor_score
                   humor_category text reel_code w) in
  share_records reel_id (db w) (db w') = [] /\
  friend_shares (db w') = friend_shares (db w).
Proof.
  intros Hnone w'.
  destruct (pass_rows self clk reel_id humor_score humor_category text
              reel_code w) as (a1 & lr & a2 & cr & a3 & sr & HL & HC & HS & _ & Hlog & _).
  fold w' in HS, Hlog.
  pose proof (share_summary_rows self clk _ _ _ _ _ _ HS) as HSk.
  apply like_outcome_rows in HL. destruct HL as (HLk & _).
  apply comment_outcome_rows in HC. destruct HC as (HCk & _).
  rewrite (share_records_split reel_id (db w) (db w') lr cr sr clk Hlog HLk HCk HSk).
  unfold share_summary in HS. destruct (_can_share self clk (db w)).
  - destruct HS as (tried & rest' & Hc & _ & Hnames & _ & _ & Hend).
    unfold share_candidates, _find_matching_friends in Hc. rewrite Hnone in Hc.
    simpl in Hc. symmetry in Hc. apply app_eq_nil in Hc. destruct Hc as [-> ->].
    destruct sr; [|discriminate]. split; [reflexivity|].
    destruct Hend as [(_ & _ & _ & Hfs) | (f0 & Hlast & _)];
      [exact Hfs | discriminate].
  - destruct HS as (_ & -> & Hfs). now split.
Qed.

Lemma no_recipients_no_shares_witness :
  let self := Engager.mk always_ok demo_config [] false in
  friends self = [] /\
  share_records "r1" Database.empty
    (db (snd (process_engagement self demo_clock "r1" 9 "cute_animals" "lol"
                "c1" (mkWorld Database.empty [])))) = [].
Proof.
  cbv zeta. split; [reflexivity|].
  apply (no_recipients_no_shares (Engager.mk always_ok demo_config [] false)
           demo_clock "r1" 9 "cute_animals" "lol" "c1"
           (mkWorld Database.empty []) eq_refl).
Defined.

(** X5.  The actions a pass reports are its successes: the returned list is
    as long as the number of successful records the pass appended, has at
    most three entries, and lists like, comment and share in that order. *)
Theorem actions_report_successes
    self clk reel_id humor_score humor_category text reel_code w :
  let res := process_engagement self clk reel_id humor_score humor_category
               text reel_code w in
  length (fst res) = successes (appended (db w) (db (snd res))) /\
  length (fst res) <= 3 /\
  exists (liked commented : bool) (shared : option FriendProfile),
    fst res =
      (if liked then ["like"] else []) ++
      (if commented then ["comment"] else []) ++
      match shared with
      | Some f => ["share:" +:+ username f]
      | None => []
      end.
Proof.
  intros res.
  destruct (pass_actions_count self clk reel_id humor_score humor_category text
              reel_code w) as [Hs Hle]. fold res in Hs, Hle.
  destruct (pass_rows self clk reel_id humor_score humor_category text
              reel_code w) as (a1 & lr & a2 & cr & a3 & sr & HL & HC & HS & Hacts & Hlog & _).
  fold res in HS, Hacts, Hlog.
  split; [|split; [exact Hle|]].
  - unfold appended. rewrite Hlog, drop_app_length.
    rewrite Hlog, successes_app in Hs. lia.
  - rewrite Hacts.
    assert (H1 : exists b : bool, a1 = if b then ["like"] else []).
    { unfold like_outcome in HL. destruct (like_attempted _ _ _ _).
      - destruct HL as (ok & _ & _ & -> & _). now exists ok.
      - destruct HL as [-> _]. now exists false. }
    assert (H2 : exists b : bool, a2 = if b then ["comment"] else []).
    { unfold comment_outcome in HC. destruct (comment_attempted _ _ _ _ _).
      - destruct HC as (ok & _ & _ & -> & _). now exists ok.
      - destruct HC as [-> _]. now exists false. }
    assert (H3 : exists o : option FriendProfile,
               a3 = match o with
                    | Some f => ["share:" +:+ username f]
                    | None => []
                    end).
    { unfold share_summary in HS. destruct (_can_share _ _ _).
      - destruct HS as (tried & rest' & _ & _ & _ & _ & _ & Hend).
        destruct Hend as [(-> & _) | (f0 & _ & -> & _)];
          [now exists None | now exists (Some f0)].
      - destruct HS as (-> & _). now exists None. }
    destruct H1 as [b1 ->], H2 as [b2 ->], H3 as [o ->]. now exists b1, b2, o.
Qed.

(** X6.  Counting after incrementing: one increment raises today's count of
    that recipient by exactly one and leaves the counts of every other
    recipient, the rows of every other date and the other tables alone. *)
Theorem increment_raises_one_count clk d u :
  get_friend_share_count_today clk (increment_friend_share_count clk d u) u
    = S (get_friend_share_count_today clk d u) /\
  (forall v, v <> u ->
     get_friend_share_count_today clk (increment_friend_share_count clk d u) v
       = get_friend_share_count_today clk d v) /\
  (forall v dt, dt <> today clk ->
     friend_shares (increment_friend_share_count clk d u) !! (v, dt)
       = friend_shares d !! (v, dt)) /\
  engagement_log (increment_friend_share_count clk d u) = engagement_log d /\
  reels_analyzed (increment_friend_share_count clk d u) = reels_analyzed d.
Proof.
  unfold get_friend_share_count_today, increment_friend_share_count. simpl.
  repeat split.
  - rewrite lookup_insert_eq. now destruct (friend_shares d !! (u, today clk)).
  - intros v Hv. rewrite lookup_insert_ne; [reflexivity | congruence].
  - intros v dt Hdt. rewrite lookup_insert_ne; [reflexivity | congruence].
Qed.

Lemma lookup_kept (fs : gmap (string * string) nat) (l : list string) k :
  filter (fun kv : (string * string) * nat => kv.1.1 ∈ l) fs !! k =
  if decide (k.1 ∈ l) then fs !! k else None.
Proof.
  destruct (fs !! k) as [n|] eqn:Hk.
  - destruct (decide (k.1 ∈ l)) as [Hin|Hin].
    + apply map_lookup_filter_Some. now split.
    + apply map_lookup_filter_None. right. intros n' Hn'. simpl. exact Hin.
  - destruct (decide _); apply map_lookup_filter_None; now left.
Qed.

(** X7.  Syncing twice is syncing once, and the sync never changes what a
    configured recipient has received today, so it never changes whether
    that recipient may still be shared to. *)
Theorem sync_idempotent_and_harmless self clk d f :
  _sync_friends_to_db self (_sync_friends_to_db self d)
    = _sync_friends_to_db self d /\
  (In f (friends self) ->
   get_friend_share_count_today clk (_sync_friends_to_db self d) (username f)
     = get_friend_share_count_today clk d (username f) /\
   _can_share_to_friend clk (_sync_friends_to_db self d) f
     = _can_share_to_friend clk d f).
Proof.
  unfold _sync_friends_to_db.
  destruct (List.map username (friends self)) as [|u0 us] eqn:E.
  - split; [reflexivity|]. intros Hf. apply (in_map username) in Hf.
    rewrite E in Hf. destruct Hf.
  - split.
    + unfold delete_friend_shares_not_in. simpl. f_equal.
      apply map_eq. intros k. rewrite !lookup_kept. now destruct (decide _).
    + intros Hf. apply (in_map username) in Hf. rewrite E in Hf.
      apply list_elem_of_In in Hf.
      assert (Hc : get_friend_share_count_today clk
                     (delete_friend_shares_not_in d (u0 :: us)) (username f)
                   = get_friend_share_count_today clk d (username f)).
      { unfold get_friend_share_count_today, delete_friend_shares_not_in.
        simpl. rewrite lookup_kept. simpl. now destruct (decide _). }
      split; [exact Hc|]. unfold _can_share_to_friend. now rewrite Hc.
Qed.

Lemma sync_idempotent_and_harmless_witness :
  let self := Engager.mk always_ok demo_config demo_friends false in
  let d := Database.mk ∅ [] {[ ("bob", "2024-03-01") := 2 ]} in
  In (FriendProfile_init "bob" ["Animals"] 3) (friends self) /\
  get_friend_share_count_today demo_clock (_sync_friends_to_db self d) "bob"
    = get_friend_share_count_today demo_clock d "bob".
Proof.
  cbv zeta. split; [now left|].
  refine (proj1 (proj2 (sync_idempotent_and_harmless
            (Engager.mk always_ok demo_config demo_friends false) demo_clock
            (Database.mk ∅ [] {[ ("bob", "2024-03-01") := 2 ]})
            (FriendProfile_init "bob" ["Animals"] 3)) _)).
  now left.
Defined.

End ShareEdges.

(** * Further properties of the session loop *)

Section SessionFacts.

Import Database Engager Session.

Lemma count_events_app p t1 t2 :
  count_events p (t1 ++ t2) = count_events p t1 + count_events p t2.
Proof. unfold count_events. now rewrite List.filter_app, length_app. Qed.

Lemma count_events_one p e : count_events p [e] = if p e then 1 else 0.
Proof. unfold count_events. simpl. now destruct (p e). Qed.

Lemma count_events_platform p evs :
  (forall c, p (EvPlatform c) = false) ->
  Forall (fun e => is_platform e = true) evs -> count_events p evs = 0.
Proof.
  intros Hp. unfold count_events.
  induction 1 as [|e evs He _ IH]; [reflexivity|].
  destruct e; try discriminate. simpl. now rewrite Hp.
Qed.

(** The rows a pass appends all reference the item of the pass. *)
Lemma pass_appended_for_item self clk reel_id humor_score humor_category text
    reel_code w :
  exists rows,
    engagement_log (db (snd (process_engagement self clk reel_id humor_score
                               humor_category text reel_code w)))
      = engagement_log (db w) ++ rows /\
    Forall (fun r => e_reel_id r = reel_id) rows.
Proof.
  destruct (pass_rows self clk reel_id humor_score humor_category text
              reel_code w) as (a1 & lr & a2 & cr & a3 & sr & HL & HC & HS & _ & Hlog & _).
  exists (lr ++ cr ++ sr). split; [exact Hlog|].
  rewrite !Forall_app. repeat split.
  - unfold like_outcome in HL. destruct (like_attempted _ _ _ _).
    + destruct HL as (ok & err & _ & _ & ->). now repeat constructor.
    + destruct HL as [_ ->]. constructor.
  - unfold comment_outcome in HC. destruct (comment_attempted _ _ _ _ _).
    + destruct HC as (ok & err & _ & _ & ->). now repeat constructor.
    + destruct HC as [_ ->]. constructor.
  - apply share_summary_rows in HS. eapply Forall_impl; [exact HS|].
    intros r (Hid & _). exact Hid.
Qed.

Variables (engager : Engager.t) (env : Env) (analyze_only : bool).

(** The store after an item was processed is the store the decision stage
    left, with the item's row put in. *)
Lemma processed_state_db i reel s acts w1 :
  db (world (processed_state engager env i reel s acts w1)) =
  save_reel_analysis (db w1) (reel_id reel)
    (mkReel (code reel) (user_username reel) (caption_text reel)
       (a_humor_score (analysis env i)) (a_humor_category (analysis env i))
       (a_explanation (analysis env i)) (a_transcript (analysis env i))
       (action_str acts) (thumbnail_url reel)).
Proof. unfold processed_state. now destruct (_ <=? _)%Z. Qed.

(** The decision stage appends rows of the item only. *)
Lemma engaged_rows i reel s :
  exists rows,
    engagement_log (db (snd (engaged engager env analyze_only i reel s)))
      = engagement_log (db (world s)) ++ rows /\
    Forall (fun r => e_reel_id r = reel_id reel) rows /\
    (analyze_only = true -> rows = []).
Proof.
  unfold engaged. destruct analyze_only.
  - exists []. simpl. rewrite app_nil_r. repeat split. constructor.
  - destruct (pass_appended_for_item engager (clock env i) (reel_id reel)
                (a_humor_score (analysis env i))
                (a_humor_category (analysis env i))
                (a_suggested_comment (analysis env i)) (code reel)
                (analyzed_world reel s)) as (rows & Hlog & Hall).
    exists rows. repeat split; try assumption. discriminate.
Qed.

Variable d0 : Database.t.

(** What a session keeps of the store it started from, and what its new
    rows refer to. *)
Definition keeps_store (s : state) : Prop :=
  (forall id row, reels_analyzed d0 !! id = Some row ->
                  reels_analyzed (db (world s)) !! id = Some row) /\
  exists rows,
    engagement_log (db (world s)) = engagement_log d0 ++ rows /\
    Forall (fun r => reel_already_analyzed (db (world s)) (e_reel_id r) = true)
           rows.

Lemma keeps_store_step i reel s :
  keeps_store s ->
  keeps_store (snd (iteration engager env analyze_only i reel s)).
Proof.
  intros Hinv.
  destruct (iteration_cases engager env analyze_only i reel s)
    as [Hstop | Hstop Hseen | Hstop Hseen Hdl | Hstop Hseen Hdl]; simpl;
    try exact Hinv.
  destruct Hinv as (Hold & rows & Hlog & Hrefs).
  destruct (engaged_frame engager env analyze_only i reel s) as [_ Hreels].
  destruct (engaged_rows i reel s) as (rows' & Hlog' & Hitem & _).
  unfold keeps_store. rewrite processed_state_db.
  unfold reel_already_analyzed in *. simpl. rewrite Hreels. split.
  - intros id row Hrow. rewrite lookup_insert_ne; [now apply Hold|].
    intros <-. apply Hold in Hrow. now rewrite Hrow in Hseen.
  - exists (rows ++ rows'). split; [now rewrite Hlog', Hlog, app_assoc|].
    apply Forall_app. split.
    + eapply Forall_impl; [exact Hrefs|]. simpl. intros r Hr.
      destruct (decide (reel_id reel = e_reel_id r)) as [<-|Hne].
      * now rewrite lookup_insert_eq.
      * now rewrite lookup_insert_ne.
    + eapply Forall_impl; [exact Hitem|]. simpl. intros r ->.
      now rewrite lookup_insert_eq.
Qed.

(** The counters of a session: every processed item was analyzed once, saved
    once and waited for once, and put one new row into [reels_analyzed]. *)
Definition counted_items (s : state) : Prop :=
  count_events is_any_analyze (trace (world s)) = reels_processed s /\
  count_events is_any_save (trace (world s)) = reels_processed s /\
  count_events is_wait (trace (world s)) = reels_processed s /\
  reels_processed s <= count_events is_any_download (trace (world s)) /\
  size (reels_analyzed (db (world s))) = size (reels_analyzed d0) + reels_processed s /\
  (Z.of_nat (reels_processed s)
     <= Z.max 0 (max_reels_per_session (config engager)))%Z.

Lemma iteration_processed_bound i reel s :
  let s' := snd (iteration engager env analyze_only i reel s) in
  reels_processed s' = reels_processed s \/
  (reels_processed s' = S (reels_processed s) /\
   (Z.of_nat (reels_processed s) < max_reels_per_session (config engager))%Z).
Proof.
  unfold iteration.
  destruct (stop_requested env i); [now left|].
  destruct (_ <=? _)%Z eqn:Hm; [now left|]. apply Z.leb_gt in Hm.
  destruct (reel_already_analyzed _ _); [now left|].
  destruct (download_ok env i); simpl; [|now left].
  destruct analyze_only.
  - destruct (cooldown_after_actions _ <=? _)%Z; right; now split.
  - destruct (process_engagement _ _ _ _ _ _ _ _) as [acts w1].
    destruct (cooldown_after_actions _ <=? _)%Z; right; now split.
Qed.

Lemma counted_items_step i reel s :
  counted_items s ->
  counted_items (snd (iteration engager env analyze_only i reel s)).
Proof.
  intros Hinv.
  pose proof (iteration_processed_bound i reel s) as Hbound.
  destruct (iteration_cases engager env analyze_only i reel s)
    as [Hstop | Hstop Hseen | Hstop Hseen Hdl | Hstop Hseen Hdl];
    try exact Hinv.
  - destruct Hinv as (Ha & Hs & Hw & Hd & Hsz & Hmax).
    unfold counted_items. simpl. rewrite !count_events_app, !count_events_one.
    simpl. rewrite !Nat.add_0_r. repeat split; try assumption. lia.
  - destruct Hinv as (Ha & Hs & Hw & Hd & Hsz & Hmax).
    destruct (engaged_frame engager env analyze_only i reel s)
      as [(evs & Ht & Hevs) Hreels].
    cbn [snd] in Hbound |- *.
    set (r := engaged engager env analyze_only i reel s) in *.
    assert (Hproc : reels_processed (processed_state engager env i reel s (fst r) (snd r))
                    = S (reels_processed s))
      by (unfold processed_state; now destruct (_ <=? _)%Z).
    assert (Htr : exists tl,
               trace (world (processed_state engager env i reel s (fst r) (snd r))) =
                 trace (world s) ++ [EvDownload (reel_id reel)]
                   ++ [EvAnalyze (reel_id reel)] ++ evs
                   ++ [EvSave (reel_id reel)] ++ tl ++ [EvWait] /\
               Forall (fun e => is_cooldown e = true) tl).
    { unfold processed_state.
      destruct (_ <=? _)%Z; simpl; rewrite Ht; unfold analyzed_world; simpl.
      - exists [EvCooldown (cooldown_duration_seconds (config engager))].
        split; [now rewrite <- !app_assoc | now repeat constructor].
      - exists []. split; [now rewrite <- !app_assoc | constructor]. }
    destruct Htr as (tl & Htr & Htl).
    assert (Hz : forall p, (forall x, p (EvCooldown x) = false) ->
                           count_events p tl = 0).
    { intros p Hp. unfold count_events. clear Htr.
      induction Htl as [|e tl He _ IH]; [reflexivity|].
      destruct e; try discriminate. simpl. now rewrite Hp. }
    unfold counted_items. rewrite Hproc, Htr.
    rewrite !count_events_app, !count_events_one.
    rewrite !(count_events_platform _ evs) by (assumption || reflexivity).
    rewrite !Hz by reflexivity. simpl.
    rewrite processed_state_db. simpl. rewrite Hreels.
    rewrite map_size_insert_None.
    + repeat split; lia.
    + unfold reel_already_analyzed in Hseen.
      now destruct (reels_analyzed (db (world s)) !! reel_id reel).
Qed.

(** Every new row is for an item the analyzer was called on in the
    session, and one the store did not hold when the session began. *)
Definition engages_analyzed (s : state) : Prop :=
  exists rows,
    engagement_log (db (world s)) = engagement_log d0 ++ rows /\
    Forall (fun r => In (EvAnalyze (e_reel_id r)) (trace (world s)) /\
                     reel_already_analyzed d0 (e_reel_id r) = false)
           rows.

Lemma processed_state_trace i reel s :
  let r := engaged engager env analyze_only i reel s in
  exists tl,
    trace (world (processed_state engager env i reel s (fst r) (snd r)))
    = trace (world s) ++ EvDownload (reel_id reel) :: EvAnalyze (reel_id reel) :: tl.
Proof.
  intros r.
  destruct (engaged_frame engager env analyze_only i reel s)
    as [(evs & Ht & _) _].
  fold r in Ht. unfold processed_state.
  destruct (_ <=? _)%Z; simpl; rewrite Ht; unfold analyzed_world; simpl;
    eexists; rewrite <- !app_assoc; simpl; reflexivity.
Qed.

Lemma engages_analyzed_step i reel s :
  keeps_store s -> engages_analyzed s ->
  engages_analyzed (snd (iteration engager env analyze_only i reel s)).
Proof.
  intros (Hold & _) Hinv.
  destruct (iteration_cases engager env analyze_only i reel s)
    as [Hstop | Hstop Hseen | Hstop Hseen Hdl | Hstop Hseen Hdl]; simpl;
    try exact Hinv.
  - destruct Hinv as (rows & Hlog & Hall). exists rows. split; [exact Hlog|].
    eapply Forall_impl; [exact Hall|]. simpl. intros r [Hin Hnew].
    split; [|exact Hnew]. apply in_or_app. now left.
  - destruct Hinv as (rows & Hlog & Hall).
    destruct (engaged_rows i reel s) as (rows' & Hlog' & Hitem & _).
    destruct (processed_state_trace i reel s) as (tl & Htr).
    unfold engages_analyzed. rewrite processed_state_db, Htr. simpl.
    exists (rows ++ rows'). split; [now rewrite Hlog', Hlog, app_assoc|].
    apply Forall_app. split.
    + eapply Forall_impl; [exact Hall|]. simpl. intros r [Hin Hnew].
      split; [|exact Hnew]. apply in_or_app. now left.
    + eapply Forall_impl; [exact Hitem|]. simpl. intros r ->. split.
      * apply in_or_app. right. right. now left.
      * unfold reel_already_analyzed in *.
        destruct (reels_analyzed d0 !! reel_id reel) as [row|] eqn:E;
          [|reflexivity].
        apply Hold in E. now rewrite E in Hseen.
Qed.

End SessionFacts.

Section SessionTheorems.

Import Database Engager Session.

Variables (platform : Platform) (cfg : Config) (friends : list FriendProfile).
Variables (env : Env) (dry_run analyze_only : bool).
Variables (feed : list ReelData) (d : Database.t).

Let engager := Engager.mk platform cfg friends (dry_run || analyze_only).
Let final := run_session platform cfg friends env dry_run analyze_only feed d.

Lemma sync_keeps_reels_and_log :
  reels_analyzed (_sync_friends_to_db engager d) = reels_analyzed d /\
  engagement_log (_sync_friends_to_db engager d) = engagement_log d.
Proof.
  unfold _sync_friends_to_db. now destruct (List.map username _).
Qed.

Lemma session_keeps_store : keeps_store d final.
Proof.
  unfold final, run_session. fold engager.
  destruct sync_keeps_reels_and_log as [Hr Hl].
  assert (H0 : keeps_store d
                 (mkState (mkWorld (_sync_friends_to_db engager d) []) 0 0)).
  { split; simpl.
    - intros id row. now rewrite Hr.
    - exists []. rewrite app_nil_r. split; [exact Hl | constructor]. }
  destruct (login_ok env); [|exact H0].
  apply loop_invariant; [|exact H0].
  intros i reel s. apply keeps_store_step.
Qed.

Lemma session_counted : counted_items engager d final.
Proof.
  unfold final, run_session. fold engager.
  destruct sync_keeps_reels_and_log as [Hr Hl].
  assert (H0 : counted_items engager d
                 (mkState (mkWorld (_sync_friends_to_db engager d) []) 0 0)).
  { unfold counted_items. simpl. rewrite Hr. repeat split; lia. }
  destruct (login_ok env); [|exact H0].
  apply loop_invariant; [|exact H0].
  intros i reel s. apply counted_items_step.
Qed.

Lemma session_engages_analyzed : engages_analyzed d final.
Proof.
  unfold final, run_session. fold engager.
  destruct sync_keeps_reels_and_log as [Hr Hl].
  assert (H0 : keeps_store d
                 (mkState (mkWorld (_sync_friends_to_db engager d) []) 0 0) /\
               engages_analyzed d
                 (mkState (mkWorld (_sync_friends_to_db engager d) []) 0 0)).
  { split; [split|]; simpl.
    - intros id row. now rewrite Hr.
    - exists []. rewrite app_nil_r. split; [exact Hl | constructor].
    - exists []. simpl. rewrite app_nil_r. split; [exact Hl | constructor]. }
  destruct (login_ok env); [|exact (proj2 H0)].
  apply (loop_invariant engager env analyze_only
           (fun s => keeps_store d s /\ engages_analyzed d s)); [|exact H0].
  intros i reel s [Hk He]. split.
  - now apply keeps_store_step.
  - now apply engages_analyzed_step.
Qed.

End SessionTheorems.

(** X8.  A session never rewrites what the store held: the engagement log
    it leaves begins with the log it found, and every row of
    [reels_analyzed] that was there is still there, unchanged (the upsert
    never replaces a row, since stored items are skipped). *)
Theorem session_never_rewrites
    platform cfg friends env dry_run analyze_only feed d :
  let s := Session.run_session platform cfg friends env dry_run analyze_only
             feed d in
  (exists rows,
     Database.engagement_log (db (Session.world s))
       = Database.engagement_log d ++ rows) /\
  (forall id row,
     Database.reels_analyzed d !! id = Some row ->
     Database.reels_analyzed (db (Session.world s)) !! id = Some row).
Proof.
  intros s.
  destruct (session_keeps_store platform cfg friends env dry_run analyze_only
              feed d) as (Hold & rows & Hlog & _).
  split; [now exists rows | exact Hold].
Qed.

(** X9.  A session engages only with what it analyzed: every engagement
    record it writes is for an item the analyzer was called on during that
    session, and never for an item the store already held when the session
    began (such an item is skipped, not engaged with again). *)
Theorem session_engages_only_analyzed_items
    platform cfg friends env dry_run analyze_only feed d :
  let s := Session.run_session platform cfg friends env dry_run analyze_only
             feed d in
  Forall (fun r =>
            In (EvAnalyze (e_reel_id r)) (trace (Session.world s)) /\
            Database.reel_already_analyzed d (e_reel_id r) = false)
         (appended d (db (Session.world s))).
Proof.
  intros s.
  destruct (session_engages_analyzed platform cfg friends env dry_run
              analyze_only feed d) as (rows & Hlog & Hall).
  unfold appended. fold s in Hlog. now rewrite Hlog, drop_app_length.
Qed.

(** X10.  The item counter of a session is the number of saves made and the
    number of rows [reels_analyzed] gained.  It never exceeds the number of
    analyzer calls, which is at most one more, nor the number of downloads,
    nor the configured maximum (nothing is processed when the maximum is
    zero or negative); and there are no more pacing waits than counted
    items, so a skipped item and a failed download are not waited for. *)
Theorem session_counts_items
    platform cfg friends env dry_run analyze_only feed d :
  let s := Session.run_session platform cfg friends env dry_run analyze_only
             feed d in
  let n := Session.reels_processed s in
  count_events is_any_save (trace (Session.world s)) = n /\
  size (Database.reels_analyzed (db (Session.world s)))
    = size (Database.reels_analyzed d) + n /\
  n <= count_events is_any_analyze (trace (Session.world s)) <= S n /\
  count_events is_wait (trace (Session.world s)) <= n /\
  n <= count_events is_any_download (trace (Session.world s)) /\
  (Z.of_nat n <= Z.max 0 (max_reels_per_session cfg))%Z.
Proof.
  intros s n.
  destruct (session_counted platform cfg friends env dry_run analyze_only
              feed d) as (Ha & Hs & Hw & Hd & Hsz & Hmax).
  fold s in Ha, Hs, Hw, Hd, Hsz, Hmax. fold n in Ha, Hs, Hw, Hd, Hsz, Hmax.
  split; [exact Hs|]. split; [exact Hsz|]. split; [lia|].
  split; [lia|]. split; [exact Hd | exact Hmax].
Qed.

Section AnalyzeOnly.

Import Database Engager Session.

Variables (engager : Engager.t) (env : Env) (d1 : Database.t).

(** What holds throughout an analyze-only session that started with the
    store [d1] (after the sync). *)
Definition untouched_engagement (s : state) : Prop :=
  engagement_log (db (world s)) = engagement_log d1 /\
  friend_shares (db (world s)) = friend_shares d1 /\
  platform_calls (trace (world s)) = [] /\
  actions_since_cooldown s = 0 /\
  ((0 < cooldown_after_actions (config engager))%Z ->
   cooldowns (trace (world s)) = 0) /\
  (forall id row,
     reels_analyzed d1 !! id = None ->
     reels_analyzed (db (world s)) !! id = Some row ->
     r_action_taken row = "none").

Lemma untouched_engagement_step i reel s :
  untouched_engagement s ->
  untouched_engagement (snd (iteration engager env true i reel s)).
Proof.
  intros Hinv.
  destruct (iteration_cases engager env true i reel s)
    as [Hstop | Hstop Hseen | Hstop Hseen Hdl | Hstop Hseen Hdl];
    try exact Hinv.
  - destruct Hinv as (Hl & Hf & Hp & Hc & Hcd & Hrows).
    unfold untouched_engagement, platform_calls in *. simpl.
    rewrite List.filter_app, Hp, cooldowns_app, cooldowns_one. simpl.
    repeat split; try assumption. intros HN. rewrite (Hcd HN). reflexivity.
  - destruct Hinv as (Hl & Hf & Hp & Hc & Hcd & Hrows).
    cbn [snd]. unfold engaged. cbn [fst snd].
    unfold untouched_engagement. rewrite processed_state_db.
    unfold processed_state, analyzed_world, platform_calls in *.
    rewrite Hc. simpl.
    assert (Hrow : forall id row,
              reels_analyzed d1 !! id = None ->
              <[reel_id reel :=
                  mkReel (code reel) (user_username reel) (caption_text reel)
                    (a_humor_score (analysis env i))
                    (a_humor_category (analysis env i))
                    (a_explanation (analysis env i))
                    (a_transcript (analysis env i)) "none" (thumbnail_url reel)]>
                (reels_analyzed (db (world s))) !! id = Some row ->
              r_action_taken row = "none").
    { intros id row Hnew. destruct (decide (reel_id reel = id)) as [<-|Hne].
      - rewrite lookup_insert_eq. now intros [= <-].
      - rewrite lookup_insert_ne by exact Hne. now apply Hrows. }
    change (Z.of_nat 0) with 0%Z.
    destruct (cooldown_after_actions (config engager) <=? 0)%Z eqn:HN;
      unfold save, emit; simpl;
      rewrite !List.filter_app, Hp, !cooldowns_app, !cooldowns_one; simpl.
    + apply Z.leb_le in HN. repeat split; try assumption. lia.
    + repeat split; try assumption. intros HN'. rewrite (Hcd HN'). reflexivity.
Qed.

End AnalyzeOnly.

(** X11.  An analyze-only session does no engagement: it writes no
    engagement record, moves no recipient counter, makes no platform action
    call, reports no action for any item it saves, and (for a positive
    trigger count) never pauses for a cooldown. *)
Theorem analyze_only_does_not_engage platform cfg friends env dry_run feed d :
  let s := Session.run_session platform cfg friends env dry_run true feed d in
  let self := Engager.mk platform cfg friends (dry_run || true) in
  Database.engagement_log (db (Session.world s)) = Database.engagement_log d /\
  Database.friend_shares (db (Session.world s))
    = Database.friend_shares (Engager._sync_friends_to_db self d) /\
  platform_calls (trace (Session.world s)) = [] /\
  Session.actions_since_cooldown s = 0 /\
  ((0 < cooldown_after_actions cfg)%Z -> cooldowns (trace (Session.world s)) = 0) /\
  (forall id row,
     Database.reels_analyzed d !! id = None ->
     Database.reels_analyzed (db (Session.world s)) !! id = Some row ->
     r_action_taken row = "none").
Proof.
  intros s self.
  assert (H : untouched_engagement self (Engager._sync_friends_to_db self d) s).
  { unfold s, Session.run_session. fold self.
    set (s0 := Session.mkState _ 0 0).
    assert (H0 : untouched_engagement self (Engager._sync_friends_to_db self d) s0).
    { unfold untouched_engagement, s0. simpl. repeat split.
      intros id row Hnone Hsome. congruence. }
    destruct (login_ok env); [|exact H0].
    apply loop_invariant; [|exact H0].
    intros i reel st. apply untouched_engagement_step. }
  destruct H as (Hl & Hf & Hp & Hc & Hcd & Hrows).
  destruct (sync_keeps_reels_and_log platform cfg friends dry_run true d)
    as [Hr Hlog].
  fold self in Hr, Hlog. rewrite Hlog in Hl. rewrite Hr in Hrows.
  repeat split; assumption.
Qed.



(** * Further properties of the analyzer *)

Section Search.

Import Analyzer.

Lemma app_cons c (a b : string) : String c a +:+ b = String c (a +:+ b).
Proof. reflexivity. Qed.

Lemma app_empty (b : string) : EmptyString +:+ b = b.
Proof. reflexivity. Qed.

Lemma span_body_spec s :
  s = fst (span_body s) +:+ snd (span_body s) /\
  brace_free (fst (span_body s)) = true /\
  (snd (span_body s) = EmptyString \/
   exists tl, snd (span_body s) = String "}" tl).
Proof.
  induction s as [|c r (IH1 & IH2 & IH3)]; cbn [span_body].
  - repeat split. now left.
  - destruct (Ascii.eqb c "}") eqn:Hc.
    + apply Ascii.eqb_eq in Hc. subst c. cbn [fst snd brace_free].
      rewrite app_empty. repeat split. right. now exists r.
    + destruct (span_body r) as [b tl]. cbn [fst snd brace_free] in *.
      rewrite app_cons, Hc, <- IH1. repeat split; assumption.
Qed.

Lemma span_body_app body post :
  brace_free body = true ->
  span_body (body +:+ String "}" post) = (body, String "}" post).
Proof.
  induction body as [|c b IH]; [reflexivity|].
  cbn [brace_free]. rewrite andb_true_iff, negb_true_iff. intros [Hc Hb].
  rewrite app_cons. cbn [span_body]. now rewrite Hc, (IH Hb).
Qed.

Lemma app_string_assoc (a b c : string) : (a +:+ b) +:+ c = a +:+ (b +:+ c).
Proof.
  induction a as [|x a IH]; [reflexivity|]. now rewrite !app_cons, IH.
Qed.

(** X13.  What the search for the response object finds.  A match is a part
    of the text of the form opening brace, a non-empty body without closing
    brace, closing brace; and the search succeeds exactly when the text has
    such a part.  So the match never holds a nested object that is closed. *)
Theorem re_search_finds_flat_objects s :
  (forall m, re_search s = Some m ->
     exists pre body post,
       s = pre +:+ m +:+ post /\
       m = String "{" (body +:+ "}") /\
       body <> EmptyString /\ brace_free body = true) /\
  ((exists pre body post,
      s = pre +:+ String "{" (body +:+ String "}" post) /\
      body <> EmptyString /\ brace_free body = true) ->
   exists m, re_search s = Some m).
Proof.
  split.
  - induction s as [|c r IH]; intros m; cbn [re_search]; [discriminate|].
    assert (Hrest : re_search r = Some m ->
                    exists pre body post,
                      String c r = pre +:+ m +:+ post /\
                      m = String "{" (body +:+ "}") /\
                      body <> EmptyString /\ brace_free body = true).
    { intros H. destruct (IH m H) as (pre & body & post & Hs & Hm & Hb & Hf).
      exists (String c pre), body, post. rewrite app_cons, <- Hs.
      now repeat split. }
    destruct (Ascii.eqb c "{") eqn:Hc; [|exact Hrest].
    apply Ascii.eqb_eq in Hc. subst c.
    destruct (span_body_spec r) as (Hr & Hfree & Htl).
    destruct (span_body r) as [[|b0 b] [|t0 tl]]; cbn [fst snd] in *;
      try exact Hrest.
    intros [= <-].
    destruct Htl as [Htl | [tl' [= -> ->]]]; [discriminate|].
    exists EmptyString, (String b0 b), tl'. rewrite app_empty.
    split; [|split; [reflexivity | split; [discriminate | exact Hfree]]].
    rewrite app_cons. f_equal. rewrite Hr at 1.
    now rewrite app_string_assoc.
  - intros (pre & body & post & -> & Hne & Hfree).
    induction pre as [|c pre IH].
    + rewrite app_empty. cbn [re_search].
      rewrite (span_body_app body post Hfree).
      destruct body as [|b0 b]; [congruence|]. cbn. eauto.
    + destruct IH as [m Hm]. rewrite app_cons. cbn [re_search]. rewrite Hm.
      destruct (Ascii.eqb c "{"); [|eauto].
      destruct (span_body _) as [[|b0 b] [|t0 tl]]; eauto.
Qed.

End Search.

Section AnalyzerResult.

Import Analyzer.

(** X15.  Whatever goes wrong after the frames were extracted, the result
    keeps the transcript that transcription returned; and when no frame was
    extracted the result is the initial one, whatever the model would have
    answered. *)
Theorem transcript_is_kept lib io :
  (io_frames io <> [] -> transcript (analyze_reel lib io) = io_transcript io) /\
  (io_frames io = [] -> analyze_reel lib io = initial_result).
Proof.
  unfold analyze_reel, analyze_reel_run. split.
  - intros Hf. destruct (io_frames io); [congruence|].
    destruct (io_response io) as [content|]; [|reflexivity].
    destruct (re_search _) as [m|]; [|reflexivity].
    destruct (json_loads lib m) as [parsed|]; [|reflexivity].
    destruct (py_float lib _) as [score|]; [|reflexivity].
    cbn [suggested_comment].
    destruct (get parsed "suggested_comment" _); try reflexivity.
    now destruct (String.eqb _ _).
  - intros ->. reflexivity.
Qed.

End AnalyzerResult.

Section Frames.

Local Open Scope Z_scope.

(** The position of the [i]-th of [num] frames spread over [total]. *)
Let spread (total num i : Z) : Z := i * (total - 1) / (num - 1).

Lemma py_range_lookup n (i : nat) :
  (i < Z.to_nat n)%nat -> py_range n !! i = Some (Z.of_nat i).
Proof.
  intros Hi. unfold py_range.
  change (List.map Z.of_nat (seq 0 (Z.to_nat n)))
    with (Z.of_nat <$> seq 0 (Z.to_nat n)).
  rewrite list_lookup_fmap, lookup_seq_lt by exact Hi. reflexivity.
Qed.

Lemma py_range_length n : length (py_range n) = Z.to_nat n.
Proof. unfold py_range. now rewrite length_map, length_seq. Qed.

Lemma py_range_nonneg n : Forall (fun i => 0 <= i < n) (py_range n).
Proof.
  unfold py_range. apply Forall_forall. intros x Hx.
  apply list_elem_of_In, in_map_iff in Hx. destruct Hx as (k & <- & Hk).
  apply in_seq in Hk. lia.
Qed.

(** Rounding at an exponent [-k] where the quotient has 53 bits does not
    change the integer part of a quotient whose dividend is below 2^53. *)
Lemma round_exact a b k m :
  0 < a < 2 ^ 53 -> 0 < b -> 0 <= k ->
  2 ^ 52 <= a * 2 ^ k / b ->
  (m = a * 2 ^ k / b \/
   (m = a * 2 ^ k / b + 1 /\ b <= 2 * ((a * 2 ^ k) mod b))) ->
  m / 2 ^ k = a / b.
Proof.
  intros Ha Hb Hk Hq Hm.
  assert (HP : 0 < 2 ^ k) by (apply Z.pow_pos_nonneg; lia).
  set (P := 2 ^ k) in *.
  pose proof (Z.div_mod (a * P) b ltac:(lia)) as Hn.
  pose proof (Z.mod_pos_bound (a * P) b Hb) as Hr.
  pose proof (Z.div_mod a b ltac:(lia)) as Ha'.
  pose proof (Z.mod_pos_bound a b Hb) as HR.
  set (q := a * P / b) in *. set (r := (a * P) mod b) in *.
  set (Q := a / b) in *. set (R := a mod b) in *.
  assert (H52 : 2 ^ 53 = 2 * 2 ^ 52) by reflexivity.
  assert (Hlow : Q * P <= q) by nia.
  assert (Hup : q < (Q + 1) * P) by nia.
  symmetry. apply (Z.div_unique m P Q (m - Q * P)); [|lia].
  left. destruct Hm as [-> | [-> Hround]]; [lia|].
  split; [lia|].
  assert (q + 1 <> (Q + 1) * P); [|lia].
  intros E.
  assert (HPb : P * (b - R) = b - r) by nia.
  assert (2 * P <= b) by nia.
  nia.
Qed.

Lemma double_exponent_small a b :
  0 < a < 2 ^ 53 -> 0 < b ->
  double_exponent a b <= 0 /\
  2 ^ 52 <= a * 2 ^ (- double_exponent a b) / b < 2 ^ 53.
Proof.
  intros Ha Hb.
  destruct (Z.log2_spec a ltac:(lia)) as [Hla1 Hla2].
  destruct (Z.log2_spec b Hb) as [Hlb1 Hlb2].
  pose proof (Z.log2_nonneg a) as Hla0. pose proof (Z.log2_nonneg b) as Hlb0.
  assert (Hla : Z.log2 a < 53) by (apply Z.log2_lt_pow2; lia).
  unfold double_exponent, scaled_quotient.
  set (e0 := Z.log2 a - Z.log2 b - 53).
  assert (He0 : e0 < 0) by (unfold e0; lia).
  assert (Hpos : 0 < 2 ^ (- e0)) by (apply Z.pow_pos_nonneg; lia).
  assert (Hq0 : 2 ^ 52 <= a * 2 ^ (- e0) / b).
  { apply Z.div_le_lower_bound; [lia|].
    assert (2 ^ (- e0) * 2 ^ Z.log2 a = 2 ^ 52 * 2 ^ (Z.succ (Z.log2 b))).
    { rewrite <- !Z.pow_add_r by lia. f_equal. unfold e0. lia. }
    nia. }
  rewrite (Z.max_r 0 (- e0)), (Z.max_l 0 e0), Z.mul_1_r by lia.
  destruct (_ <? _)%Z eqn:E.
  { apply Z.ltb_lt in E. split; [lia|]. split; [exact Hq0|exact E]. }
  apply Z.ltb_ge in E. split; [lia|].
  assert (H2 : 2 ^ (- e0) = 2 * 2 ^ (- (e0 + 1))).
  { replace (- e0) with (Z.succ (- (e0 + 1))) by lia.
    apply Z.pow_succ_r. lia. }
  assert (H53 : 2 ^ 53 = 2 * 2 ^ 52) by reflexivity.
  assert (Hpos' : 0 < 2 ^ (- (e0 + 1))) by (apply Z.pow_pos_nonneg; lia).
  split.
  - apply Z.div_le_lower_bound; [lia|].
    pose proof (Z.mul_div_le (a * 2 ^ (- e0)) b Hb). nia.
  - apply Z.div_lt_upper_bound; [lia|].
    assert (2 ^ (- (e0 + 1)) * 2 ^ Z.succ (Z.log2 a) = 2 ^ 53 * 2 ^ Z.log2 b).
    { rewrite <- !Z.pow_add_r by lia. f_equal. unfold e0. lia. }
    nia.
Qed.

(** Below 2^53 the double is exact enough: [int(a / b)] is the floor. *)
Lemma int_true_div_exact a b :
  0 <= a < 2 ^ 53 -> 0 < b -> int_true_div a b = Some (a / b).
Proof.
  intros Ha Hb. unfold int_true_div.
  destruct (b =? 0) eqn:Eb; [lia|].
  destruct (a =? 0) eqn:Ea.
  { apply Z.eqb_eq in Ea. subst a. now rewrite Z.div_0_l by lia. }
  apply Z.eqb_neq in Ea.
  rewrite (Z.abs_eq a), (Z.abs_eq b) by lia.
  destruct (double_exponent_small a b ltac:(lia) Hb) as (He & Hq & Hq').
  set (e := double_exponent a b) in *. clearbody e.
  cbv zeta. unfold double_mantissa.
  rewrite (Z.max_r 0 (- e)), (Z.max_l 0 e), !Z.mul_1_r by lia.
  set (m := if _ || _ then _ else _).
  assert (Hm : m = a * 2 ^ (- e) / b \/
               (m = a * 2 ^ (- e) / b + 1 /\ b <= 2 * ((a * 2 ^ (- e)) mod b))).
  { unfold m. destruct (_ || _) eqn:E; [|now left]. right. split; [reflexivity|].
    apply orb_true_iff in E. destruct E as [E|E].
    - apply Z.ltb_lt in E. lia.
    - apply andb_true_iff in E. destruct E as [E _]. apply Z.eqb_eq in E. lia. }
  clearbody m.
  pose proof (round_exact a b (- e) m ltac:(lia) Hb ltac:(lia) Hq Hm) as Hx.
  assert (Hsmall : m < 2 ^ 1024).
  { assert (2 ^ 53 + 1 < 2 ^ 1024) by reflexivity. lia. }
  destruct (2 ^ 1024 <=? m) eqn:Eo; [apply Z.leb_le in Eo; lia|].
  rewrite Hx. f_equal.
  rewrite (Z.sgn_pos a), (Z.sgn_pos b) by lia. lia.
Qed.

(** Above 2^53 the rounding shows: of four frames spread over 2^53 + 2 the
    last position read is 2^53, one short of the last frame. *)
Lemma frame_positions_rounded :
  frame_positions (2 ^ 53 + 2) 4
  = Some [0; 3002399751580331; 6004799503160662; 2 ^ 53].
Proof. vm_compute. reflexivity. Qed.

Lemma frame_positions_some total num :
  1 < num < total -> (num - 1) * (total - 1) < 2 ^ 53 ->
  frame_positions total num = Some (List.map (spread total num) (py_range num)).
Proof.
  intros H Hsmall. unfold frame_positions.
  destruct (num >=? total) eqn:E; [lia|].
  apply mapM_Some.
  change (List.map (spread total num) (py_range num))
    with (spread total num <$> py_range num).
  apply Forall2_fmap_r, Forall_Forall2_diag.
  eapply Forall_impl; [apply py_range_nonneg|].
  intros i Hi. simpl in Hi. unfold spread.
  apply int_true_div_exact; [|lia]. nia.
Qed.

Lemma spread_step total num i :
  1 < num < total -> 0 <= i -> spread total num i + 1 <= spread total num (i + 1).
Proof.
  intros H Hi. unfold spread.
  replace ((i + 1) * (total - 1)) with (i * (total - 1) + (total - 1)) by ring.
  rewrite <- (Z.div_add (i * (total - 1)) 1 (num - 1)) by lia.
  apply Z.div_le_mono; lia.
Qed.

Lemma spread_increasing total num i j :
  1 < num < total -> 0 <= i -> i < j -> spread total num i < spread total num j.
Proof.
  intros H Hi Hij.
  replace j with (i + 1 + (j - i - 1)) by ring.
  pose proof (spread_step total num i H Hi).
  assert (spread total num (i + 1) <= spread total num (i + 1 + (j - i - 1))).
  { unfold spread. apply Z.div_le_mono; [lia|]. nia. }
  lia.
Qed.

(** X16.  Frame sampling.  When more than one frame is asked for, the
    video has more frames than that, and the largest product the code forms,
    [(num - 1) * (total - 1)], is below 2^53 (so that the double it divides
    through is exact enough), exactly that many positions are read; they
    start at the first frame, end at the last, increase strictly (no frame
    is read twice) and stay within the video. *)
Theorem frame_positions_spread total num :
  1 < num < total -> (num - 1) * (total - 1) < 2 ^ 53 ->
  exists ps,
    frame_positions total num = Some ps /\
    length ps = Z.to_nat num /\
    ps !! 0%nat = Some 0 /\
    last ps = Some (total - 1) /\
    (forall (i j : nat) a b,
       (i < j)%nat -> ps !! i = Some a -> ps !! j = Some b -> a < b) /\
    Forall (fun p => 0 <= p <= total - 1) ps.
Proof.
  intros H Hsmall.
  exists (List.map (spread total num) (py_range num)).
  assert (Hlook : forall i : nat, (i < Z.to_nat num)%nat ->
            List.map (spread total num) (py_range num) !! i
            = Some (spread total num (Z.of_nat i))).
  { intros i Hi.
    change (List.map (spread total num) (py_range num))
      with (spread total num <$> py_range num).
    now rewrite list_lookup_fmap, py_range_lookup. }
  assert (Hlen : length (List.map (spread total num) (py_range num))
                 = Z.to_nat num)
    by (now rewrite length_map, py_range_length).
  split; [now apply frame_positions_some|]. split; [exact Hlen|].
  split; [|split; [|split]].
  - rewrite Hlook by lia. reflexivity.
  - rewrite last_lookup, Hlen, Hlook by lia. f_equal. unfold spread.
    replace (Z.of_nat (Init.Nat.pred (Z.to_nat num))) with (num - 1) by lia.
    rewrite Z.mul_comm. apply Z.div_mul. lia.
  - intros i j a b Hij Ha Hb.
    assert (Hj : (j < Z.to_nat num)%nat)
      by (apply lookup_lt_Some in Hb; now rewrite Hlen in Hb).
    rewrite Hlook in Ha, Hb by lia. injection Ha as <-. injection Hb as <-.
    apply spread_increasing; lia.
  - apply Forall_forall. intros p Hp.
    apply list_elem_of_In, in_map_iff in Hp. destruct Hp as (i & <- & Hi).
    apply list_elem_of_In in Hi.
    pose proof (py_range_nonneg num) as Hr. rewrite Forall_forall in Hr.
    specialize (Hr i Hi). simpl in Hr. unfold spread. split.
    + apply Z.div_pos; nia.
    + replace (total - 1) with ((total - 1) * (num - 1) / (num - 1)) at 2
        by (apply Z.div_mul; lia).
      apply Z.div_le_mono; [lia|]. nia.
Qed.

Lemma frame_positions_spread_witness :
  1 < 4 < 10 /\ (4 - 1) * (10 - 1) < 2 ^ 53 /\
  exists ps, frame_positions 10 4 = Some ps /\ length ps = 4%nat /\
             last ps = Some 9.
Proof.
  assert (H : 1 < 4 < 10) by lia.
  assert (H' : (4 - 1) * (10 - 1) < 2 ^ 53) by reflexivity.
  split; [exact H|]. split; [exact H'|].
  destruct (frame_positions_spread 10 4 H H') as (ps & H1 & H2 & _ & H4 & _).
  exists ps. repeat split; assumption.
Defined.

(** X17.  The edges of frame sampling.  A video with no more frames than
    asked for is read whole, frame by frame.  Asking for a single frame of a
    longer video divides by zero: the computation raises and no frame is
    extracted.  Asking for none, or fewer, reads nothing. *)
Theorem frame_positions_edges total num :
  (total <= num -> frame_positions total num = Some (py_range total)) /\
  (num = 1 -> 1 < total -> frame_positions total num = None) /\
  (num <= 0 -> num < total -> frame_positions total num = Some []).
Proof.
  unfold frame_positions. repeat split.
  - intros H. destruct (num >=? total) eqn:E; [reflexivity | lia].
  - intros -> H. destruct (1 >=? total) eqn:E; [lia | reflexivity].
  - intros H0 H. destruct (num >=? total) eqn:E; [lia|].
    unfold py_range. replace (Z.to_nat num) with 0%nat by lia. reflexivity.
Qed.

End Frames.

(** * Loading the recipient directory *)

Section LoadFriends.

Lemma load_entries_prefix entries :
  exists good rest,
    entries = good ++ rest /\
    Forall2 (fun e f => make_friend e = Some f) good (load_entries entries) /\
    match rest with
    | [] => True
    | e :: _ => make_friend e = None
    end.
Proof.
  induction entries as [|e entries (good & rest & Hsplit & Hgood & Hrest)].
  - exists [], []. repeat split. constructor.
  - simpl. destruct (make_friend e) as [f|] eqn:He.
    + exists (e :: good), rest. repeat split.
      * simpl. now rewrite <- Hsplit.
      * now constructor.
      * exact Hrest.
    + exists [], (e :: entries). repeat split; [constructor | exact He].
Qed.

Lemma make_friend_username e f :
  make_friend e = Some f -> fd_username e = Some (username f).
Proof.
  unfold make_friend. destruct (fd_username e) as [u|]; [|discriminate].
  destruct (mapM _ _); [|discriminate]. now intros [= <-].
Qed.

(** X18.  Loading the directory keeps the declaration order and stops at
    the first entry that cannot be built (no username, or an interest that
    is no text): the profiles loaded are those of the entries before it, one
    for one, and that entry and every later one are dropped without an
    error.  When every entry can be built, every one is loaded. *)
Theorem load_friends_stops_at_bad_entry entries :
  let loaded := _load_friends (FileData (Some entries)) in
  exists good rest,
    entries = good ++ rest /\
    List.map fd_username good = List.map (fun f => Some (username f)) loaded /\
    length loaded = length good /\
    match rest with
    | [] => True
    | e :: _ => make_friend e = None
    end /\
    (Forall (fun e => make_friend e <> None) entries -> rest = []).
Proof.
  intros loaded.
  destruct (load_entries_prefix entries) as (good & rest & Hsplit & Hgood & Hrest).
  exists good, rest. change loaded with (load_entries entries).
  repeat split; try assumption.
  - clear Hsplit Hrest loaded. revert Hgood. generalize (load_entries entries).
    intros l Hgood.
    induction Hgood as [|e f good l Hef _ IH]; [reflexivity|].
    simpl. now rewrite (make_friend_username e f Hef), IH.
  - symmetry. eapply Forall2_length; eauto.
  - intros Hall. rewrite Hsplit in Hall. apply Forall_app in Hall.
    destruct Hall as [_ Hall]. destruct rest as [|e rest']; [reflexivity|].
    inversion Hall; subst. contradiction.
Qed.

(** X19.  Defaults and case of a loaded profile: an entry without a cap
    gets the cap 3, an entry without interests gets none (and so matches no
    category), and the interests of a profile are stored in lower case. *)
Theorem load_friends_defaults e f :
  make_friend e = Some f ->
  (fd_max_shares_per_day e = None -> f_max_shares_per_day f = 3%Z) /\
  (forall m, fd_max_shares_per_day e = Some m -> f_max_shares_per_day f = m) /\
  (fd_interests e = None ->
   interests f = [] /\ forall category, matches_category f category = false) /\
  Forall (fun i => PyStr.lower i = i) (interests f).
Proof.
  unfold make_friend. destruct (fd_username e) as [u|]; [|discriminate].
  destruct (mapM as_str _) as [ints|] eqn:Hm; [|discriminate].
  intros [= <-]. unfold FriendProfile_init. simpl.
  split; [|split; [|split]].
  - now intros ->.
  - now intros m ->.
  - intros Hi. rewrite Hi in Hm. simpl in Hm. injection Hm as <-.
    split; reflexivity.
  - apply Forall_forall. intros i Hi.
    apply list_elem_of_In, in_map_iff in Hi. destruct Hi as (x & <- & _).
    clear. induction x as [|c x IH]; [reflexivity|]. simpl. rewrite IH. f_equal.
    destruct c as [[] [] [] [] [] [] [] []]; reflexivity.
Qed.

Lemma load_friends_defaults_witness :
  let e := mkFriendData (Some "bob") (Some [PStr "Animals"]) None in
  exists f, make_friend e = Some f /\ f_max_shares_per_day f = 3%Z /\
            interests f = ["animals"].
Proof.
  cbv zeta. eexists. split; [reflexivity|]. split; [|reflexivity].
  refine (proj1 (load_friends_defaults
            (mkFriendData (Some "bob") (Some [PStr "Animals"]) None) _ eq_refl)
            eq_refl).
Defined.

End LoadFriends.

(** * Start-up *)

Section Startup.

Lemma validate_config_true config :
  validate_config config = true <->
  config_has config "instagram_username" = true /\
  config_has config "instagram_password" = true /\
  config_has config "openai_api_key" = true.
Proof.
  unfold validate_config, required_keys. simpl.
  destruct (config_has config "instagram_username"),
           (config_has config "instagram_password"),
           (config_has config "openai_api_key"); simpl; intuition congruence.
Qed.

(** X20.  Start-up never takes the analyzer key from the environment.  The
    session is started exactly when the configuration file parses and holds
    non-empty values for the two platform credentials and for the analyzer
    key, and then with the configuration unchanged; whatever the environment
    variable holds, the outcome is the same. *)
Theorem environment_key_is_never_used file environ_key :
  main file environ_key = main file None /\
  (forall config,
     main file environ_key = RunSession config <->
     file = ConfigParsed config /\
     config_has config "instagram_username" = true /\
     config_has config "instagram_password" = true /\
     config_has config "openai_api_key" = true).
Proof.
  assert (Hmain : forall env_key,
            main file env_key =
            match file with
            | ConfigMissing => Exit1
            | ConfigMalformed => Crash
            | ConfigParsed config =>
                if validate_config config then RunSession config else Exit1
            end).
  { intros env_key. unfold main. destruct file as [| |config]; try reflexivity.
    destruct (validate_config config) eqn:Hv; [|reflexivity]. simpl.
    apply validate_config_true in Hv. destruct Hv as (_ & _ & Hk).
    rewrite Hk. simpl. now rewrite Hk. }
  split; [now rewrite !Hmain|].
  intros config. rewrite Hmain. destruct file as [| |config0].
  - split; [discriminate | intros [[=] _]].
  - split; [discriminate | intros [[=] _]].
  - destruct (validate_config config0) eqn:Hv.
    + apply validate_config_true in Hv. split.
      * intros [= <-]. now split.
      * intros [[= <-] _]. reflexivity.
    + split; [discriminate|]. intros [[= <-] H].
      apply validate_config_true in H. congruence.
Qed.

End Startup.

(** * The feed generator *)

Section Feed.

Local Open Scope Z_scope.

Variable max_reels : Z.

Local Definition scan_ok (count : Z) (seen : list Z)
    (r : list Z * (Z * list Z) * bool) : Prop :=
  r.1.2.1 = count + Z.of_nat (length r.1.1) /\
  (count <= max_reels -> r.1.2.1 <= max_reels) /\
  NoDup r.1.1 /\
  Forall (fun y => y <> 0 /\ y ∉ seen) r.1.1 /\
  (forall x, x ∈ r.1.2.2 <-> x ∈ r.1.1 \/ x ∈ seen).

Lemma scan_ok_stop count seen raised :
  scan_ok count seen ([], (count, seen), raised).
Proof.
  unfold scan_ok; simpl.
  split; [lia|]. split; [tauto|]. split; [constructor|].
  split; [constructor|]. intros x. split; [tauto|].
  intros [H|H]; [inversion H|exact H].
Qed.

Lemma scan_items_spec items : forall count seen,
  scan_ok count seen (scan_items max_reels items count seen).
Proof.
  induction items as [|item items IH]; intros count seen; simpl.
  - apply scan_ok_stop.
  - destruct (count >=? max_reels) eqn:Hc; [apply scan_ok_stop|].
    destruct item as [[pk|]|]; [|apply IH|apply scan_ok_stop].
    destruct (negb (pk =? 0) && negb (bool_decide (pk ∈ seen))) eqn:Hnew;
      [|apply IH].
    apply andb_true_iff in Hnew. destruct Hnew as [Hz Hs].
    apply negb_true_iff in Hz, Hs. apply Z.eqb_neq in Hz.
    apply bool_decide_eq_false in Hs.
    specialize (IH (count + 1) (pk :: seen)).
    destruct (scan_items max_reels items (count + 1) (pk :: seen))
      as [[ys [count' seen']] raised].
    unfold scan_ok in *; simpl in *.
    destruct IH as (Hcount & Hmax & Hnd & Hall & Hseen).
    rewrite Z.geb_leb in Hc. apply Z.leb_gt in Hc.
    split; [lia|]. split; [lia|]. split; [|split].
    + constructor; [|exact Hnd]. intros Hin.
      rewrite Forall_forall in Hall. destruct (Hall pk Hin) as [_ Hn].
      apply Hn. left.
    + constructor; [now split|].
      eapply Forall_impl; [exact Hall|]. simpl. intros y [Hy Hn].
      split; [exact Hy|]. intros Hin. apply Hn. now right.
    + intros x. rewrite Hseen. rewrite !elem_of_cons. tauto.
Qed.

Local Definition feed_ok (count : Z) (seen ys : list Z) : Prop :=
  NoDup ys /\
  Forall (fun y => y <> 0 /\ y ∉ seen) ys /\
  Z.of_nat (length ys) <= Z.max 0 (max_reels - count).

Lemma feed_ok_nil count seen : feed_ok count seen [].
Proof.
  unfold feed_ok. split; [constructor|]. split; [constructor|]. simpl. lia.
Qed.

Lemma feed_loop_spec pages fuel : forall n count seen,
  feed_ok count seen (feed_loop max_reels pages fuel n count seen).
Proof.
  induction fuel as [|fuel IH]; intros n count seen; simpl.
  { apply feed_ok_nil. }
  destruct (count <? max_reels) eqn:Hc; [|apply feed_ok_nil].
  apply Z.ltb_lt in Hc.
  destruct (pages n) as [|items has_next]; [apply feed_ok_nil|].
  destruct items as [|item items]; [apply feed_ok_nil|].
  pose proof (scan_items_spec (item :: items) count seen) as Hscan.
  destruct (scan_items max_reels (item :: items) count seen)
    as [[ys [count' seen']] raised].
  unfold scan_ok in Hscan; simpl in Hscan.
  destruct Hscan as (Hcount & Hmax & Hnd & Hall & Hseen).
  specialize (Hmax ltac:(lia)).
  assert (Hnil : feed_ok count seen (ys ++ [])).
  { rewrite app_nil_r. unfold feed_ok.
    split; [exact Hnd|]. split; [exact Hall|]. lia. }
  destruct raised; [exact Hnil|]. destruct has_next; [|exact Hnil].
  specialize (IH (S n) count' seen'). unfold feed_ok in IH |- *.
  destruct IH as (Hnd' & Hall' & Hlen').
  split; [|split].
  - apply NoDup_app. split; [exact Hnd|]. split; [|exact Hnd'].
    intros x Hx Hx'. rewrite Forall_forall in Hall'.
    destruct (Hall' x Hx') as [_ Hn]. apply Hn. apply Hseen. now left.
  - apply Forall_app. split; [exact Hall|].
    eapply Forall_impl; [exact Hall'|]. simpl. intros y [Hy Hn].
    split; [exact Hy|]. intros Hin. apply Hn. apply Hseen. now right.
  - rewrite length_app. lia.
Qed.

Lemma feed_loop_grows pages fuel : forall n count seen,
  exists more,
    feed_loop max_reels pages (S fuel) n count seen
    = feed_loop max_reels pages fuel n count seen ++ more.
Proof.
  induction fuel as [|fuel IH]; intros n count seen.
  - eexists. reflexivity.
  - cbn [feed_loop].
    destruct (count <? max_reels); [|now exists []].
    destruct (pages n) as [|items has_next]; [now exists []|].
    destruct items as [|item items]; [now exists []|].
    destruct (scan_items max_reels (item :: items) count seen)
      as [[ys [count' seen']] raised].
    destruct raised; [exists []; now rewrite !app_nil_r|].
    destruct has_next; [|exists []; now rewrite !app_nil_r].
    destruct (IH (S n) count' seen') as [more Hmore].
    exists more. cbn [feed_loop] in Hmore. rewrite Hmore.
    now rewrite app_assoc.
Qed.

End Feed.

(** X21.  What the feed yields, however many pages are requested: no pk
    twice, no pk that is zero, and never more items than [max_reels] (none
    when it is zero or negative); and requesting one more page only adds to
    what was yielded before. *)
Theorem feed_yields_distinct_bounded max_reels pages fuel :
  let ys := get_reels_feed max_reels pages fuel in
  NoDup ys /\
  Forall (fun pk => pk <> 0%Z) ys /\
  (Z.of_nat (length ys) <= Z.max 0 max_reels)%Z /\
  exists more, get_reels_feed max_reels pages (S fuel) = ys ++ more.
Proof.
  intros ys. unfold ys, get_reels_feed.
  destruct (feed_loop_spec max_reels pages fuel 0%nat 0%Z []) as (Hnd & Hall & Hlen).
  repeat split.
  - exact Hnd.
  - eapply Forall_impl; [exact Hall|]. simpl. tauto.
  - rewrite Z.sub_0_r in Hlen. exact Hlen.
  - apply feed_loop_grows.
Qed.

(** * The table formatter *)

Section Table.

Lemma length_app_string (a b : string) :
  String.length (a +:+ b) = String.length a + String.length b.
Proof.
  induction a as [|c a IH]; [reflexivity|].
  change (String c a +:+ b) with (String c (a +:+ b)). simpl. now rewrite IH.
Qed.

Lemma length_str_repeat c n : String.length (str_repeat c n) = n.
Proof. induction n as [|n IH]; simpl; [reflexivity|now rewrite IH]. Qed.

Lemma length_ljust s w :
  String.length s <= w -> String.length (ljust s w) = w.
Proof.
  intros H. unfold ljust. rewrite length_app_string, length_str_repeat. lia.
Qed.

Lemma fold_max_ge (f : TableRow -> nat) data : forall w,
  w <= fold_left (fun w row => Nat.max w (f row)) data w.
Proof.
  induction data as [|row data IH]; intros w; simpl; [lia|].
  etransitivity; [|apply IH]. lia.
Qed.

Lemma fold_max_row (f : TableRow -> nat) data row : forall w,
  In row data -> f row <= fold_left (fun w row => Nat.max w (f row)) data w.
Proof.
  induction data as [|r data IH]; intros w Hin; simpl; [destruct Hin|].
  destruct Hin as [->|Hin].
  - etransitivity; [|apply fold_max_ge]. lia.
  - now apply IH.
Qed.

(** Two lines whose cells fit their columns are equally long. *)
Lemma table_line_length data headers (cell cell' : string -> string) :
  (forall h, String.length (cell h) <= column_width data h) ->
  (forall h, String.length (cell' h) <= column_width data h) ->
  String.length (table_line data headers cell)
  = String.length (table_line data headers cell').
Proof.
  intros Hc Hc'. unfold table_line.
  induction headers as [|h hs IH]; [reflexivity|].
  cbn [List.map str_join].
  destruct hs as [|h' hs].
  - cbn [List.map]. now rewrite !length_ljust.
  - cbn [List.map] in *. rewrite !length_app_string, !length_ljust by auto.
    now rewrite IH.
Qed.

End Table.

(** X22.  The fallback table (no [tabulate]): for any data with at least one
    row the result is the lines joined by newlines, there are two lines more
    than rows, and every line, the dashes included, is as long as the header
    line.  Without rows the result is the fixed message, with or without
    [tabulate]. *)
Theorem fallback_table_is_aligned tabulate row data headers :
  let rows := row :: data in
  let used := match headers with
              | Some (h :: hs) => h :: hs
              | _ => List.map fst row
              end in
  format_table None rows headers = str_join newline (table_lines rows used) /\
  length (table_lines rows used) = length rows + 2 /\
  Forall (fun line => String.length line
                      = String.length (table_line rows used (fun h => h)))
         (table_lines rows used) /\
  format_table tabulate [] headers = "No data available.".
Proof.
  intros rows used. split; [reflexivity|]. split; [|split; [|reflexivity]].
  - unfold table_lines. cbn [length]. rewrite length_map.
    now rewrite Nat.add_comm.
  - unfold table_lines. constructor; [reflexivity|].
    constructor; [apply length_str_repeat|].
    apply Forall_forall. intros line Hin.
    apply list_elem_of_In, in_map_iff in Hin. destruct Hin as (r & <- & Hr).
    apply table_line_length.
    + intros h. unfold column_width.
      exact (fold_max_row (fun row => String.length (row_get row h)) rows r _ Hr).
    + intros h. unfold column_width.
      exact (fold_max_ge (fun row => String.length (row_get row h)) rows _).
Qed.
